(** * GAG DROP WATCH: the notification bot of [index.js]

    A shallow embedding of the stock feed client, the five-minute matching
    job, the Messenger dispatcher and the registration-prompt throttle of
    [src/index.js], and the properties of the specification proved (or
    refuted) on it.

    Conventions of the embedding.
    - Times are milliseconds since the epoch, in [Z].  Every call of
      [Date.now()] (and [new Date()]) consumes one reading of the clock
      [Date_now env]: the source reads the clock several times per item.
    - The module-level variables of the source ([stockData], [ws],
      [keepAliveInterval], [unregisteredMessageCache]) and the [User]
      collection are fields of one [State].
    - An [await] suspends the running callback: the handlers of the feed
      events that arrive meanwhile run on the state before it resumes, and
      the awaited call either resolves or rejects as the environment says.
    - Exceptions are results: [Exn e s] carries the state reached when the
      exception was thrown.
    - The items of a category are objects with a name and an integer
      quantity; the documents of the collection have the types of the schema.
      The ledger of a loaded document is the Map of the schema, whose [set]
      refuses some keys ([map_key_ok]).
    - Callbacks run one at a time: a matching run or a prompt attempt is
      interleaved with the feed handlers at its awaits.  Two prompt attempts
      that overlap are modelled apart, from the two phases of an attempt
      ([overlapping_prompts]).
    - [console.log] and [console.error] are not modelled. *)

From Stdlib Require Import ZArith Lia List Ascii String.
From Stdlib Require Import Floats.SpecFloat.
From stdpp Require Import base option list gmap strings pretty.

Local Open Scope string_scope.
Local Open Scope Z_scope.

(** ** Data *)

(** A stock item of the feed: [{ name, quantity, emoji? }]. *)
Module Item.
Record t := mk { name : string; quantity : Z; emoji : option string }.
End Item.

(** The value of [stockData.<category>?.items]: missing (or falsy), an array
    of items, or some other truthy value, which has no [forEach]. *)
Inductive Items :=
| ItemsAbsent
| ItemsArray (l : list Item.t)
| ItemsOther.

(** The categories of a snapshot that the matching job reads. *)
Module Stock.
Record t := mk { seed : Items; gear : Items; egg : Items; travelingmerchant : Items }.
End Stock.

(** A document of the [User] collection ([userSchema]). *)
Module User.
Record t := mk {
  uid : string;
  name : string;
  seeds : list string;
  gear : list string;
  eggs : list string;
  travelingmerchant : list string;
  lastNotified : option (gmap string Z)
}.
End User.

(** What is posted to the Messenger API. *)
Inductive Message :=
| Text (text : string)
| RegistrationTemplate (uid : string).

(** One call of [axios.post]: recipient, message, and whether it resolved. *)
Record Post := mkPost { recipient : string; message : Message; delivered : bool }.

(** A frame received on the socket: [JSON.parse] (or reading the payload)
    throws, or the payload has a [status] and a possibly missing [data]. *)
Inductive Frame :=
| Garbage
| Payload (status : string) (data : option Stock.t).

(** What the event loop delivers to the feed client: the events of the
    socket, and the expiry of the oldest pending timeout. *)
Inductive FeedEvent :=
| EvOpen
| EvMessage (data : Frame)
| EvError
| EvClose
| EvTimeout.

(** Callbacks handed to [setTimeout]. *)
Inductive Callback := ConnectWebSocket.

(** What is thrown: a [TypeError] of the language, a rejected post, a
    rejected store call, and the [Error] with which a Map of a Mongoose
    document refuses a key. *)
Inductive Err := TypeError | NetworkError | StoreError | MapKeyError.

(** The environment of a run: the clock, the rendering of a time in the
    Asia/Manila zone, and, for the k-th [await] of the run, the feed events
    delivered while it is pending and whether the awaited call resolves. *)
Record Env := mkEnv {
  Date_now : nat -> Z;
  toLocaleString : Z -> string;
  feed_during : nat -> list FeedEvent;
  post_ok : nat -> bool;
  store_ok : nat -> bool
}.

Record State := mkState {
  ticks : nat;
  awaits : nat;
  stockData : option Stock.t;
  keepAliveInterval : option nat;
  intervals : gset nat;
  timeouts : list (Z * Callback);
  handles : nat;
  sockets : nat;
  users : list User.t;
  unregisteredMessageCache : gmap string Z;
  outbox : list Post
}.

Definition set_ticks (n : nat) (s : State) : State :=
  mkState n (awaits s) (stockData s) (keepAliveInterval s) (intervals s)
          (timeouts s) (handles s) (sockets s) (users s)
          (unregisteredMessageCache s) (outbox s).

Definition set_awaits (n : nat) (s : State) : State :=
  mkState (ticks s) n (stockData s) (keepAliveInterval s) (intervals s)
          (timeouts s) (handles s) (sockets s) (users s)
          (unregisteredMessageCache s) (outbox s).

Definition set_stockData (d : option Stock.t) (s : State) : State :=
  mkState (ticks s) (awaits s) d (keepAliveInterval s) (intervals s)
          (timeouts s) (handles s) (sockets s) (users s)
          (unregisteredMessageCache s) (outbox s).

Definition set_keepAlive (k : option nat) (i : gset nat) (h : nat) (s : State) : State :=
  mkState (ticks s) (awaits s) (stockData s) k i
          (timeouts s) h (sockets s) (users s)
          (unregisteredMessageCache s) (outbox s).

Definition set_timeouts (t : list (Z * Callback)) (s : State) : State :=
  mkState (ticks s) (awaits s) (stockData s) (keepAliveInterval s) (intervals s)
          t (handles s) (sockets s) (users s)
          (unregisteredMessageCache s) (outbox s).

Definition set_sockets (n : nat) (s : State) : State :=
  mkState (ticks s) (awaits s) (stockData s) (keepAliveInterval s) (intervals s)
          (timeouts s) (handles s) n (users s)
          (unregisteredMessageCache s) (outbox s).

Definition set_users (u : list User.t) (s : State) : State :=
  mkState (ticks s) (awaits s) (stockData s) (keepAliveInterval s) (intervals s)
          (timeouts s) (handles s) (sockets s) u
          (unregisteredMessageCache s) (outbox s).

Definition set_cache (c : gmap string Z) (s : State) : State :=
  mkState (ticks s) (awaits s) (stockData s) (keepAliveInterval s) (intervals s)
          (timeouts s) (handles s) (sockets s) (users s)
          c (outbox s).

Definition set_outbox (o : list Post) (s : State) : State :=
  mkState (ticks s) (awaits s) (stockData s) (keepAliveInterval s) (intervals s)
          (timeouts s) (handles s) (sockets s) (users s)
          (unregisteredMessageCache s) o.

(** ** Constants *)

(** [24 * 60 * 60 * 1000] *)
Definition DAY : Z := 24 * 60 * 60 * 1000.

(** [const MESSAGE_COOLDOWN = 5 * 60 * 1000] *)
Definition MESSAGE_COOLDOWN : Z := 5 * 60 * 1000.

(** The delay of [setTimeout(connectWebSocket, 3000)]. *)
Definition RECONNECT_DELAY : Z := 3000.

(** ** The feed client ([connectWebSocket] and its handlers) *)

(** [ws = new WebSocket(...)]: one more socket; the handlers below are
    registered on it. *)
Definition connectWebSocket (s : State) : State :=
  set_sockets (S (sockets s)) s.

(** [ws.on("open")]: [keepAliveInterval = setInterval(ping, 10000)]. *)
Definition on_open (s : State) : State :=
  set_keepAlive (Some (handles s)) ({[ handles s ]} ∪ intervals s) (S (handles s)) s.

(** [ws.on("message")]: a frame that does not parse, whose status is not
    "success" or whose data is missing leaves [stockData] as it is. *)
Definition on_message (f : Frame) (s : State) : State :=
  match f with
  | Garbage => s
  | Payload status data =>
      if negb (String.eqb status "success") then s
      else match data with
           | None => s
           | Some d => set_stockData (Some d) s
           end
  end.

(** [ws.on("error")]: [stockData = null]. *)
Definition on_error (s : State) : State :=
  set_stockData None s.

(** [clearInterval(keepAliveInterval)]: the variable keeps its value. *)
Definition clearInterval (h : option nat) (s : State) : State :=
  match h with
  | Some i => set_keepAlive (keepAliveInterval s) (intervals s ∖ {[ i ]}) (handles s) s
  | None => s
  end.

(** [setTimeout(cb, delay)] *)
Definition setTimeout (cb : Callback) (delay : Z) (s : State) : State :=
  set_timeouts (timeouts s ++ [(delay, cb)])%list s.

(** [ws.on("close")] *)
Definition on_close (s : State) : State :=
  setTimeout ConnectWebSocket RECONNECT_DELAY
    (set_stockData None (clearInterval (keepAliveInterval s) s)).

(** The oldest pending timeout expires and its callback runs. *)
Definition on_timeout (s : State) : State :=
  match timeouts s with
  | [] => s
  | (_, ConnectWebSocket) :: rest => connectWebSocket (set_timeouts rest s)
  end.

Definition feed_handler (ev : FeedEvent) : State -> State :=
  match ev with
  | EvOpen => on_open
  | EvMessage f => on_message f
  | EvError => on_error
  | EvClose => on_close
  | EvTimeout => on_timeout
  end.

Definition feed_handlers (evs : list FeedEvent) (s : State) : State :=
  fold_left (fun st ev => feed_handler ev st) evs s.

(** ** Numbers and their rendering ([formatValue])

    A JavaScript number is an IEEE 754 binary64 value: [spec_float] with
    [prec = 53] and [emax = 1024].  Quantities are integers, kept in [Z];
    the two divisions of [formatValue] are carried out on binary64. *)

Definition prec : Z := 53.
Definition emax : Z := 1024.

(** The binary64 value of an integer literal or integer-valued number. *)
Definition Number (v : Z) : spec_float := binary_normalize prec emax v 0 false.

(** [x / y] on numbers. *)
Definition js_div (x y : spec_float) : spec_float := SFdiv prec emax x y.

(** The integer [n] of [Number.prototype.toFixed(1)] for the value
    [m * 2^e]: the one for which [n / 10 - m * 2^e] is closest to zero, the
    larger one if there are two. *)
Definition tenths (m : positive) (e : Z) : Z :=
  let up := 2 ^ Z.max e 0 in
  let down := 2 ^ Z.max (- e) 0 in
  (20 * Z.pos m * up + down) / (2 * down).

(** The digits of [n] with a point before the last one. *)
Definition show_tenths (n : Z) : string :=
  pretty (n / 10) +:+ "." +:+ pretty (n mod 10).

(** [x.toFixed(1)].  The exponent notation that JavaScript switches to from
    [10^21] on is not modelled: a quantity below [2^53] never gets there. *)
Definition toFixed1 (x : spec_float) : string :=
  match x with
  | S754_zero _ => "0.0"
  | S754_infinity false => "Infinity"
  | S754_infinity true => "-Infinity"
  | S754_nan => "NaN"
  | S754_finite false m e => show_tenths (tenths m e)
  | S754_finite true m e => "-" +:+ show_tenths (tenths m e)
  end.

Definition formatValue (val : Z) : string :=
  if 1000000 <=? val then
    "x" +:+ toFixed1 (js_div (Number val) (Number 1000000)) +:+ "M"
  else if 1000 <=? val then
    "x" +:+ toFixed1 (js_div (Number val) (Number 1000)) +:+ "K"
  else "x" +:+ pretty val.

(** ** Results, and the monad of the callbacks *)

Inductive Res (A : Type) :=
| Ok (a : A) (s : State)
| Exn (e : Err) (s : State).
Arguments Ok {A} a s.
Arguments Exn {A} e s.

Definition state_of {A} (r : Res A) : State :=
  match r with Ok _ s => s | Exn _ s => s end.

Definition M (A : Type) : Type := State -> Res A.

Definition ret {A} (a : A) : M A := fun s => Ok a s.

Definition bind {A B} (m : M A) (f : A -> M B) : M B :=
  fun s => match m s with
           | Ok a s' => f a s'
           | Exn e s' => Exn e s'
           end.

Definition throw {A} (e : Err) : M A := fun s => Exn e s.

(** [try { m } catch (err) { h err }] *)
Definition try_catch {A} (m : M A) (h : Err -> M A) : M A :=
  fun s => match m s with
           | Ok a s' => Ok a s'
           | Exn e s' => h e s'
           end.

Declare Scope js_scope.
Delimit Scope js_scope with js.
Notation "x <- m ;; k" := (bind m (fun x => k))
  (at level 100, m at next level, right associativity) : js_scope.
Notation "m ;;; k" := (bind m (fun _ => k))
  (at level 100, right associativity) : js_scope.
Local Open Scope js_scope.

(** [for (const x of l) { body x }] *)
Fixpoint for_of {A} (l : list A) (body : A -> M unit) : M unit :=
  match l with
  | [] => ret tt
  | x :: l' => body x ;;; for_of l' body
  end.

(** [l.forEach(x => { ... })] for a callback that updates local variables
    of the enclosing function, passed along as [acc]. *)
Fixpoint forEach {A L} (l : list A) (callback : A -> L -> M L) (acc : L) : M L :=
  match l with
  | [] => ret acc
  | x :: l' => acc' <- callback x acc ;; forEach l' callback acc'
  end.

(** ** The callbacks of [index.js] *)

Definition nl : string := String "010"%char "".

Section Callbacks.
Context (env : Env).

(** [Date.now()]: the next reading of the clock. *)
Definition now : M Z :=
  fun s => Ok (Date_now env (ticks s)) (set_ticks (S (ticks s)) s).

(** [getManilaTime()]: [new Date().toLocaleString("en-US", ...)]. *)
Definition getManilaTime : M string :=
  t <- now ;; ret (toLocaleString env t).

(** The state when an [await] resumes: the handlers of the feed events that
    arrived meanwhile have run. *)
Definition resume (s : State) : State :=
  feed_handlers (feed_during env (awaits s)) (set_awaits (S (awaits s)) s).

(** The suspension of an [await]; the result is the index of this [await]. *)
Definition suspend : M nat :=
  fun s => Ok (awaits s) (resume s).

(** [await axios.post(url, { recipient: { id: uid }, message }, ...)] *)
Definition axios_post (uid : string) (msg : Message) : M unit :=
  k <- suspend ;;
  fun s => let s' := set_outbox (outbox s ++ [mkPost uid msg (post_ok env k)])%list s in
           if post_ok env k then Ok tt s' else Exn NetworkError s'.

(** [sendMessengerMessage]: the [catch] only logs. *)
Definition sendMessengerMessage (uid : string) (msg : Message) : M unit :=
  try_catch (axios_post uid msg) (fun _ => ret tt).

(** [await User.find({})] *)
Definition User_find : M (list User.t) :=
  k <- suspend ;;
  fun s => if store_ok env k then Ok (users s) s else Exn StoreError s.

(** The collection after [updateOne({ uid }, { lastNotified })]: the first
    document with this [uid] gets the map. *)
Fixpoint updateOne (uid : string) (lastNotified : gmap string Z)
         (docs : list User.t) : list User.t :=
  match docs with
  | [] => []
  | u :: docs' =>
      if String.eqb (User.uid u) uid then
        User.mk (User.uid u) (User.name u) (User.seeds u) (User.gear u)
                (User.eggs u) (User.travelingmerchant u) (Some lastNotified)
        :: docs'
      else u :: updateOne uid lastNotified docs'
  end.

(** [await User.updateOne({ uid: user.uid }, { lastNotified })] *)
Definition User_updateOne (uid : string) (lastNotified : gmap string Z) : M unit :=
  k <- suspend ;;
  fun s => if store_ok env k
           then Ok tt (set_users (updateOne uid lastNotified (users s)) s)
           else Exn StoreError s.

(** The line pushed for an item:
    [`${item.emoji} ${item.name}: ${formatValue(item.quantity)}`]. *)
Definition line (item : Item.t) : string :=
  default "undefined" (Item.emoji item) +:+ " " +:+ Item.name item +:+ ": "
    +:+ formatValue (Item.quantity item).

(** The keys that [lastNotified.set] takes.  [lastNotified] is declared
    as a Map in the schema, with a default, so every document that Mongoose
    loads carries one; its [set] throws for a key that starts with a dollar
    sign or contains a dot, and stores nothing then. *)
Definition map_key_ok (key : string) : bool :=
  negb (String.prefix "$" key)
  && negb (existsb (Ascii.eqb ".") (list_ascii_of_string key)).

(** The callback of [items.forEach] in the matching job; [watch] is the
    watchlist of the category; the local variables [inStockItems] and
    [lastNotified] of the loop body are passed along.  The line is pushed
    and the clock is read for the argument of [set] before [set] looks at
    the key; when it throws, the buffer is lost with the run. *)
Definition check_item (watch : list string) (item : Item.t)
           (acc : list string * gmap string Z) : M (list string * gmap string Z) :=
  if bool_decide (Item.name item ∈ watch) && (0 <? Item.quantity item) then
    let lastSent := default 0 (acc.2 !! Item.name item) in
    t <- now ;;
    if DAY <? t - lastSent then
      let inStockItems := (acc.1 ++ [line item])%list in
      t' <- now ;;
      if map_key_ok (Item.name item) then
        ret (inStockItems, <[Item.name item := t']> (acc.2))
      else throw MapKeyError
    else ret acc
  else ret acc.

(** One of the four blocks "Check seeds", "Check gear", ...:
    [if (user.c && user.c.length > 0 && stockData.k?.items) { ...forEach }].
    [stockData] is read from the module-level variable; reading a
    property of [null] throws. *)
Definition check_category (watch : list string) (category : Stock.t -> Items)
           (acc : list string * gmap string Z) : M (list string * gmap string Z) :=
  if (0 <? length watch)%nat then
    fun s =>
      match stockData s with
      | None => Exn TypeError s
      | Some data =>
          match category data with
          | ItemsAbsent => Ok acc s
          | ItemsArray items => forEach items (check_item watch) acc s
          | ItemsOther => Exn TypeError s
          end
      end
  else ret acc.

(** The text of the alert. *)
Definition notifyMsg (user : User.t) (timestamp : string) (inStockItems : list string) : string :=
  "📦 Alert for " +:+ User.name user +:+ " at " +:+ timestamp +:+ ":" +:+ nl +:+ nl
    +:+ "Your preferred items are in stock:" +:+ nl
    +:+ String.concat nl inStockItems +:+ nl +:+ nl
    +:+ "Check GAG DROP WATCH for more details!".

(** The four category blocks of the loop body, after
    [const lastNotified = user.lastNotified || new Map()]: the Map of the
    loaded document, which is empty for a document stored without one. *)
Definition check_user (user : User.t) : M (list string * gmap string Z) :=
  acc <- check_category (User.seeds user) Stock.seed
           ([], default ∅ (User.lastNotified user)) ;;
  acc <- check_category (User.gear user) Stock.gear acc ;;
  acc <- check_category (User.eggs user) Stock.egg acc ;;
  check_category (User.travelingmerchant user) Stock.travelingmerchant acc.

(** The body of [for (const user of users)]. *)
Definition process_user (user : User.t) : M unit :=
  acc <- check_user user ;;
  if (0 <? length acc.1)%nat then
    timestamp <- getManilaTime ;;
    sendMessengerMessage (User.uid user) (Text (notifyMsg user timestamp acc.1)) ;;;
    User_updateOne (User.uid user) acc.2
  else ret tt.

(** The callback of [cron.schedule]. *)
Definition cron_job : M unit :=
  fun s =>
    match stockData s with
    | None => Ok tt s
    | Some _ =>
        try_catch (users <- User_find ;; for_of users process_user)
                  (fun _ => ret tt) s
    end.

(** [/^\d+$/.test(uid)] *)
Definition is_digit (c : ascii) : bool :=
  (48 <=? nat_of_ascii c)%nat && (nat_of_ascii c <=? 57)%nat.

Definition valid_uid (uid : string) : bool :=
  negb (String.eqb uid "") && forallb is_digit (list_ascii_of_string uid).

(** [sendRegistrationMessage] *)
Definition sendRegistrationMessage (uid : string) : M unit :=
  fun s =>
    let lastSent := unregisteredMessageCache s !! uid in
    (recent <- match lastSent with
               | Some t0 =>
                   if t0 =? 0 then ret false
                   else t <- now ;; ret (t - t0 <? MESSAGE_COOLDOWN)
               | None => ret false
               end ;;
     if (recent : bool) then ret tt
     else if negb (valid_uid uid) then ret tt
     else
       sendMessengerMessage uid (RegistrationTemplate uid) ;;;
       t <- now ;;
       fun s' => Ok tt (set_cache (<[uid := t]> (unregisteredMessageCache s')) s')) s.

(** [sendRegistrationMessage] up to its [await]: the test of the cooldown
    and the test of the format.  The result is whether the handler goes on
    to post. *)
Definition prompt_tests (uid : string) : M bool :=
  fun s =>
    let lastSent := unregisteredMessageCache s !! uid in
    (recent <- match lastSent with
               | Some t0 =>
                   if t0 =? 0 then ret false
                   else t <- now ;; ret (t - t0 <? MESSAGE_COOLDOWN)
               | None => ret false
               end ;;
     if (recent : bool) then ret false
     else if negb (valid_uid uid) then ret false
     else ret true) s.

(** [sendRegistrationMessage] from its [await] on: the post resolves, then
    the time is recorded in the cache. *)
Definition prompt_send (uid : string) : M unit :=
  sendMessengerMessage uid (RegistrationTemplate uid) ;;;
  t <- now ;;
  fun s' => Ok tt (set_cache (<[uid := t]> (unregisteredMessageCache s')) s').

End Callbacks.

(** ** The specification's wording, for comparison with the code *)

Section Specification.
Context (env : Env).


(** The same rule with "24 hours or more": section 8, cooldown reset. *)
Definition resetAllows (now : Z) (ledger : gmap string Z) (item : Item.t) : Prop :=
  0 < Item.quantity item ∧
  ∃ t, ledger !! Item.name item = Some t ∧ t + DAY <= now.

(** The outcome "a line is appended and the ledger is marked". *)
Definition notified (watch : list string) (item : Item.t)
           (acc : list string * gmap string Z) (s : State) : Prop :=
  ∃ t' s', check_item env watch item acc s
           = Ok ((acc.1 ++ [line item])%list, <[Item.name item := t']> (acc.2)) s'.

(** The outcome "no line is appended and the ledger is unchanged". *)
Definition untouched (watch : list string) (item : Item.t)
           (acc : list string * gmap string Z) (s : State) : Prop :=
  ∃ s', check_item env watch item acc s = Ok acc s'.


(** Section 4.5, step 1: the snapshot is read once, at the start of the
    run, and every check of the run uses that value [data]. *)
Definition check_category_once (data : Stock.t) (watch : list string)
           (category : Stock.t -> Items)
           (acc : list string * gmap string Z) : M (list string * gmap string Z) :=
  if (0 <? length watch)%nat then
    match category data with
    | ItemsAbsent => ret acc
    | ItemsArray items => forEach items (check_item env watch) acc
    | ItemsOther => throw TypeError
    end
  else ret acc.

Definition check_user_once (data : Stock.t) (user : User.t) : M (list string * gmap string Z) :=
  acc <- check_category_once data (User.seeds user) Stock.seed
           ([], default ∅ (User.lastNotified user)) ;;
  acc <- check_category_once data (User.gear user) Stock.gear acc ;;
  acc <- check_category_once data (User.eggs user) Stock.egg acc ;;
  check_category_once data (User.travelingmerchant user) Stock.travelingmerchant acc.

Definition process_user_once (data : Stock.t) (user : User.t) : M unit :=
  acc <- check_user_once data user ;;
  if (0 <? length acc.1)%nat then
    timestamp <- getManilaTime env ;;
    sendMessengerMessage env (User.uid user) (Text (notifyMsg user timestamp acc.1)) ;;;
    User_updateOne env (User.uid user) acc.2
  else ret tt.

Definition cron_job_once : M unit :=
  fun s =>
    match stockData s with
    | None => Ok tt s
    | Some data =>
        try_catch (users <- User_find env ;; for_of users (process_user_once data))
                  (fun _ => ret tt) s
    end.

(** Section 4.1, "on error or close": the keep-alive timer is stopped, the
    snapshot is unavailable, and one reconnect is scheduled in 3 seconds. *)
Definition feed_recovers (s s' : State) : Prop :=
  (∀ h, keepAliveInterval s = Some h → h ∉ intervals s') ∧
  stockData s' = None ∧
  timeouts s' = (timeouts s ++ [(3000, ConnectWebSocket)])%list.

(** "v / d rounded to 1 decimal": [n] tenths is a nearest one to [v / d]. *)
Definition nearest_tenth (v d n : Z) : Prop :=
  Z.abs (10 * v - n * d) * 2 <= d.
End Specification.

(** The ledger of a document: [user.lastNotified || new Map()]. *)
Definition ledger_of (u : User.t) : gmap string Z := default ∅ (User.lastNotified u).

(** Entries only grow from [m] to [m']. *)
Definition ledger_le (m m' : gmap string Z) : Prop :=
  ∀ k t, m !! k = Some t → ∃ t', m' !! k = Some t' ∧ t <= t'.

(** The documents of [docs'] are those of [docs], in the same order, with
    ledgers whose entries only grew. *)
Definition store_le (docs docs' : list User.t) : Prop :=
  Forall2 (fun u u' => User.uid u = User.uid u' ∧ ledger_le (ledger_of u) (ledger_of u'))
          docs docs'.

(** The lines of [acc] are those of the items [hits]; their names are
    distinct and their ledger entries are readings of the clock taken from
    reading [k0] on and before the current one. *)
Definition lines_of_hits (env : Env) (k0 : nat) (hits : list Item.t)
           (acc : list string * gmap string Z) (s : State) : Prop :=
  acc.1 = line <$> hits ∧
  NoDup (Item.name <$> hits) ∧
  ∀ it, it ∈ hits →
        ∃ k, (k0 <= k < ticks s)%nat ∧ acc.2 !! Item.name it = Some (Date_now env k).

(** The state after [await sendMessengerMessage(uid, msg)]. *)
Definition posted (env : Env) (uid : string) (msg : Message) (s : State) : State :=
  set_outbox (outbox (resume env s) ++ [mkPost uid msg (post_ok env (awaits s))])%list
             (resume env s).

(** The state after the prompt is posted and the cache updated. *)
Definition prompted (env : Env) (uid : string) (s : State) : State :=
  let p := posted env uid (RegistrationTemplate uid) s in
  set_cache (<[uid := Date_now env (ticks p)]> (unregisteredMessageCache p))
            (set_ticks (S (ticks p)) p).

(** What a location says of a remainder [r] of a division by [d]: zero,
    below the half of [d], the half, or above it. *)
Definition loc_sem (l : location) (r d : Z) : Prop :=
  match l with
  | loc_Exact => r = 0
  | loc_Inexact Lt => 0 < 2 * r < d
  | loc_Inexact Eq => 2 * r = d
  | loc_Inexact Gt => d < 2 * r
  end.

(** The state with the outcomes of the posts forgotten. *)
Definition forget_delivery (s : State) : State :=
  set_outbox (map (fun p => mkPost (recipient p) (message p) true) (outbox s)) s.

(** Two states, and two results, that differ at most in the outcomes of the
    posts. *)
Definition post_blind (s1 s2 : State) : Prop :=
  forget_delivery s1 = forget_delivery s2.

Definition res_blind {A} (r1 r2 : Res A) : Prop :=
  match r1, r2 with
  | Ok a s1, Ok b s2 => a = b ∧ post_blind s1 s2
  | Exn e s1, Exn e' s2 => e = e' ∧ post_blind s1 s2
  | _, _ => False
  end.

Definition sim {A} (m1 m2 : M A) : Prop :=
  ∀ s1 s2, post_blind s1 s2 → res_blind (m1 s1) (m2 s2).

(** The environment with other outcomes for the posts. *)
Definition with_post_ok (f : nat -> bool) (env : Env) : Env :=
  mkEnv (Date_now env) (toLocaleString env) (feed_during env) f (store_ok env).

(** ** Concrete data for the examples *)

Module Ex.
Definition carrot : Item.t := Item.mk "Carrot" 50 (Some "🥕").
Definition wrench : Item.t := Item.mk "Wrench" 3 None.
Definition tulip : Item.t := Item.mk "Tulip" 7 None.

Definition snapshot : Stock.t :=
  Stock.mk (ItemsArray [carrot]) (ItemsArray [wrench]) ItemsAbsent ItemsAbsent.

(** 14 November 2023, 22:13:20 UTC, and one millisecond per reading. *)
Definition t0 : Z := 1700000000000.
Definition clock (k : nat) : Z := t0 + Z.of_nat k.

Definition env : Env :=
  mkEnv clock (fun _ => "11/15/2023, 6:13:20 AM") (fun _ => []) (fun _ => true) (fun _ => true).

Definition ann : User.t := User.mk "1001" "Ann" ["Carrot"] [] [] [] None.
Definition bob : User.t := User.mk "1002" "Bob" ["Carrot"] ["Wrench"] [] [] None.

Definition state (docs : list User.t) (data : option Stock.t) : State :=
  mkState 0 0 data None ∅ [] 0 1 docs ∅ [].

(** A snapshot whose gear category carries something that is no array. *)
Definition broken : Stock.t :=
  Stock.mk (ItemsArray [carrot]) ItemsOther ItemsAbsent ItemsAbsent.

(** A later snapshot, and a feed that delivers it while the second [await]
    of the run (the first send) is pending. *)
Definition restock : Stock.t :=
  Stock.mk (ItemsArray [tulip]) ItemsAbsent ItemsAbsent ItemsAbsent.

Definition env_restock : Env :=
  mkEnv clock (fun _ => "11/15/2023, 6:13:20 AM")
        (fun k => if (k =? 1)%nat then [EvMessage (Payload "success" (Some restock))] else [])
        (fun _ => true) (fun _ => true).

Definition dan : User.t := User.mk "1004" "Dan" ["Tulip"] [] [] [] None.

(** A feed whose connection fails while the first send is pending. *)
Definition env_drop : Env :=
  mkEnv clock (fun _ => "11/15/2023, 6:13:20 AM")
        (fun k => if (k =? 1)%nat then [EvError; EvClose] else [])
        (fun _ => true) (fun _ => true).


End Ex.

(** ** The rest of the feed client and of the matching job, for the
    properties further down *)

Definition is_close (ev : FeedEvent) : bool :=
  match ev with EvClose => true | _ => false end.

(** Events of an open connection that neither open nor close it. *)
Definition is_traffic (ev : FeedEvent) : bool :=
  match ev with EvMessage _ | EvError => true | _ => false end.

(** The handles of the live intervals were all handed out already. *)
Definition fresh_handles (s : State) : Prop :=
  ∀ h, h ∈ intervals s → (h < handles s)%nat.

(** The items that [forEach] runs over in a category. *)
Definition category_items (i : Items) : list Item.t :=
  match i with ItemsArray l => l | _ => [] end.

(** The four blocks of the matching job: the watchlist of the user and the
    items of the snapshot that each of them compares. *)
Definition categories (user : User.t) (data : Stock.t) : list (list string * list Item.t) :=
  [ (User.seeds user, category_items (Stock.seed data));
    (User.gear user, category_items (Stock.gear data));
    (User.eggs user, category_items (Stock.egg data));
    (User.travelingmerchant user, category_items (Stock.travelingmerchant data)) ].

(** An item of the snapshot with a positive quantity whose name is on the
    user's watchlist of its category. *)
Definition watched_in_stock (user : User.t) (data : Stock.t) (item : Item.t) : Prop :=
  0 < Item.quantity item ∧
  ∃ c, c ∈ categories user data ∧ Item.name item ∈ c.1 ∧ item ∈ c.2.

(** Two documents with the same identity and preferences. *)
Definition same_prefs (u u' : User.t) : Prop :=
  User.uid u = User.uid u' ∧ User.name u = User.name u' ∧
  User.seeds u = User.seeds u' ∧ User.gear u = User.gear u' ∧
  User.eggs u = User.eggs u' ∧ User.travelingmerchant u = User.travelingmerchant u'.

(** ** The routes [/check-uid] and [/save-preferences] and [handleStockCheck] *)

(** The body and status of a JSON reply with a message. *)
Record Reply := mkReply { status : Z; success : bool; text : string }.

(** The replies of [/check-uid]. *)
Inductive CheckReply :=
| CheckInvalid (text : string)
| CheckEdit (name : string) (seeds gear eggs travelingmerchant : list string)
| CheckNew.

(** [l.join(", ") || "None"] *)
Definition joined (l : list string) : string :=
  let j := String.concat ", " l in
  if String.eqb j "" then "None" else j.

(** The four lines of preferences of the confirmation. *)
Definition prefs_lines (u : User.t) : string :=
  "🌱 Seeds: " +:+ joined (User.seeds u) +:+ nl
  +:+ "🛠️ Gear: " +:+ joined (User.gear u) +:+ nl
  +:+ "🥚 Eggs: " +:+ joined (User.eggs u) +:+ nl
  +:+ "🚚 Traveling Merchant: " +:+ joined (User.travelingmerchant u) +:+ nl +:+ nl.

(** The confirmation sent by [/save-preferences]. *)
Definition registeredMsg (updatedUser : User.t) (mode : string) : string :=
  "✅ Hi " +:+ User.name updatedUser
  +:+ "! You have successfully registered with GAG DROP WATCH (" +:+ mode +:+ ")."
  +:+ nl +:+ nl +:+ prefs_lines updatedUser
  +:+ "You will be notified when these items are in stock.".

(** The document that [findOne({ uid })] finds. *)
Definition findOne (uid : string) (docs : list User.t) : option User.t :=
  List.find (fun u => String.eqb (User.uid u) uid) docs.

(** The collection after
    [findOneAndUpdate({ uid }, { name, seeds, gear, eggs, travelingmerchant },
    { new: true, upsert: true })], and the document returned: the first
    document with this [uid] gets the five fields and keeps its ledger; when
    there is none, a document with the [uid] and the fields is inserted.
    Its ledger is modelled as missing; should Mongoose fill in the default
    of the schema, an empty map, the code reads the same from it, see
    [ledger_of]. *)
Fixpoint findOneAndUpdate (uid name : string) (seeds gear eggs travelingmerchant : list string)
         (docs : list User.t) : list User.t * User.t :=
  match docs with
  | [] =>
      let u := User.mk uid name seeds gear eggs travelingmerchant None in ([u], u)
  | d :: docs' =>
      if String.eqb (User.uid d) uid then
        let u := User.mk (User.uid d) name seeds gear eggs travelingmerchant
                         (User.lastNotified d) in
        (u :: docs', u)
      else
        let r := findOneAndUpdate uid name seeds gear eggs travelingmerchant docs' in
        (d :: r.1, r.2)
  end.

(** The items of a category that the stock check lists:
    [items.filter(i => i.quantity > 0)]. *)
Definition in_stock (items : list Item.t) : list Item.t :=
  List.filter (fun i => 0 <? Item.quantity i) items.

(** The line of a cosmetic or event item, which has no emoji:
    [`${i.name}: ${formatValue(i.quantity)}`]. *)
Definition bare_line (item : Item.t) : string :=
  Item.name item +:+ ": " +:+ formatValue (Item.quantity item).

(** One block of [handleStockCheck]: the section pushed for a category, if
    any; [None] when reading the items throws. *)
Definition stock_section (title : string) (render : Item.t -> string) (i : Items)
           (sections : list string) : option (list string) :=
  match i with
  | ItemsAbsent => Some sections
  | ItemsArray l =>
      let items := in_stock l in
      if (0 <? length items)%nat
      then Some (sections ++ [title +:+ nl +:+ String.concat nl (map render items)])%list
      else Some sections
  | ItemsOther => None
  end.

Section Routes.
Context (env : Env).
(** [String.prototype.trim], a built-in. *)
Context (trim : string -> string).
(** The two categories of a payload that the matching job does not read
    and [Stock.t] does not keep. *)
Context (cosmetics honey : Stock.t -> Items).

(** [await User.findOne({ uid })] *)
Definition User_findOne (uid : string) : M (option User.t) :=
  k <- suspend env ;;
  fun s => if store_ok env k then Ok (findOne uid (users s)) s else Exn StoreError s.

(** [await User.findOneAndUpdate(...)] *)
Definition User_findOneAndUpdate (uid name : string)
           (seeds gear eggs travelingmerchant : list string) : M User.t :=
  k <- suspend env ;;
  fun s =>
    if store_ok env k then
      let r := findOneAndUpdate uid name seeds gear eggs travelingmerchant (users s) in
      Ok r.2 (set_users r.1 s)
    else Exn StoreError s.

(** [app.post("/check-uid")] *)
Definition check_uid (uid : string) : M CheckReply :=
  let trimmedUid := trim uid in
  if negb (valid_uid trimmedUid) then
    ret (CheckInvalid "Invalid UID format. Please enter a numeric UID.")
  else
    user <- User_findOne trimmedUid ;;
    match user with
    | Some u =>
        ret (CheckEdit (User.name u) (User.seeds u) (User.gear u) (User.eggs u)
                       (User.travelingmerchant u))
    | None => ret CheckNew
    end.

(** [app.post("/save-preferences")] *)
Definition save_preferences (uid name : string)
           (seeds gear eggs travelingmerchant : list string) : M Reply :=
  try_catch
    (let trimmedUid := trim uid in
     let trimmedName := trim name in
     if negb (valid_uid trimmedUid) then
       ret (mkReply 400 false "Invalid UID format. Please enter a numeric UID.")
     else if String.eqb trimmedName "" then
       ret (mkReply 400 false "Name is required.")
     else if (length seeds =? 0)%nat && (length gear =? 0)%nat
             && (length eggs =? 0)%nat && (length travelingmerchant =? 0)%nat then
       ret (mkReply 400 false "Please select at least one preference.")
     else
       user <- User_findOne trimmedUid ;;
       let mode := match user with Some _ => "Edit Mode" | None => "New" end in
       updatedUser <- User_findOneAndUpdate trimmedUid trimmedName
                        seeds gear eggs travelingmerchant ;;
       (fun s => Ok tt (set_cache (delete trimmedUid (unregisteredMessageCache s)) s)) ;;;
       sendMessengerMessage env trimmedUid (Text (registeredMsg updatedUser mode)) ;;;
       ret (mkReply 200 true "Preferences saved and confirmation sent on Messenger."))
    (fun _ => ret (mkReply 500 false "Failed to save preferences. Please try again.")).

(** The sections of the stock check, in the order of the source. *)
Definition stock_sections (data : Stock.t) : option (list string) :=
  match stock_section "🌱 Seeds:" line (Stock.seed data) [] with
  | None => None
  | Some s1 =>
  match stock_section "🛠️ Gear:" line (Stock.gear data) s1 with
  | None => None
  | Some s2 =>
  match stock_section "🥚 Eggs:" line (Stock.egg data) s2 with
  | None => None
  | Some s3 =>
  match stock_section "🚚 Traveling Merchant:" line (Stock.travelingmerchant data) s3 with
  | None => None
  | Some s4 =>
  match stock_section "🎨 Cosmetics:" bare_line (cosmetics data) s4 with
  | None => None
  | Some s5 => stock_section "🎉 Event (Honey):" bare_line (honey data) s5
  end end end end end.

(** The text of the stock check. *)
Definition stockMsg (user : User.t) (timestamp : string) (sections : list string) : string :=
  "📦 Stock Check for " +:+ User.name user +:+ " at " +:+ timestamp +:+ ":" +:+ nl +:+ nl
  +:+ (if (0 <? length sections)%nat
       then String.concat (nl +:+ nl) sections +:+ nl +:+ nl
            +:+ "Check GAG DROP WATCH for more details!"
       else "No items currently in stock." +:+ nl +:+ nl
            +:+ "Check GAG DROP WATCH for updates!").

(** [handleStockCheck] *)
Definition handleStockCheck (uid : string) : M unit :=
  user <- User_findOne uid ;;
  match user with
  | None => sendRegistrationMessage env uid
  | Some user =>
      fun s =>
        match stockData s with
        | None =>
            sendMessengerMessage env uid
              (Text "Stock data unavailable. Please try again later.") s
        | Some data =>
            try_catch
              (match stock_sections data with
               | None => throw TypeError
               | Some sections =>
                   timestamp <- getManilaTime env ;;
                   sendMessengerMessage env uid (Text (stockMsg user timestamp sections))
               end)
              (fun _ => sendMessengerMessage env uid
                          (Text "Failed to check stock. Please try again later.")) s
        end
  end.
End Routes.

(** ** The admin commands ([handleAdminCommands]) *)

(** The collection after [findOneAndDelete({ uid })], and the document
    removed: the first one with this [uid], if any. *)
Fixpoint findOneAndDelete (uid : string) (docs : list User.t) : list User.t * option User.t :=
  match docs with
  | [] => ([], None)
  | d :: docs' =>
      if String.eqb (User.uid d) uid then (docs', Some d)
      else let r := findOneAndDelete uid docs' in (d :: r.1, r.2)
  end.

(** [args[i]] used as a condition: there is such a word and it is not
    empty. *)
Definition truthy (w : option string) : bool :=
  match w with
  | Some x => negb (String.eqb x "")
  | None => false
  end.

(** [args.slice(2).join(" ")] *)
Definition words_from_third (args : list string) : string :=
  String.concat " " (drop 2 args).

(** The text of [AdminHelp]. *)
Definition adminHelpMsg : string :=
  "📋 Admin Commands:" +:+ nl +:+ nl
  +:+ "Database -show: Show all user IDs and names (alphabetical)." +:+ nl
  +:+ "Database -delete [id]: Delete a user by their UID." +:+ nl
  +:+ "Message -global [message]: Send a message to all users." +:+ nl
  +:+ "Message [id] [message]: Send a message to a specific user." +:+ nl
  +:+ "AdminHelp: Show this list.".

Section Admin.
Context (env : Env).
(** [config.ADMIN_UID] *)
Context (ADMIN_UID : string).
(** The built-ins [String.prototype.toLowerCase],
    [messageText.trim().split(/\s+/)] and the order of
    [.sort({ name: 1 })] of the store. *)
Context (toLowerCase : string -> string).
Context (words : string -> list string).
Context (sort_by_name : list User.t -> list User.t).

(** [await User.find({}).sort({ name: 1 })] *)
Definition User_find_sorted : M (list User.t) :=
  k <- suspend env ;;
  fun s => if store_ok env k then Ok (sort_by_name (users s)) s else Exn StoreError s.

(** [await User.findOneAndDelete({ uid })] *)
Definition User_findOneAndDelete (uid : string) : M (option User.t) :=
  k <- suspend env ;;
  fun s =>
    if store_ok env k then
      let r := findOneAndDelete uid (users s) in
      Ok r.2 (set_users r.1 s)
    else Exn StoreError s.

(** [Database -show] *)
Definition database_show (uid : string) : M bool :=
  try_catch
    (users <- User_find_sorted ;;
     if (length users =? 0)%nat then
       sendMessengerMessage env uid (Text "No users found in the database.") ;;;
       ret true
     else
       let userList :=
         String.concat nl
           (map (fun user => "UID: " +:+ User.uid user +:+ ", Name: " +:+ User.name user)
                users) in
       sendMessengerMessage env uid
         (Text ("📋 Database Users (Alphabetical by Name):" +:+ nl +:+ nl +:+ userList)) ;;;
       ret true)
    (fun _ =>
       sendMessengerMessage env uid (Text "Failed to retrieve user list.") ;;;
       ret true).

(** [Database -delete [id]] *)
Definition database_delete (uid targetUid : string) : M bool :=
  try_catch
    (user <- User_findOneAndDelete targetUid ;;
     match user with
     | Some user =>
         sendMessengerMessage env uid
           (Text ("✅ User " +:+ User.name user +:+ " (UID: " +:+ targetUid
                  +:+ ") deleted successfully."))
     | None =>
         sendMessengerMessage env uid
           (Text ("User with UID " +:+ targetUid +:+ " not found."))
     end ;;;
     ret true)
    (fun _ =>
       sendMessengerMessage env uid (Text "Failed to delete user.") ;;;
       ret true).

(** [Message -global [message]] *)
Definition message_global (uid message : string) : M bool :=
  try_catch
    (users <- User_find env ;;
     for_of users (fun user =>
       sendMessengerMessage env (User.uid user)
         (Text ("📢 Admin Broadcast: " +:+ message))) ;;;
     sendMessengerMessage env uid
       (Text ("✅ Broadcast sent to " +:+ pretty (length users) +:+ " users.")) ;;;
     ret true)
    (fun _ =>
       sendMessengerMessage env uid (Text "Failed to send broadcast.") ;;;
       ret true).

(** [Message [id] [message]] *)
Definition message_one (uid targetUid message : string) : M bool :=
  try_catch
    (user <- User_findOne env targetUid ;;
     match user with
     | Some user =>
         sendMessengerMessage env targetUid (Text ("📩 Admin Message: " +:+ message)) ;;;
         sendMessengerMessage env uid
           (Text ("✅ Message sent to " +:+ User.name user +:+ " (UID: " +:+ targetUid
                  +:+ ")."))
     | None =>
         sendMessengerMessage env uid
           (Text ("User with UID " +:+ targetUid +:+ " not found."))
     end ;;;
     ret true)
    (fun _ =>
       sendMessengerMessage env uid (Text "Failed to send message.") ;;;
       ret true).

(** [handleAdminCommands]; the result is whether the command was handled. *)
Definition handleAdminCommands (uid messageText : string) : M bool :=
  if negb (String.eqb uid ADMIN_UID) then
    sendMessengerMessage env uid (Text "You are not authorized to use admin commands.") ;;;
    ret false
  else
    let args := words messageText in
    match args with
    | [] => throw TypeError
    | first :: _ =>
        let command := toLowerCase first in
        let subCommand := toLowerCase <$> args !! 1%nat in
        if String.eqb command "database" then
          if bool_decide (subCommand = Some "-show") then database_show uid
          else if bool_decide (subCommand = Some "-delete") && truthy (args !! 2%nat) then
            database_delete uid (default "" (args !! 2%nat))
          else ret false
        else if String.eqb command "message" then
          if bool_decide (subCommand = Some "-global") && (2 <? length args)%nat then
            message_global uid (words_from_third args)
          else if truthy (args !! 1%nat) && (2 <? length args)%nat then
            message_one uid (default "" (args !! 1%nat)) (words_from_third args)
          else ret false
        else if String.eqb command "adminhelp" then
          sendMessengerMessage env uid (Text adminHelpMsg) ;;;
          ret true
        else ret false
    end.
End Admin.

(** The outbox of [s'] is that of [s] with more posts, the last of which
    is a text to [uid]. *)
Definition replied (uid : string) (s s' : State) : Prop :=
  ∃ pre p t, outbox s' = (outbox s ++ pre ++ [p])%list ∧
             recipient p = uid ∧ message p = Text t.

(** ** Concrete data for the examples of the routes *)

Module ExRoutes.
(** White space of the ASCII range, which [trim] strips. *)
Definition is_space (c : ascii) : bool :=
  let n := nat_of_ascii c in
  (n =? 32)%nat || ((9 <=? n)%nat && (n <=? 13)%nat).

Fixpoint trimStart (s : string) : string :=
  match s with
  | String c s' => if is_space c then trimStart s' else s
  | EmptyString => EmptyString
  end.

Definition reverse (s : string) : string :=
  string_of_list_ascii (rev (list_ascii_of_string s)).

(** [trim] on strings of the ASCII range. *)
Definition trim (s : string) : string :=
  reverse (trimStart (reverse (trimStart s))).

(** Letters of the ASCII range in lower case. *)
Definition lower (c : ascii) : ascii :=
  let n := nat_of_ascii c in
  if (65 <=? n)%nat && (n <=? 90)%nat then ascii_of_nat (n + 32) else c.

Definition toLowerCase (s : string) : string :=
  string_of_list_ascii (map lower (list_ascii_of_string s)).

(** The words of a trimmed text; [cur] is the word being read, reversed. *)
Fixpoint tokens (cur : list ascii) (l : list ascii) : list string :=
  match l with
  | [] => [string_of_list_ascii (rev cur)]
  | c :: l' =>
      if is_space c then
        match cur with
        | [] => tokens [] l'
        | _ => string_of_list_ascii (rev cur) :: tokens [] l'
        end
      else tokens (c :: cur) l'
  end.

(** [trim().split(/\s+/)] on strings of the ASCII range. *)
Definition words (s : string) : list string :=
  tokens [] (list_ascii_of_string (trim s)).

Fixpoint insert_by_name (u : User.t) (l : list User.t) : list User.t :=
  match l with
  | [] => [u]
  | v :: l' =>
      if String.leb (User.name u) (User.name v) then u :: l
      else v :: insert_by_name u l'
  end.

Definition sort_by_name (l : list User.t) : list User.t :=
  foldr insert_by_name [] l.

Definition cosmetics (_ : Stock.t) : Items :=
  ItemsArray [Item.mk "Crate" 2 None; Item.mk "Bench" 0 None].

Definition honey (_ : Stock.t) : Items := ItemsAbsent.

(** A store whose second call fails. *)
Definition env_store_down : Env :=
  mkEnv Ex.clock (fun _ => "11/15/2023, 6:13:20 AM") (fun _ => []) (fun _ => true)
        (fun k => (k =? 0)%nat).
End ExRoutes.

(** * Properties *)

(** ** The feed client *)

Lemma on_error_state (s : State) :
  stockData (on_error s) = None ∧
  keepAliveInterval (on_error s) = keepAliveInterval s ∧
  intervals (on_error s) = intervals s ∧
  timeouts (on_error s) = timeouts s ∧
  sockets (on_error s) = sockets s.
Proof. unfold on_error. simpl. repeat split. Qed.

Lemma on_close_recovers (s : State) : feed_recovers s (on_close s).
Proof.
  unfold feed_recovers, on_close, setTimeout, clearInterval.
  destruct (keepAliveInterval s) as [h|] eqn:Hk; simpl.
  - repeat split. intros h' Hh. inversion Hh; subst.
    rewrite elem_of_difference, elem_of_singleton. tauto.
  - repeat split. intros h' [=].
Qed.

(** C5, as stated, fails on an error event: after a connection was opened,
    the error handler leaves the keep-alive timer running and schedules no
    reconnect. *)
Lemma error_event_does_not_recover :
  let s := on_open (Ex.state [] (Some Ex.snapshot)) in
  keepAliveInterval s = Some 0%nat ∧
  0%nat ∈ intervals (feed_handler EvError s) ∧
  timeouts (feed_handler EvError s) = [] ∧
  ¬ feed_recovers s (feed_handler EvError s).
Proof.
  simpl. split; [reflexivity|]. split; [set_solver|]. split; [reflexivity|].
  intros (_ & _ & Ht). discriminate Ht.
Qed.

(** C5, amended: every close event stops the keep-alive timer, makes the
    snapshot unavailable and schedules exactly one reconnect 3000 ms later;
    every error event makes the snapshot unavailable and changes neither the
    timers nor the pending reconnects, so that an error event followed by
    the close event of its socket has stopped the timer and scheduled
    exactly one reconnect. *)
Theorem close_recovers_error_clears (s : State) :
  feed_recovers s (feed_handler EvClose s) ∧
  length (timeouts (feed_handler EvClose s)) = S (length (timeouts s)) ∧
  stockData (feed_handler EvError s) = None ∧
  intervals (feed_handler EvError s) = intervals s ∧
  timeouts (feed_handler EvError s) = timeouts s ∧
  feed_recovers s (feed_handlers [EvError; EvClose] s).
Proof.
  pose proof (on_close_recovers s) as Hc.
  pose proof (on_error_state s) as (He1 & He2 & He3 & He4 & _).
  split; [exact Hc|]. split.
  - destruct Hc as (_ & _ & Ht).
    change (feed_handler EvClose s) with (on_close s).
    rewrite Ht, length_app. simpl. lia.
  - simpl feed_handler. split; [exact He1|]. split; [exact He3|]. split; [exact He4|].
    change (feed_handlers [EvError; EvClose] s) with (on_close (on_error s)).
    destruct (on_close_recovers (on_error s)) as (Hk & Hd & Ht).
    rewrite He2 in Hk. rewrite He4 in Ht. split; [exact Hk|]. split; [exact Hd|exact Ht].
Qed.

(** ** The check of one item *)

Section CheckItem.
Context (env : Env).

(** The four ways through the callback of [forEach]. *)
Lemma check_item_eq watch item (acc : list string * gmap string Z) s :
  check_item env watch item acc s =
  if bool_decide (Item.name item ∈ watch) && (0 <? Item.quantity item) then
    if DAY <? Date_now env (ticks s) - default 0 (acc.2 !! Item.name item) then
      if map_key_ok (Item.name item) then
        Ok ((acc.1 ++ [line item])%list,
            <[Item.name item := Date_now env (S (ticks s))]> (acc.2))
           (set_ticks (S (S (ticks s))) s)
      else Exn MapKeyError (set_ticks (S (S (ticks s))) s)
    else Ok acc (set_ticks (S (ticks s)) s)
  else Ok acc s.
Proof.
  unfold check_item.
  destruct (bool_decide (Item.name item ∈ watch) && (0 <? Item.quantity item)); [|reflexivity].
  unfold bind, now. simpl.
  destruct (DAY <? Date_now env (ticks s) - default 0 (acc.2 !! Item.name item)); [|reflexivity].
  destruct (map_key_ok (Item.name item)); reflexivity.
Qed.

Lemma app_one_neq {A} (l : list A) (x : A) : (l ++ [x])%list ≠ l.
Proof.
  intros H. apply (f_equal length) in H. rewrite length_app in H. simpl in H. lia.
Qed.

Lemma notified_not_untouched watch item acc s :
  notified env watch item acc s → ¬ untouched env watch item acc s.
Proof.
  intros (t' & s1 & H1) (s2 & H2). rewrite H1 in H2.
  injection H2 as H2 _. destruct acc as [l m]. simpl in H2.
  injection H2 as H2 _. exact (app_one_neq _ _ H2).
Qed.

(** The decision in terms of the stored entry, a missing one read as 0. *)
Lemma check_item_go watch item (acc : list string * gmap string Z) s :
  Item.name item ∈ watch → 0 < Item.quantity item →
  DAY < Date_now env (ticks s) - default 0 (acc.2 !! Item.name item) →
  map_key_ok (Item.name item) = true →
  check_item env watch item acc s =
  Ok ((acc.1 ++ [line item])%list,
      <[Item.name item := Date_now env (S (ticks s))]> (acc.2))
     (set_ticks (S (S (ticks s))) s).
Proof.
  intros Hw Hq Ht Hk. rewrite check_item_eq.
  rewrite bool_decide_eq_true_2 by exact Hw.
  replace (0 <? Item.quantity item) with true by (symmetry; apply Z.ltb_lt; exact Hq).
  simpl.
  replace (DAY <? _) with true by (symmetry; apply Z.ltb_lt; exact Ht).
  rewrite Hk. reflexivity.
Qed.

(** The same decision for a name that the Map refuses. *)
Lemma check_item_refused watch item (acc : list string * gmap string Z) s :
  Item.name item ∈ watch → 0 < Item.quantity item →
  DAY < Date_now env (ticks s) - default 0 (acc.2 !! Item.name item) →
  map_key_ok (Item.name item) = false →
  check_item env watch item acc s = Exn MapKeyError (set_ticks (S (S (ticks s))) s).
Proof.
  intros Hw Hq Ht Hk. rewrite check_item_eq.
  rewrite bool_decide_eq_true_2 by exact Hw.
  replace (0 <? Item.quantity item) with true by (symmetry; apply Z.ltb_lt; exact Hq).
  simpl.
  replace (DAY <? _) with true by (symmetry; apply Z.ltb_lt; exact Ht).
  rewrite Hk. reflexivity.
Qed.

Lemma check_item_stay watch item (acc : list string * gmap string Z) s :
  ¬ (Item.name item ∈ watch ∧ 0 < Item.quantity item ∧
     DAY < Date_now env (ticks s) - default 0 (acc.2 !! Item.name item)) →
  untouched env watch item acc s.
Proof.
  intros Hn. unfold untouched. rewrite check_item_eq.
  destruct (bool_decide (Item.name item ∈ watch)) eqn:Hw; simpl; [|eauto].
  destruct (0 <? Item.quantity item) eqn:Hq; [|eauto].
  destruct (DAY <? _) eqn:Ht; [|eauto].
  exfalso. apply Hn. apply bool_decide_eq_true in Hw.
  apply Z.ltb_lt in Hq. apply Z.ltb_lt in Ht. auto.
Qed.

End CheckItem.




(** C4, as stated, fails at exactly 24 hours: the comparison of the source
    is strict, so a check made exactly [DAY] after the entry does not
    notify. *)
Lemma no_reset_at_exactly_24_hours :
  let s := Ex.state [Ex.ann] (Some Ex.snapshot) in
  let ledger : gmap string Z := {[ "Carrot" := Ex.t0 - DAY ]} in
  "Carrot" ∈ User.seeds Ex.ann ∧
  resetAllows (Date_now Ex.env (ticks s)) ledger Ex.carrot ∧
  ¬ notified Ex.env (User.seeds Ex.ann) Ex.carrot ([], ledger) s.
Proof.
  intros s ledger. split; [apply list_elem_of_singleton; reflexivity|]. split.
  - split; [reflexivity|]. exists (Ex.t0 - DAY). split.
    + apply lookup_singleton_eq.
    + unfold Ex.env, Ex.clock, s. simpl. lia.
  - intros Hn. apply (notified_not_untouched _ _ _ _ _ Hn).
    apply check_item_stay. intros (_ & _ & Ht).
    unfold ledger in Ht. simpl in Ht.
    rewrite (lookup_singleton_eq (M:=gmap string)) in Ht. simpl in Ht.
    unfold Ex.clock, s in Ht. simpl in Ht. lia.
Qed.

(** C4, amended: for an item in stock and on the watchlist whose entry is
    [T], a check at a time [T''] notifies exactly when [T'' > T + 24h]
    (strictly); it then appends one line and marks the ledger with the next
    reading of the clock, and every further check of that item made no more
    than 24 hours after that reading appends nothing.  A name with an entry
    is a key that the Map of the ledger took; were it one that the Map
    refuses, the check at [T'' > T + 24h] would throw instead. *)
Theorem cooldown_reset (env : Env) watch item
        (acc : list string * gmap string Z) (s : State) (T : Z) :
  Item.name item ∈ watch →
  0 < Item.quantity item →
  acc.2 !! Item.name item = Some T →
  (T + DAY < Date_now env (ticks s) →
     (map_key_ok (Item.name item) = true →
      ∃ acc' s',
        check_item env watch item acc s = Ok acc' s' ∧
        acc'.1 = (acc.1 ++ [line item])%list ∧
        acc'.2 !! Item.name item = Some (Date_now env (S (ticks s))) ∧
        ∀ s'', Date_now env (ticks s'') <= Date_now env (S (ticks s)) + DAY →
               untouched env watch item acc' s'') ∧
     (map_key_ok (Item.name item) = false →
      check_item env watch item acc s = Exn MapKeyError (set_ticks (S (S (ticks s))) s)))
  ∧ (Date_now env (ticks s) <= T + DAY → untouched env watch item acc s).
Proof.
  intros Hw Hq HT. split.
  - intros Hlt. split.
    + intros Hk. eexists _, _. split.
      * apply check_item_go; [exact Hw|exact Hq| |exact Hk]. rewrite HT. simpl. lia.
      * simpl. split; [reflexivity|]. split; [apply lookup_insert_eq|].
        intros s'' Hle. apply check_item_stay. intros (_ & _ & Ht).
        simpl in Ht. rewrite lookup_insert_eq in Ht. simpl in Ht. lia.
    + intros Hk. apply check_item_refused; [exact Hw|exact Hq| |exact Hk].
      rewrite HT. simpl. lia.
  - intros Hle. apply check_item_stay. intros (_ & _ & Ht).
    rewrite HT in Ht. simpl in Ht. lia.
Qed.

Lemma cooldown_reset_witness :
  let s := Ex.state [Ex.ann] (Some Ex.snapshot) in
  let ledger : gmap string Z := {[ "Carrot" := Ex.t0 - DAY - 1 ]} in
  (Ex.t0 - DAY - 1) + DAY < Date_now Ex.env (ticks s) ∧
  ∃ acc' s',
    check_item Ex.env ["Carrot"] Ex.carrot ([], ledger) s = Ok acc' s' ∧
    acc'.1 = [line Ex.carrot] ∧
    acc'.2 !! "Carrot" = Some (Date_now Ex.env 1) ∧
    ∀ s'', Date_now Ex.env (ticks s'') <= Date_now Ex.env 1 + DAY →
           untouched Ex.env ["Carrot"] Ex.carrot acc' s''.
Proof.
  intros s ledger.
  assert (Hlt : (Ex.t0 - DAY - 1) + DAY < Date_now Ex.env (ticks s)).
  { unfold Ex.env, Ex.clock, s. simpl. lia. }
  split; [exact Hlt|].
  destruct (cooldown_reset Ex.env ["Carrot"] Ex.carrot ([], ledger) s (Ex.t0 - DAY - 1))
    as [Hgo _].
  - apply list_elem_of_singleton. reflexivity.
  - reflexivity.
  - apply lookup_singleton_eq.
  - destruct (Hgo Hlt) as [Hok _]. apply Hok. reflexivity.
Defined.

(** ** The pass over the four categories of one user *)

Section MatchingPass.
Context (env : Env).

Lemma set_ticks_id (s : State) : set_ticks (ticks s) s = s.
Proof. destruct s. reflexivity. Qed.

Lemma set_ticks_twice (n m : nat) (s : State) :
  set_ticks n (set_ticks m s) = set_ticks n s.
Proof. reflexivity. Qed.

(** A check reads the clock and changes nothing else, whatever its
    outcome. *)
Lemma check_item_frame watch item (acc : list string * gmap string Z) s :
  ∃ n, state_of (check_item env watch item acc s) = set_ticks n s ∧
       (ticks s <= n)%nat.
Proof.
  rewrite check_item_eq.
  destruct (_ && _); [destruct (DAY <? _); [destruct (map_key_ok _)|]|].
  - eexists. split; [reflexivity|lia].
  - eexists. split; [reflexivity|lia].
  - eexists. split; [reflexivity|lia].
  - exists (ticks s). rewrite set_ticks_id. split; [reflexivity|lia].
Qed.

Lemma check_item_frame_ok watch item (acc : list string * gmap string Z) s acc1 s1 :
  check_item env watch item acc s = Ok acc1 s1 →
  ∃ n, s1 = set_ticks n s ∧ (ticks s <= n)%nat.
Proof.
  intros H. destruct (check_item_frame watch item acc s) as (n & Hn & Hle).
  rewrite H in Hn. exists n. split; [exact Hn|exact Hle].
Qed.

Lemma forEach_check_frame watch items (acc : list string * gmap string Z) s :
  ∃ n, state_of (forEach items (check_item env watch) acc s) = set_ticks n s ∧
       (ticks s <= n)%nat.
Proof.
  revert acc s. induction items as [|item items IH]; intros acc s.
  - exists (ticks s). rewrite set_ticks_id. split; [reflexivity|lia].
  - simpl. unfold bind.
    destruct (check_item_frame watch item acc s) as (n & Hn & Hle).
    destruct (check_item env watch item acc s) as [acc1 s1|e s1]; simpl in Hn; subst s1.
    + destruct (IH acc1 (set_ticks n s)) as (m & Hm & Hlm).
      exists m. rewrite Hm. split; [reflexivity|]. simpl in Hlm. lia.
    + exists n. split; [reflexivity|exact Hle].
Qed.

(** An invariant of the checks holds after a [forEach] that returns. *)
Lemma forEach_check_inv (P : list string * gmap string Z → State → Prop) watch :
  (∀ item acc s acc1 s1,
      P acc s → check_item env watch item acc s = Ok acc1 s1 → P acc1 s1) →
  ∀ items acc s acc' s', P acc s →
    forEach items (check_item env watch) acc s = Ok acc' s' → P acc' s'.
Proof.
  intros Hstep items. induction items as [|item items IH]; intros acc s acc' s' HP.
  - intros [= <- <-]. exact HP.
  - simpl. unfold bind.
    destruct (check_item env watch item acc s) as [acc1 s1|e s1] eqn:Heq; [|discriminate].
    apply IH. eapply Hstep; [exact HP|exact Heq].
Qed.

Lemma check_category_inv (P : list string * gmap string Z → State → Prop)
      watch category acc s acc' s' :
  (∀ item acc s acc1 s1,
      P acc s → check_item env watch item acc s = Ok acc1 s1 → P acc1 s1) →
  P acc s →
  check_category env watch category acc s = Ok acc' s' →
  P acc' s'.
Proof.
  intros Hstep HP. unfold check_category.
  destruct (0 <? length watch)%nat.
  - destruct (stockData s) as [data|]; [|discriminate].
    destruct (category data) as [|items|]; [|..|discriminate].
    + intros [= <- <-]. exact HP.
    + apply (forEach_check_inv P watch Hstep items acc s acc' s' HP).
  - intros [= <- <-]. exact HP.
Qed.

Lemma check_user_inv (P : list string * gmap string Z → State → Prop) user s acc' s' :
  (∀ watch item acc s acc1 s1,
      P acc s → check_item env watch item acc s = Ok acc1 s1 → P acc1 s1) →
  P ([], ledger_of user) s →
  check_user env user s = Ok acc' s' →
  P acc' s'.
Proof.
  intros Hstep HP. unfold check_user, bind.
  destruct (check_category env (User.seeds user) _ _ s) as [a1 s1|] eqn:H1; [|discriminate].
  destruct (check_category env (User.gear user) _ _ s1) as [a2 s2|] eqn:H2; [|discriminate].
  destruct (check_category env (User.eggs user) _ _ s2) as [a3 s3|] eqn:H3; [|discriminate].
  intros H4.
  eapply check_category_inv in H1; [|apply Hstep|exact HP].
  eapply check_category_inv in H2; [|apply Hstep|exact H1].
  eapply check_category_inv in H3; [|apply Hstep|exact H2].
  eapply check_category_inv in H4; [|apply Hstep|exact H3].
  exact H4.
Qed.

(** Whatever its outcome, a block of checks only reads the clock. *)
Lemma check_category_frame watch category acc s :
  ∃ n, state_of (check_category env watch category acc s) = set_ticks n s ∧
       (ticks s <= n)%nat.
Proof.
  assert (Hid : ∃ n, s = set_ticks n s ∧ (ticks s <= n)%nat).
  { exists (ticks s). rewrite set_ticks_id. split; [reflexivity|lia]. }
  unfold check_category.
  destruct (0 <? length watch)%nat; [|exact Hid].
  destruct (stockData s) as [data|]; [|exact Hid].
  destruct (category data) as [|items|]; [exact Hid| |exact Hid].
  apply forEach_check_frame.
Qed.

Lemma check_user_frame user s :
  ∃ n, state_of (check_user env user s) = set_ticks n s ∧ (ticks s <= n)%nat.
Proof.
  unfold check_user, bind.
  destruct (check_category_frame (User.seeds user) Stock.seed
              ([], default ∅ (User.lastNotified user)) s) as (n1 & E1 & L1).
  destruct (check_category env (User.seeds user) _ _ s) as [a1 s1|e1 s1];
    simpl in E1; subst s1; [|exists n1; split; [reflexivity|exact L1]].
  destruct (check_category_frame (User.gear user) Stock.gear a1 (set_ticks n1 s))
    as (n2 & E2 & L2).
  destruct (check_category env (User.gear user) _ _ _) as [a2 s2|e2 s2];
    simpl in E2, L2; subst s2; [|exists n2; split; [reflexivity|lia]].
  destruct (check_category_frame (User.eggs user) Stock.egg a2 (set_ticks n2 s))
    as (n3 & E3 & L3).
  destruct (check_category env (User.eggs user) _ _ _) as [a3 s3|e3 s3];
    simpl in E3, L3; subst s3; [|exists n3; split; [reflexivity|lia]].
  destruct (check_category_frame (User.travelingmerchant user) Stock.travelingmerchant
              a3 (set_ticks n3 s)) as (n4 & E4 & L4).
  simpl in L4. exists n4. split; [exact E4|lia].
Qed.
End MatchingPass.

(** ** One line per item name *)

Section OneLinePerName.
Context (env : Env).

(** A name with an entry no older than 24 hours is not notified, whatever
    the category, the watchlist and the rest of the item. *)
Lemma check_item_suppressed watch item (acc : list string * gmap string Z) s T :
  acc.2 !! Item.name item = Some T →
  Date_now env (ticks s) <= T + DAY →
  untouched env watch item acc s.
Proof.
  intros HT Hle. apply check_item_stay. intros (_ & _ & Ht).
  rewrite HT in Ht. simpl in Ht. lia.
Qed.

(** One check keeps the names of the lines distinct, as long as the
    readings taken since [k0] are within 24 hours of one another. *)
Lemma check_item_hits k0 kmax watch item acc s acc1 s1 hits :
  (∀ i j, (k0 <= i)%nat → (i <= j)%nat → (j < kmax)%nat →
          Date_now env j - Date_now env i <= DAY) →
  (k0 <= ticks s)%nat → (ticks s1 <= kmax)%nat →
  lines_of_hits env k0 hits acc s →
  check_item env watch item acc s = Ok acc1 s1 →
  (ticks s <= ticks s1)%nat ∧ ∃ hits1, lines_of_hits env k0 hits1 acc1 s1.
Proof.
  intros Hclock Hk0 Hmax (Hlines & Hnd & Hent). rewrite check_item_eq.
  destruct (_ && _).
  - destruct (DAY <? _) eqn:Ht.
    + destruct (map_key_ok (Item.name item)); [|discriminate].
      intros [= <- <-]. simpl in *. split; [lia|].
      apply Z.ltb_lt in Ht.
      assert (Hfresh : ∀ it, it ∈ hits → Item.name it ≠ Item.name item).
      { intros it Hit Heq. destruct (Hent it Hit) as (k & Hk & Hlook).
        rewrite <- Heq, Hlook in Ht. simpl in Ht.
        specialize (Hclock k (ticks s)). lia. }
      exists (hits ++ [item])%list. split; [|split].
      * simpl. rewrite Hlines, fmap_app. reflexivity.
      * rewrite fmap_app. apply NoDup_app. split; [exact Hnd|]. split.
        -- intros x Hx Hx'. apply list_elem_of_fmap in Hx as (it & -> & Hit).
           simpl in Hx'. apply list_elem_of_singleton in Hx'.
           exact (Hfresh it Hit Hx').
        -- simpl. apply NoDup_singleton.
      * intros it Hit. simpl. apply elem_of_app in Hit as [Hit|Hit].
        -- destruct (Hent it Hit) as (k & Hk & Hlook). exists k. split; [lia|].
           rewrite lookup_insert_ne; [exact Hlook|].
           intros Heq. exact (Hfresh it Hit (eq_sym Heq)).
        -- apply list_elem_of_singleton in Hit. subst it.
           exists (S (ticks s)). split; [lia|]. apply lookup_insert_eq.
    + intros [= <- <-]. simpl. split; [lia|]. exists hits. split; [exact Hlines|].
      split; [exact Hnd|]. intros it Hit.
      destruct (Hent it Hit) as (k & Hk & Hlook). exists k.
      split; [simpl; lia|exact Hlook].
  - intros [= <- <-]. split; [lia|]. exists hits. split; [exact Hlines|].
    split; [exact Hnd|exact Hent].
Qed.

Lemma check_user_hits user s acc' s' :
  (∀ i j, (ticks s <= i)%nat → (i <= j)%nat → (j < ticks s')%nat →
          Date_now env j - Date_now env i <= DAY) →
  check_user env user s = Ok acc' s' →
  ∃ hits, lines_of_hits env (ticks s) hits acc' s'.
Proof.
  intros Hclock Hrun.
  pose (P := fun (acc : list string * gmap string Z) (t : State) =>
               (ticks t <= ticks s')%nat →
               (ticks s <= ticks t)%nat ∧ ∃ hits, lines_of_hits env (ticks s) hits acc t).
  assert (HP : P acc' s').
  { apply (check_user_inv env P user s acc' s'); [| |exact Hrun].
    - intros watch item acc t acc1 t1 Hacc Hstep Hle.
      destruct (check_item_frame_ok env watch item acc t acc1 t1 Hstep) as (n & -> & Hn).
      simpl in Hle.
      destruct Hacc as (Hlo & hits & Hhits); [lia|].
      destruct (check_item_hits (ticks s) (ticks s') watch item acc t acc1 (set_ticks n t) hits)
        as (Hle' & hits1 & H1); try assumption.
      split; [lia|]. exists hits1. exact H1.
    - intros _. split; [lia|]. exists []. split; [reflexivity|]. split.
      + apply NoDup_nil_2.
      + intros it Hit. apply elem_of_nil in Hit. destruct Hit. }
  destruct HP as (_ & hits & Hhits); [lia|]. exists hits. exact Hhits.
Qed.
End OneLinePerName.

(** C10: the ledger is keyed by the item name alone and is marked when the
    line is buffered.  In one pass over a user's four categories, in which
    the readings of the clock are within 24 hours of one another, the lines
    buffered for the user are those of items with pairwise distinct names,
    each with an entry in the ledger; and an entry for a name keeps every
    item of that name, in any category and on any watchlist, from being
    notified until more than 24 hours after the entry. *)
Theorem one_line_per_item_name (env : Env) user s lines ledger s' :
  check_user env user s = Ok (lines, ledger) s' →
  (∀ i j, (ticks s <= i)%nat → (i <= j)%nat → (j < ticks s')%nat →
          Date_now env j - Date_now env i <= DAY) →
  (∃ hits, lines = line <$> hits ∧ NoDup (Item.name <$> hits) ∧
           ∀ it, it ∈ hits → is_Some (ledger !! Item.name it))
  ∧ (∀ watch item T s'',
        ledger !! Item.name item = Some T →
        Date_now env (ticks s'') <= T + DAY →
        untouched env watch item (lines, ledger) s'').
Proof.
  intros Hrun Hclock. split.
  - destruct (check_user_hits env user s (lines, ledger) s' Hclock Hrun)
      as (hits & Hlines & Hnd & Hent).
    exists hits. split; [exact Hlines|]. split; [exact Hnd|].
    intros it Hit. destruct (Hent it Hit) as (k & _ & Hk). eexists. exact Hk.
  - intros watch item T s'' HT Hle.
    exact (check_item_suppressed env watch item (lines, ledger) s'' T HT Hle).
Qed.

Lemma one_line_per_item_name_witness :
  let user := User.mk "1003" "Cy" ["Carrot"] ["Carrot"] [] [] None in
  let data := Stock.mk (ItemsArray [Ex.carrot]) (ItemsArray [Ex.carrot]) ItemsAbsent ItemsAbsent in
  let s := Ex.state [user] (Some data) in
  check_user Ex.env user s
  = Ok ([line Ex.carrot], {[ "Carrot" := Ex.clock 1 ]}) (set_ticks 3 s) ∧
  ∃ hits, [line Ex.carrot] = line <$> hits ∧ NoDup (Item.name <$> hits) ∧
          ∀ it, it ∈ hits →
                is_Some (({[ "Carrot" := Ex.clock 1 ]} : gmap string Z) !! Item.name it).
Proof.
  intros user data s.
  assert (Hrun : check_user Ex.env user s
                 = Ok ([line Ex.carrot], {[ "Carrot" := Ex.clock 1 ]}) (set_ticks 3 s)).
  { vm_compute. reflexivity. }
  split; [exact Hrun|].
  apply (one_line_per_item_name Ex.env user s _ _ _ Hrun).
  intros i j _ Hij Hj. unfold Ex.env, Ex.clock, DAY. simpl in Hj |- *. lia.
Defined.

(** ** Awaits, sends and writes *)

Section Run.
Context (env : Env).

(** The feed handlers touch the variables of the feed client only. *)
Lemma feed_handler_frame ev s :
  ticks (feed_handler ev s) = ticks s ∧
  awaits (feed_handler ev s) = awaits s ∧
  users (feed_handler ev s) = users s ∧
  unregisteredMessageCache (feed_handler ev s) = unregisteredMessageCache s ∧
  outbox (feed_handler ev s) = outbox s.
Proof.
  destruct ev as [|f| | |]; simpl.
  - repeat split.
  - destruct f as [|status [d|]]; simpl; [repeat split|..];
      destruct (negb _); repeat split.
  - repeat split.
  - unfold on_close, clearInterval. destruct (keepAliveInterval s); repeat split.
  - unfold on_timeout. destruct (timeouts s) as [|[delay []] rest]; repeat split.
Qed.

Lemma feed_handlers_frame evs s :
  ticks (feed_handlers evs s) = ticks s ∧
  awaits (feed_handlers evs s) = awaits s ∧
  users (feed_handlers evs s) = users s ∧
  unregisteredMessageCache (feed_handlers evs s) = unregisteredMessageCache s ∧
  outbox (feed_handlers evs s) = outbox s.
Proof.
  revert s. induction evs as [|ev evs IH]; intros s; [repeat split|].
  simpl. change (fold_left _ evs ?t) with (feed_handlers evs t).
  destruct (IH (feed_handler ev s)) as (-> & -> & -> & -> & ->).
  apply feed_handler_frame.
Qed.

Lemma resume_frame s :
  ticks (resume env s) = ticks s ∧
  awaits (resume env s) = S (awaits s) ∧
  users (resume env s) = users s ∧
  unregisteredMessageCache (resume env s) = unregisteredMessageCache s ∧
  outbox (resume env s) = outbox s.
Proof.
  unfold resume.
  destruct (feed_handlers_frame (feed_during env (awaits s)) (set_awaits (S (awaits s)) s))
    as (-> & -> & -> & -> & ->).
  repeat split.
Qed.

(** The dispatcher returns normally whether the post resolves or not. *)
Lemma sendMessengerMessage_eq uid msg s :
  sendMessengerMessage env uid msg s = Ok tt (posted env uid msg s).
Proof.
  unfold sendMessengerMessage, try_catch, axios_post, bind, suspend, posted.
  destruct (post_ok env (awaits s)); reflexivity.
Qed.

Lemma posted_frame uid msg s :
  ticks (posted env uid msg s) = ticks s ∧
  awaits (posted env uid msg s) = S (awaits s) ∧
  users (posted env uid msg s) = users s ∧
  unregisteredMessageCache (posted env uid msg s) = unregisteredMessageCache s ∧
  outbox (posted env uid msg s)
  = (outbox s ++ [mkPost uid msg (post_ok env (awaits s))])%list ∧
  stockData (posted env uid msg s) = stockData (resume env s).
Proof.
  unfold posted. simpl.
  destruct (resume_frame s) as (-> & -> & -> & -> & ->). repeat split.
Qed.

Lemma User_find_eq s :
  User_find env s =
  if store_ok env (awaits s) then Ok (users s) (resume env s)
  else Exn StoreError (resume env s).
Proof.
  unfold User_find, bind, suspend.
  destruct (resume_frame s) as (_ & _ & -> & _). reflexivity.
Qed.

Lemma User_updateOne_eq uid ledger s :
  User_updateOne env uid ledger s =
  if store_ok env (awaits s)
  then Ok tt (set_users (updateOne uid ledger (users s)) (resume env s))
  else Exn StoreError (resume env s).
Proof.
  unfold User_updateOne, bind, suspend.
  destruct (resume_frame s) as (_ & _ & -> & _). reflexivity.
Qed.

Lemma users_resume s : users (resume env s) = users s.
Proof. apply resume_frame. Qed.

Lemma users_posted uid msg s : users (posted env uid msg s) = users s.
Proof. apply posted_frame. Qed.

Lemma outbox_resume s : outbox (resume env s) = outbox s.
Proof. apply resume_frame. Qed.

Lemma outbox_posted uid msg s :
  outbox (posted env uid msg s)
  = (outbox s ++ [mkPost uid msg (post_ok env (awaits s))])%list.
Proof. apply posted_frame. Qed.

(** The loop body, by the outcome of the checks. *)
Lemma process_user_eq user s :
  process_user env user s =
  match check_user env user s with
  | Exn e s1 => Exn e s1
  | Ok acc s1 =>
      if (0 <? length acc.1)%nat then
        User_updateOne env (User.uid user) acc.2
          (posted env (User.uid user)
             (Text (notifyMsg user (toLocaleString env (Date_now env (ticks s1))) acc.1))
             (set_ticks (S (ticks s1)) s1))
      else Ok tt s1
  end.
Proof.
  unfold process_user, bind at 1.
  destruct (check_user env user s) as [acc s1|e s1]; [|reflexivity].
  destruct (0 <? length acc.1)%nat; [|reflexivity].
  unfold getManilaTime, bind, now, ret. rewrite sendMessengerMessage_eq. reflexivity.
Qed.


(** The checks throw nothing but a [TypeError], on a malformed snapshot, and
    the [Error] of a refused key. *)
Lemma forEach_check_exn watch items (acc : list string * gmap string Z) s e s' :
  forEach items (check_item env watch) acc s = Exn e s' → e = MapKeyError.
Proof.
  revert acc s. induction items as [|item items IH]; intros acc s; [discriminate|].
  simpl. unfold bind.
  destruct (check_item env watch item acc s) as [acc1 s1|e1 s1] eqn:Heq; [apply IH|].
  intros [= <- _]. rewrite check_item_eq in Heq.
  destruct (_ && _); [|discriminate].
  destruct (DAY <? _); [|discriminate].
  destruct (map_key_ok _); [discriminate|]. injection Heq as <- _. reflexivity.
Qed.

Lemma check_category_exn watch category acc s e s' :
  check_category env watch category acc s = Exn e s' → e = TypeError ∨ e = MapKeyError.
Proof.
  unfold check_category. destruct (0 <? length watch)%nat; [|discriminate].
  destruct (stockData s) as [data|]; [|intros [= <- _]; left; reflexivity].
  destruct (category data) as [|items|]; [discriminate| |intros [= <- _]; left; reflexivity].
  intros H. right. exact (forEach_check_exn _ _ _ _ _ _ H).
Qed.

Lemma check_user_exn user s e s' :
  check_user env user s = Exn e s' → e = TypeError ∨ e = MapKeyError.
Proof.
  unfold check_user, bind.
  destruct (check_category env (User.seeds user) _ _ s) eqn:H1;
    [|intros [= <- _]; exact (check_category_exn _ _ _ _ _ _ H1)].
  destruct (check_category env (User.gear user) _ _ _) eqn:H2;
    [|intros [= <- _]; exact (check_category_exn _ _ _ _ _ _ H2)].
  destruct (check_category env (User.eggs user) _ _ _) eqn:H3;
    [|intros [= <- _]; exact (check_category_exn _ _ _ _ _ _ H3)].
  apply check_category_exn.
Qed.
End Run.

(** ** A failure inside the loop over the users *)

Section Failure.
Context (env : Env).

End Failure.




(** ** The snapshot seen by a run *)

Section Quiet.
Context (env : Env).
Hypothesis quiet : ∀ k, feed_during env k = [].

Lemma resume_quiet s : resume env s = set_awaits (S (awaits s)) s.
Proof. unfold resume. rewrite quiet. reflexivity. Qed.

Lemma check_category_once_eq data watch category acc s :
  stockData s = Some data →
  check_category env watch category acc s
  = check_category_once env data watch category acc s.
Proof.
  intros Hd. unfold check_category, check_category_once.
  destruct (0 <? length watch)%nat; [|reflexivity].
  rewrite Hd. destruct (category data); reflexivity.
Qed.

Lemma check_category_once_frame data watch category acc s :
  stockData s = Some data →
  stockData (state_of (check_category_once env data watch category acc s)) = Some data.
Proof.
  intros Hd. rewrite <- (check_category_once_eq data) by exact Hd.
  destruct (check_category_frame env watch category acc s) as (n & -> & _). exact Hd.
Qed.

Lemma check_user_once_eq data user s :
  stockData s = Some data →
  check_user env user s = check_user_once env data user s.
Proof.
  intros Hd. unfold check_user, check_user_once, bind.
  rewrite (check_category_once_eq data) by exact Hd.
  pose proof (check_category_once_frame data (User.seeds user) Stock.seed
                ([], default ∅ (User.lastNotified user)) s Hd) as F1.
  destruct (check_category_once env data (User.seeds user) _ _ s) as [a1 s1|];
    [simpl in F1|reflexivity].
  rewrite (check_category_once_eq data) by exact F1.
  pose proof (check_category_once_frame data (User.gear user) Stock.gear a1 s1 F1) as F2.
  destruct (check_category_once env data (User.gear user) _ _ s1) as [a2 s2|];
    [simpl in F2|reflexivity].
  rewrite (check_category_once_eq data) by exact F2.
  pose proof (check_category_once_frame data (User.eggs user) Stock.egg a2 s2 F2) as F3.
  destruct (check_category_once env data (User.eggs user) _ _ s2) as [a3 s3|];
    [simpl in F3|reflexivity].
  apply check_category_once_eq. exact F3.
Qed.

Lemma process_user_once_eq data user s :
  stockData s = Some data →
  process_user env user s = process_user_once env data user s.
Proof.
  intros Hd. unfold process_user, process_user_once, bind at 1 3.
  rewrite (check_user_once_eq data) by exact Hd. reflexivity.
Qed.

(** With no feed event, the loop body leaves [stockData] as it is. *)
Lemma process_user_keeps_stockData user s :
  stockData (state_of (process_user env user s)) = stockData s.
Proof.
  rewrite process_user_eq.
  destruct (check_user_frame env user s) as (n & Hn & _).
  destruct (check_user env user s) as [acc s1|e s1]; simpl in Hn; subst s1;
    [|reflexivity].
  destruct (0 <? length acc.1)%nat; [|reflexivity].
  rewrite User_updateOne_eq.
  destruct (store_ok env _); simpl; unfold posted; rewrite !resume_quiet; reflexivity.
Qed.

Lemma for_of_once_eq data us s :
  stockData s = Some data →
  for_of us (process_user env) s = for_of us (process_user_once env data) s.
Proof.
  revert s. induction us as [|u us IH]; intros s Hd; [reflexivity|].
  simpl. unfold bind.
  pose proof (process_user_keeps_stockData u s) as Hk.
  rewrite <- (process_user_once_eq data) by exact Hd.
  destruct (process_user env u s) as [[] s'|e s']; [|reflexivity].
  apply IH. simpl in Hk. rewrite Hk. exact Hd.
Qed.

Lemma cron_job_once_eq s : cron_job env s = cron_job_once env s.
Proof.
  unfold cron_job, cron_job_once.
  destruct (stockData s) as [data|] eqn:Hd; [|reflexivity].
  unfold try_catch, bind. rewrite User_find_eq.
  destruct (store_ok env (awaits s)); [|reflexivity].
  rewrite (for_of_once_eq data); [reflexivity|].
  rewrite resume_quiet. exact Hd.
Qed.
End Quiet.

(** C3, as stated, fails: the source reads the variable [stockData] at each
    category check.  A snapshot that arrives while the alert for Ann is
    being sent is the one Dan is matched against: he is notified of an item
    that was not in the snapshot read at the start of the run. *)
Lemma snapshot_replaced_during_run :
  let s := Ex.state [Ex.ann; Ex.dan] (Some Ex.snapshot) in
  map recipient (outbox (state_of (cron_job Ex.env_restock s))) = ["1001"; "1004"] ∧
  map recipient (outbox (state_of (cron_job_once Ex.env_restock s))) = ["1001"] ∧
  cron_job Ex.env_restock s ≠ cron_job_once Ex.env_restock s.
Proof.
  intros s.
  assert (H1 : map recipient (outbox (state_of (cron_job Ex.env_restock s)))
               = ["1001"; "1004"]) by (vm_compute; reflexivity).
  assert (H2 : map recipient (outbox (state_of (cron_job_once Ex.env_restock s)))
               = ["1001"]) by (vm_compute; reflexivity).
  split; [exact H1|]. split; [exact H2|].
  intros Heq. rewrite Heq, H2 in H1. discriminate H1.
Qed.

(** C3, amended: a matching run checks the Snapshot Store at its start and
    is a no-op when it is absent then; the category checks read the store
    as it is when they are made, so when no feed event arrives during the
    run every check of every user is evaluated against the value read at
    the start. *)
Theorem snapshot_of_a_quiet_run (env : Env) (s : State) :
  (stockData s = None → cron_job env s = Ok tt s) ∧
  ((∀ k, feed_during env k = []) → cron_job env s = cron_job_once env s).
Proof.
  split.
  - intros Hd. unfold cron_job. rewrite Hd. reflexivity.
  - intros Hq. apply cron_job_once_eq. exact Hq.
Qed.

(** When the connection drops during a run, the next category check reads
    a property of [null]: the run ends there, with the users that were
    still to come not notified. *)
Example snapshot_cleared_during_run :
  let s := Ex.state [Ex.ann; Ex.bob] (Some Ex.snapshot) in
  let s' := state_of (cron_job Ex.env_drop s) in
  map recipient (outbox s') = ["1001"] ∧
  stockData s' = None ∧
  timeouts s' = [(3000, ConnectWebSocket)].
Proof. repeat split; vm_compute; reflexivity. Qed.

Lemma snapshot_of_a_quiet_run_witness :
  let s := Ex.state [Ex.ann; Ex.dan] (Some Ex.snapshot) in
  cron_job Ex.env (Ex.state [Ex.ann] None) = Ok tt (Ex.state [Ex.ann] None) ∧
  cron_job Ex.env s = cron_job_once Ex.env s.
Proof.
  intros s. split.
  - apply (snapshot_of_a_quiet_run Ex.env (Ex.state [Ex.ann] None)). reflexivity.
  - apply (snapshot_of_a_quiet_run Ex.env s). intros k. reflexivity.
Defined.

(** ** The outcomes of the posts do not steer the run *)

Section PostBlind.
Context (env : Env) (f : nat → bool).
Local Abbreviation env' := (with_post_ok f env).

Lemma post_blind_fields s1 s2 :
  post_blind s1 s2 →
  ticks s1 = ticks s2 ∧ awaits s1 = awaits s2 ∧ stockData s1 = stockData s2 ∧
  users s1 = users s2 ∧
  unregisteredMessageCache s1 = unregisteredMessageCache s2.
Proof.
  intros H. repeat split.
  - exact (f_equal ticks H).
  - exact (f_equal awaits H).
  - exact (f_equal stockData H).
  - exact (f_equal users H).
  - exact (f_equal unregisteredMessageCache H).
Qed.

Lemma forget_feed_handler ev s :
  forget_delivery (feed_handler ev s) = feed_handler ev (forget_delivery s).
Proof.
  destruct ev as [|fr| | |]; simpl; try reflexivity.
  - destruct fr as [|status [d|]]; simpl; try reflexivity;
      destruct (negb _); reflexivity.
  - unfold on_close, clearInterval. simpl. destruct (keepAliveInterval s); reflexivity.
  - unfold on_timeout. simpl. destruct (timeouts s) as [|[delay []] rest]; reflexivity.
Qed.

Lemma forget_feed_handlers evs s :
  forget_delivery (feed_handlers evs s) = feed_handlers evs (forget_delivery s).
Proof.
  revert s. induction evs as [|ev evs IH]; intros s; [reflexivity|].
  simpl. change (fold_left _ evs ?t) with (feed_handlers evs t).
  rewrite IH, forget_feed_handler. reflexivity.
Qed.

Lemma forget_resume s :
  forget_delivery (resume env s) = resume env (forget_delivery s).
Proof. unfold resume. rewrite forget_feed_handlers. reflexivity. Qed.

Lemma post_blind_resume s1 s2 :
  post_blind s1 s2 → post_blind (resume env s1) (resume env' s2).
Proof.
  unfold post_blind. intros H.
  change (resume env' s2) with (resume env s2).
  rewrite !forget_resume, H. reflexivity.
Qed.

Lemma post_blind_set_ticks n s1 s2 :
  post_blind s1 s2 → post_blind (set_ticks n s1) (set_ticks n s2).
Proof.
  unfold post_blind. intros H.
  change (set_ticks n (forget_delivery s1) = set_ticks n (forget_delivery s2)).
  rewrite H. reflexivity.
Qed.

Lemma post_blind_set_users d s1 s2 :
  post_blind s1 s2 → post_blind (set_users d s1) (set_users d s2).
Proof.
  unfold post_blind. intros H.
  change (set_users d (forget_delivery s1) = set_users d (forget_delivery s2)).
  rewrite H. reflexivity.
Qed.

Lemma post_blind_set_cache c s1 s2 :
  post_blind s1 s2 → post_blind (set_cache c s1) (set_cache c s2).
Proof.
  unfold post_blind. intros H.
  change (set_cache c (forget_delivery s1) = set_cache c (forget_delivery s2)).
  rewrite H. reflexivity.
Qed.

Lemma post_blind_push p1 p2 s1 s2 :
  recipient p1 = recipient p2 → message p1 = message p2 →
  post_blind s1 s2 →
  post_blind (set_outbox (outbox s1 ++ [p1])%list s1) (set_outbox (outbox s2 ++ [p2])%list s2).
Proof.
  unfold post_blind, forget_delivery. intros Hr Hm H.
  destruct s1, s2. simpl in *. injection H as -> -> -> -> -> -> -> -> -> -> Ho.
  rewrite !map_app, Ho. simpl. rewrite Hr, Hm. reflexivity.
Qed.

Lemma sim_ret {A} (a : A) : sim (ret a) (ret a).
Proof. intros s1 s2 H. simpl. split; [reflexivity|exact H]. Qed.

Lemma sim_throw {A} (e : Err) : sim (@throw A e) (throw e).
Proof. intros s1 s2 H. simpl. split; [reflexivity|exact H]. Qed.

Lemma sim_bind {A B} (m1 m2 : M A) (k1 k2 : A → M B) :
  sim m1 m2 → (∀ a, sim (k1 a) (k2 a)) → sim (bind m1 k1) (bind m2 k2).
Proof.
  intros Hm Hk s1 s2 H. unfold bind. specialize (Hm s1 s2 H).
  destruct (m1 s1) as [a t1|e t1], (m2 s2) as [b t2|e' t2]; simpl in Hm; try contradiction.
  - destruct Hm as [<- Ht]. apply Hk. exact Ht.
  - exact Hm.
Qed.

Lemma sim_try_catch {A} (m1 m2 : M A) (h1 h2 : Err → M A) :
  sim m1 m2 → (∀ e, sim (h1 e) (h2 e)) → sim (try_catch m1 h1) (try_catch m2 h2).
Proof.
  intros Hm Hh s1 s2 H. unfold try_catch. specialize (Hm s1 s2 H).
  destruct (m1 s1) as [a t1|e t1], (m2 s2) as [b t2|e' t2]; simpl in Hm; try contradiction.
  - exact Hm.
  - destruct Hm as [<- Ht]. apply Hh. exact Ht.
Qed.

Lemma sim_now : sim (now env) (now env').
Proof.
  intros s1 s2 H. unfold now. simpl.
  destruct (post_blind_fields s1 s2 H) as (-> & _).
  split; [reflexivity|]. apply post_blind_set_ticks. exact H.
Qed.

Lemma sim_sendMessengerMessage uid msg :
  sim (sendMessengerMessage env uid msg) (sendMessengerMessage env' uid msg).
Proof.
  intros s1 s2 H. rewrite !sendMessengerMessage_eq. simpl. split; [reflexivity|].
  unfold posted. apply post_blind_push; [reflexivity|reflexivity|].
  apply post_blind_resume. exact H.
Qed.

Lemma sim_User_find : sim (User_find env) (User_find env').
Proof.
  intros s1 s2 H. rewrite !User_find_eq.
  destruct (post_blind_fields s1 s2 H) as (_ & -> & _ & -> & _).
  change (store_ok env' (awaits s2)) with (store_ok env (awaits s2)).
  destruct (store_ok env (awaits s2)); simpl;
    (split; [reflexivity|apply post_blind_resume; exact H]).
Qed.

Lemma sim_User_updateOne uid ledger :
  sim (User_updateOne env uid ledger) (User_updateOne env' uid ledger).
Proof.
  intros s1 s2 H. rewrite !User_updateOne_eq.
  destruct (post_blind_fields s1 s2 H) as (_ & -> & _ & -> & _).
  change (store_ok env' (awaits s2)) with (store_ok env (awaits s2)).
  destruct (store_ok env (awaits s2)); simpl; (split; [reflexivity|]).
  - apply post_blind_set_users, post_blind_resume. exact H.
  - apply post_blind_resume. exact H.
Qed.

Lemma sim_check_item watch item acc :
  sim (check_item env watch item acc) (check_item env' watch item acc).
Proof.
  unfold check_item. destruct (_ && _); [|apply sim_ret].
  apply sim_bind; [apply sim_now|]. intros t.
  destruct (DAY <? _); [|apply sim_ret].
  apply sim_bind; [apply sim_now|]. intros t'.
  destruct (map_key_ok _); [apply sim_ret|apply sim_throw].
Qed.

Lemma sim_forEach watch items acc :
  sim (forEach items (check_item env watch) acc) (forEach items (check_item env' watch) acc).
Proof.
  revert acc. induction items as [|item items IH]; intros acc; [apply sim_ret|].
  simpl. apply sim_bind; [apply sim_check_item|]. intros a. apply IH.
Qed.

Lemma sim_check_category watch category acc :
  sim (check_category env watch category acc) (check_category env' watch category acc).
Proof.
  unfold check_category. destruct (0 <? length watch)%nat; [|apply sim_ret].
  intros s1 s2 H. destruct (post_blind_fields s1 s2 H) as (_ & _ & -> & _).
  destruct (stockData s2) as [data|]; [|split; [reflexivity|exact H]].
  destruct (category data) as [|items|].
  - split; [reflexivity|exact H].
  - apply sim_forEach. exact H.
  - split; [reflexivity|exact H].
Qed.

Lemma sim_check_user user : sim (check_user env user) (check_user env' user).
Proof.
  unfold check_user.
  apply sim_bind; [apply sim_check_category|]. intros a1.
  apply sim_bind; [apply sim_check_category|]. intros a2.
  apply sim_bind; [apply sim_check_category|]. intros a3.
  apply sim_check_category.
Qed.

Lemma sim_process_user user : sim (process_user env user) (process_user env' user).
Proof.
  unfold process_user. apply sim_bind; [apply sim_check_user|]. intros acc.
  destruct (0 <? length acc.1)%nat; [|apply sim_ret].
  apply sim_bind.
  - unfold getManilaTime. apply sim_bind; [apply sim_now|]. intros t. apply sim_ret.
  - intros ts. apply sim_bind; [apply sim_sendMessengerMessage|].
    intros _. apply sim_User_updateOne.
Qed.

Lemma sim_for_of us : sim (for_of us (process_user env)) (for_of us (process_user env')).
Proof.
  induction us as [|u us IH]; [apply sim_ret|].
  simpl. apply sim_bind; [apply sim_process_user|]. intros _. exact IH.
Qed.

Lemma sim_cron_job : sim (cron_job env) (cron_job env').
Proof.
  intros s1 s2 H. unfold cron_job.
  destruct (post_blind_fields s1 s2 H) as (_ & _ & -> & _).
  destruct (stockData s2); [|split; [reflexivity|exact H]].
  apply sim_try_catch; [|intros e; apply sim_ret|exact H].
  apply sim_bind; [apply sim_User_find|]. intros us. apply sim_for_of.
Qed.

Lemma cron_job_returns s : cron_job env s = Ok tt (state_of (cron_job env s)).
Proof.
  unfold cron_job. destruct (stockData s); [|reflexivity].
  unfold try_catch. destruct (bind _ _ s) as [[] s'|e s']; reflexivity.
Qed.
End PostBlind.

(** What the write of the loop body leaves in the store, seen through the
    lookup by [uid]. *)
Lemma findOne_updateOne uid ledger docs :
  findOne uid (updateOne uid ledger docs)
  = (λ d, User.mk (User.uid d) (User.name d) (User.seeds d) (User.gear d)
                  (User.eggs d) (User.travelingmerchant d) (Some ledger))
    <$> findOne uid docs.
Proof.
  unfold findOne. induction docs as [|d docs IH]; [reflexivity|].
  cbn [updateOne find]. destruct (String.eqb (User.uid d) uid) eqn:E.
  - cbn [find User.uid]. rewrite E. reflexivity.
  - cbn [find]. rewrite E. exact IH.
Qed.

Lemma findOne_updateOne_ne uid uid' ledger docs :
  uid' ≠ uid → findOne uid' (updateOne uid ledger docs) = findOne uid' docs.
Proof.
  intros Hne. unfold findOne. induction docs as [|d docs IH]; [reflexivity|].
  cbn [updateOne find]. destruct (String.eqb (User.uid d) uid) eqn:E.
  - cbn [find User.uid]. apply String.eqb_eq in E.
    replace (String.eqb (User.uid d) uid') with false; [reflexivity|].
    symmetry. apply String.eqb_neq. congruence.
  - cbn [find]. rewrite IH. reflexivity.
Qed.

(** C6: [sendMessengerMessage] returns normally whatever the outcome of the
    post.  A matching run always returns, and with other outcomes of its
    posts it ends in the same state but for the outcomes recorded: the same
    posts to the same users in the same order and the same collection.  For
    a user with a non-empty buffer whose write goes through, the loop body
    returns normally, has posted one text to the user, delivered or not,
    and the document that the store finds under the user's [uid] then
    carries the ledger of the pass, with its name and watchlists as before;
    the documents found under other [uid]s are the same. *)
Theorem send_failures_are_swallowed (env : Env) (f : nat → bool) (s : State) :
  (∀ uid msg, sendMessengerMessage env uid msg s = Ok tt (posted env uid msg s)) ∧
  cron_job env s = Ok tt (state_of (cron_job env s)) ∧
  forget_delivery (state_of (cron_job env s))
  = forget_delivery (state_of (cron_job (with_post_ok f env) s)) ∧
  users (state_of (cron_job env s)) = users (state_of (cron_job (with_post_ok f env) s)) ∧
  (∀ user acc s1,
      check_user env user s = Ok acc s1 →
      (0 < length acc.1)%nat →
      store_ok env (S (awaits s)) = true →
      ∃ s',
        process_user env user s = Ok tt s' ∧
        (∃ text, outbox s' = (outbox s ++ [mkPost (User.uid user) (Text text)
                                                  (post_ok env (awaits s))])%list) ∧
        (∀ d, findOne (User.uid user) (users s) = Some d →
              ∃ d', findOne (User.uid user) (users s') = Some d' ∧
                    User.lastNotified d' = Some acc.2 ∧ same_prefs d d') ∧
        (∀ uid', uid' ≠ User.uid user →
                 findOne uid' (users s') = findOne uid' (users s))).
Proof.
  assert (Hsim : post_blind (state_of (cron_job env s))
                            (state_of (cron_job (with_post_ok f env) s))).
  { pose proof (sim_cron_job env f s s eq_refl) as H. unfold res_blind in H.
    destruct (cron_job env s), (cron_job (with_post_ok f env) s);
      simpl; try contradiction; apply H. }
  split; [intros uid msg; apply sendMessengerMessage_eq|].
  split; [apply cron_job_returns|]. split; [exact Hsim|].
  split; [apply (post_blind_fields _ _ Hsim)|].
  intros user acc s1 Hc Hlen Hok. rewrite process_user_eq, Hc.
  destruct (check_user_frame env user s) as (n & Hn & _). rewrite Hc in Hn.
  simpl in Hn. subst s1.
  replace (0 <? length acc.1)%nat with true by (symmetry; apply Nat.ltb_lt; exact Hlen).
  rewrite User_updateOne_eq.
  destruct (posted_frame env (User.uid user)
    (Text (notifyMsg user (toLocaleString env (Date_now env (ticks (set_ticks n s)))) acc.1))
    (set_ticks (S (ticks (set_ticks n s))) (set_ticks n s))) as (_ & Ha & Hu & _ & Ho & _).
  rewrite Ha, Hu. cbn [awaits users set_ticks]. rewrite Hok.
  eexists. split; [reflexivity|]. cbn [users outbox set_users].
  rewrite outbox_resume, Ho. cbn [outbox awaits set_ticks].
  split; [eexists; reflexivity|]. split.
  - intros d Hd. rewrite findOne_updateOne, Hd. cbn [fmap option_fmap option_map].
    eexists. split; [reflexivity|]. split; [reflexivity|]. repeat split.
  - intros uid' Hne. apply findOne_updateOne_ne. exact Hne.
Qed.

Lemma send_failures_are_swallowed_witness :
  let offline := with_post_ok (fun _ => false) Ex.env in
  let s := Ex.state [Ex.ann] (Some Ex.snapshot) in
  let s' := state_of (process_user offline Ex.ann s) in
  let run := state_of (cron_job offline (Ex.state [Ex.ann; Ex.bob] (Some Ex.snapshot))) in
  map delivered (outbox s') = [false] ∧
  findOne "1001" (users s')
  = Some (User.mk "1001" "Ann" ["Carrot"] [] [] [] (Some {[ "Carrot" := Ex.t0 + 1 ]})) ∧
  map delivered (outbox run) = [false; false] ∧
  users run
  = [User.mk "1001" "Ann" ["Carrot"] [] [] [] (Some {[ "Carrot" := Ex.t0 + 1 ]});
     User.mk "1002" "Bob" ["Carrot"] ["Wrench"] [] []
             (Some {[ "Carrot" := Ex.t0 + 4; "Wrench" := Ex.t0 + 6 ]})].
Proof.
  intros offline s s' run. split; [vm_compute; reflexivity|].
  destruct (send_failures_are_swallowed offline (fun _ => true) s) as (_ & _ & _ & _ & H).
  assert (Hc : check_user offline Ex.ann s
               = Ok ([line Ex.carrot], {[ "Carrot" := Ex.t0 + 1 ]}) (set_ticks 2 s))
    by (vm_compute; reflexivity).
  destruct (H Ex.ann _ _ Hc (Nat.lt_0_succ 0) eq_refl) as (t & Hrun & _ & Hstored & _).
  destruct (Hstored Ex.ann eq_refl) as (d' & Hf & Hl & Hp).
  split; [|split; [vm_compute; reflexivity|vm_compute; reflexivity]].
  unfold s'. rewrite Hrun. cbn [state_of].
  change (findOne "1001" (users t) = Some d') in Hf. rewrite Hf. f_equal.
  destruct d' as [u n a b c d l]. cbn in Hl.
  destruct Hp as (Hu & Hn & Ha & Hb & Hcc & Hd). cbn in Hu, Hn, Ha, Hb, Hcc, Hd.
  subst. reflexivity.
Defined.

(** ** The entries of the ledger only grow *)

Lemma ledger_le_refl (m : gmap string Z) : ledger_le m m.
Proof. intros k t H. exists t. split; [exact H|lia]. Qed.

Lemma ledger_le_trans (m1 m2 m3 : gmap string Z) :
  ledger_le m1 m2 → ledger_le m2 m3 → ledger_le m1 m3.
Proof.
  intros H12 H23 k t H. destruct (H12 k t H) as (t2 & H2 & L2).
  destruct (H23 k t2 H2) as (t3 & H3 & L3). exists t3. split; [exact H3|lia].
Qed.

Lemma store_le_refl (docs : list User.t) : store_le docs docs.
Proof.
  induction docs as [|d docs IH]; constructor; [|exact IH].
  split; [reflexivity|apply ledger_le_refl].
Qed.

Lemma store_le_trans (d1 d2 d3 : list User.t) :
  store_le d1 d2 → store_le d2 d3 → store_le d1 d3.
Proof.
  intros H12. revert d3. induction H12 as [|x y l1 l2 [Hu Hl] _ IH]; intros d3 H23.
  - inversion H23. constructor.
  - inversion H23 as [|y' z l2' l3 [Hu' Hl'] Hrest]; subst. constructor.
    + split; [congruence|exact (ledger_le_trans _ _ _ Hl Hl')].
    + apply IH. exact Hrest.
Qed.

Lemma store_le_updateOne uid ledger (docs : list User.t) :
  (∀ d, d ∈ docs → User.uid d = uid → ledger_le (ledger_of d) ledger) →
  store_le docs (updateOne uid ledger docs).
Proof.
  induction docs as [|d docs IH]; intros H; simpl; [constructor|].
  destruct (String.eqb (User.uid d) uid) eqn:E.
  - constructor; [|apply store_le_refl]. split; [reflexivity|].
    apply H; [apply list_elem_of_here|]. apply String.eqb_eq. exact E.
  - constructor; [split; [reflexivity|apply ledger_le_refl]|].
    apply IH. intros d' Hd'. apply H. apply list_elem_of_further. exact Hd'.
Qed.

Lemma elem_of_updateOne uid ledger (docs : list User.t) d :
  d ∈ updateOne uid ledger docs → d ∈ docs ∨ User.uid d = uid.
Proof.
  induction docs as [|d0 docs IH]; simpl; [intros H; left; exact H|].
  destruct (String.eqb (User.uid d0) uid) eqn:E; intros H.
  - apply elem_of_cons in H as [->|H].
    + right. simpl. apply String.eqb_eq. exact E.
    + left. apply list_elem_of_further. exact H.
  - apply elem_of_cons in H as [->|H].
    + left. apply list_elem_of_here.
    + destruct (IH H) as [H'|H']; [left; apply list_elem_of_further; exact H'|right; exact H'].
Qed.

Section Monotone.
Context (env : Env).
Hypothesis clock_mono : ∀ k, Date_now env k <= Date_now env (S k).

(** Marking: the value written is above the entry it replaces. *)
Lemma check_item_ledger_le watch item (acc : list string * gmap string Z) s acc1 s1 :
  check_item env watch item acc s = Ok acc1 s1 → ledger_le acc.2 acc1.2.
Proof.
  rewrite check_item_eq. destruct (_ && _).
  - destruct (DAY <? _) eqn:Ht.
    + destruct (map_key_ok _); [|discriminate].
      intros [= <- _]. simpl. apply Z.ltb_lt in Ht.
      intros k t Hk. destruct (decide (k = Item.name item)) as [->|Hne].
      * exists (Date_now env (S (ticks s))). split; [apply lookup_insert_eq|].
        rewrite Hk in Ht. simpl in Ht. specialize (clock_mono (ticks s)).
        unfold DAY in Ht. lia.
      * exists t. split; [|lia]. rewrite lookup_insert_ne by congruence. exact Hk.
    + intros [= <- _]. apply ledger_le_refl.
  - intros [= <- _]. apply ledger_le_refl.
Qed.

Lemma check_user_ledger_le user s acc s1 :
  check_user env user s = Ok acc s1 → ledger_le (ledger_of user) acc.2.
Proof.
  intros Hrun.
  apply (check_user_inv env (fun a _ => ledger_le (ledger_of user) a.2) user s acc s1);
    [|apply ledger_le_refl|exact Hrun].
  intros watch item a t a1 t1 Ha Hstep.
  exact (ledger_le_trans _ _ _ Ha (check_item_ledger_le _ _ _ _ _ _ Hstep)).
Qed.

(** Persisting: the loop body writes at most the ledger of its user, grown. *)
Lemma process_user_users user s :
  users (state_of (process_user env user s)) = users s ∨
  ∃ ledger, ledger_le (ledger_of user) ledger ∧
            users (state_of (process_user env user s))
            = updateOne (User.uid user) ledger (users s).
Proof.
  rewrite process_user_eq.
  destruct (check_user_frame env user s) as (n & Hn & _).
  destruct (check_user env user s) as [acc s1|e s1] eqn:Hc; simpl in Hn; subst s1;
    [|left; reflexivity].
  destruct (0 <? length acc.1)%nat; [|left; reflexivity].
  rewrite User_updateOne_eq, users_posted. destruct (store_ok env _); cbn [state_of].
  - right. exists acc.2. split; [exact (check_user_ledger_le _ _ _ _ Hc)|].
    reflexivity.
  - left. rewrite users_resume, users_posted. reflexivity.
Qed.

Lemma for_of_store_le docs0 rest s :
  store_le docs0 (users s) →
  NoDup (User.uid <$> rest) →
  (∀ u d, u ∈ rest → d ∈ users s → User.uid d = User.uid u → ledger_of d = ledger_of u) →
  store_le docs0 (users (state_of (for_of rest (process_user env) s))).
Proof.
  revert s. induction rest as [|u rest IH]; intros s H0 Hnd Hsame; [exact H0|].
  simpl. unfold bind.
  assert (Hstep : store_le (users s) (users (state_of (process_user env u s))) ∧
                  ∀ d, d ∈ users (state_of (process_user env u s)) →
                       d ∈ users s ∨ User.uid d = User.uid u).
  { destruct (process_user_users u s) as [->|(ledger & Hl & ->)].
    - split; [apply store_le_refl|]. intros d Hd. left. exact Hd.
    - split; [|intros d; apply elem_of_updateOne].
      apply store_le_updateOne. intros d Hd Hu.
      rewrite (Hsame u d); [exact Hl|apply list_elem_of_here|exact Hd|exact Hu]. }
  destruct Hstep as [Hle Hin].
  destruct (process_user env u s) as [[] s1|e s1]; simpl in Hle, Hin |- *.
  - rewrite fmap_cons in Hnd. apply NoDup_cons in Hnd as [Hu Hnd].
    apply IH; [exact (store_le_trans _ _ _ H0 Hle)|exact Hnd|].
    intros u2 d Hu2 Hd Heq. destruct (Hin d Hd) as [Hd'|Hd'].
    + apply Hsame; [apply list_elem_of_further; exact Hu2|exact Hd'|exact Heq].
    + exfalso. apply Hu. rewrite <- Hd', Heq. apply list_elem_of_fmap.
      exists u2. split; [reflexivity|exact Hu2].
  - exact (store_le_trans _ _ _ H0 Hle).
Qed.

Lemma cron_job_store_le s :
  NoDup (User.uid <$> users s) →
  store_le (users s) (users (state_of (cron_job env s))).
Proof.
  intros Hnd. unfold cron_job. destruct (stockData s); [|apply store_le_refl].
  unfold try_catch, bind. rewrite User_find_eq.
  destruct (store_ok env (awaits s)); simpl;
    [|rewrite users_resume; apply store_le_refl].
  assert (Hloop : store_le (users s)
            (users (state_of (for_of (users s) (process_user env) (resume env s))))).
  { apply for_of_store_le; rewrite ?users_resume.
    - apply store_le_refl.
    - exact Hnd.
    - intros u d Hu Hd Heq. f_equal.
      apply list_elem_of_lookup in Hu as (i & Hi). apply list_elem_of_lookup in Hd as (j & Hj).
      assert (i = j).
      { eapply NoDup_lookup; [exact Hnd| |].
        - rewrite list_lookup_fmap, Hi. reflexivity.
        - rewrite list_lookup_fmap, Hj. simpl. rewrite Heq. reflexivity. }
      subst j. congruence. }
  destruct (for_of (users s) (process_user env) (resume env s)) as [[] s1|e s1];
    exact Hloop.
Qed.
End Monotone.

(** C8: with a clock that does not run backwards, every write to a ledger
    raises the entry it replaces.  Marking a notification writes a reading
    of the clock that is above the entry it replaces (and keeps the other
    entries); and over a matching run, whatever its outcome, the documents
    of the collection keep their order and identity and every stored entry
    is replaced, if at all, by a greater or equal one. *)
Theorem ledger_entries_only_grow (env : Env) (s : State) :
  (∀ k, Date_now env k <= Date_now env (S k)) →
  NoDup (User.uid <$> users s) →
  (∀ watch item acc t acc1 t1,
      check_item env watch item acc t = Ok acc1 t1 → ledger_le acc.2 acc1.2) ∧
  store_le (users s) (users (state_of (cron_job env s))).
Proof.
  intros Hmono Hnd. split.
  - intros watch item acc t acc1 t1. apply check_item_ledger_le. exact Hmono.
  - apply cron_job_store_le; assumption.
Qed.

Lemma ledger_entries_only_grow_witness :
  let old : User.t :=
    User.mk "1001" "Ann" ["Carrot"] [] [] [] (Some {[ "Carrot" := Ex.t0 - 2 * DAY ]}) in
  let s := Ex.state [old; Ex.bob] (Some Ex.snapshot) in
  store_le (users s) (users (state_of (cron_job Ex.env s))).
Proof.
  intros old s. apply (ledger_entries_only_grow Ex.env s).
  - intros k. unfold Ex.env, Ex.clock. simpl. lia.
  - simpl. apply NoDup_cons. split.
    + intros H. apply list_elem_of_singleton in H. discriminate H.
    + apply NoDup_singleton.
Defined.

(** ** The registration prompt *)

Section Prompt.
Context (env : Env).

Lemma sendRegistrationMessage_eq uid s :
  valid_uid uid = true →
  sendRegistrationMessage env uid s =
  match unregisteredMessageCache s !! uid with
  | Some t0 =>
      if t0 =? 0 then Ok tt (prompted env uid s)
      else if Date_now env (ticks s) - t0 <? MESSAGE_COOLDOWN
           then Ok tt (set_ticks (S (ticks s)) s)
           else Ok tt (prompted env uid (set_ticks (S (ticks s)) s))
  | None => Ok tt (prompted env uid s)
  end.
Proof.
  intros Hv. unfold sendRegistrationMessage.
  destruct (unregisteredMessageCache s !! uid) as [t0|].
  - destruct (t0 =? 0).
    + unfold bind at 1. simpl. rewrite Hv. simpl.
      unfold bind at 1. rewrite sendMessengerMessage_eq. reflexivity.
    + unfold bind at 1 2. unfold now at 1. simpl.
      destruct (Date_now env (ticks s) - t0 <? MESSAGE_COOLDOWN); [reflexivity|].
      rewrite Hv. simpl. unfold bind at 1. rewrite sendMessengerMessage_eq. reflexivity.
  - unfold bind at 1. simpl. rewrite Hv. simpl.
    unfold bind at 1. rewrite sendMessengerMessage_eq. reflexivity.
Qed.

Lemma prompted_frame uid s :
  outbox (prompted env uid s)
  = (outbox s ++ [mkPost uid (RegistrationTemplate uid) (post_ok env (awaits s))])%list ∧
  unregisteredMessageCache (prompted env uid s)
  = <[uid := Date_now env (ticks s)]> (unregisteredMessageCache s) ∧
  ticks (prompted env uid s) = S (ticks s) ∧
  awaits (prompted env uid s) = S (awaits s).
Proof.
  destruct (posted_frame env uid (RegistrationTemplate uid) s) as (Ht & Ha & _ & Hc & Ho & _).
  unfold prompted. cbn [outbox unregisteredMessageCache ticks awaits set_cache set_ticks].
  rewrite Ht, Ha, Hc, Ho. repeat split.
Qed.

End Prompt.

(** An attempt is its tests followed, if they pass, by the post and the
    recording. *)
Lemma sendRegistrationMessage_phases (env : Env) uid s :
  sendRegistrationMessage env uid s
  = (go <- prompt_tests env uid ;;
     if (go : bool) then prompt_send env uid else ret tt) s.
Proof.
  unfold sendRegistrationMessage, prompt_tests, prompt_send, bind, now, ret. cbv beta zeta.
  destruct (unregisteredMessageCache s !! uid) as [t0|].
  - destruct (t0 =? 0).
    + destruct (valid_uid uid); reflexivity.
    + destruct (Date_now env (ticks s) - t0 <? MESSAGE_COOLDOWN); [reflexivity|].
      destruct (valid_uid uid); reflexivity.
  - destruct (valid_uid uid); reflexivity.
Qed.







(** ** Quantities: binary64 division and [toFixed(1)] *)

Lemma digits2_pos_bounds (p : positive) :
  2 ^ (Z.pos (digits2_pos p) - 1) <= Z.pos p < 2 ^ Z.pos (digits2_pos p).
Proof.
  induction p as [p IH|p IH|]; simpl digits2_pos.
  - rewrite Pos2Z.inj_succ.
    replace (Z.succ (Z.pos (digits2_pos p)) - 1) with (Z.succ (Z.pos (digits2_pos p) - 1)) by lia.
    rewrite !Z.pow_succ_r by lia. lia.
  - rewrite Pos2Z.inj_succ.
    replace (Z.succ (Z.pos (digits2_pos p)) - 1) with (Z.succ (Z.pos (digits2_pos p) - 1)) by lia.
    rewrite !Z.pow_succ_r by lia. lia.
  - simpl. lia.
Qed.

Lemma digits2_pos_unique (p : positive) (k : Z) :
  2 ^ (k - 1) <= Z.pos p < 2 ^ k → Z.pos (digits2_pos p) = k.
Proof.
  intros [Hlo Hhi]. pose proof (digits2_pos_bounds p) as [Blo Bhi].
  destruct (Z.lt_trichotomy (Z.pos (digits2_pos p)) k) as [Hlt|[Heq|Hgt]]; [|exact Heq|].
  - assert (2 ^ Z.pos (digits2_pos p) <= 2 ^ (k - 1)) by (apply Z.pow_le_mono_r; lia). lia.
  - assert (0 <= k ∨ k < 0) as [Hk|Hk] by lia.
    + assert (2 ^ k <= 2 ^ (Z.pos (digits2_pos p) - 1)) by (apply Z.pow_le_mono_r; lia). lia.
    + rewrite (Z.pow_neg_r 2 k) in Hhi by lia. lia.
Qed.


Lemma iter_xO_value (p d : positive) :
  Z.pos (Pos.iter xO p d) = Z.pos p * 2 ^ Z.pos d.
Proof.
  pose proof (Zpower.shift_pos_correct d p) as H. unfold Zpower.shift_pos in H.
  rewrite H. change (Z.pow_pos 2 d) with (2 ^ Z.pos d). lia.
Qed.

Lemma fexp_small (z : Z) : -1021 <= z → fexp prec emax z = z - 53.
Proof. intros H. unfold fexp, emin, prec, emax. lia. Qed.

Lemma shr_fexp_keep (m e : Z) (l : location) :
  Zdigits2 m = 53 → -1074 <= e →
  shr_fexp prec emax m e l = (shr_record_of_loc m l, e).
Proof.
  intros Hd He. unfold shr_fexp. rewrite Hd, fexp_small by lia.
  replace (53 + e - 53 - e) with 0 by lia. reflexivity.
Qed.

Lemma shr_fexp_halve (m e : Z) (l : location) :
  Zdigits2 m = 54 → -1075 <= e →
  shr_fexp prec emax m e l = (shr_1 (shr_record_of_loc m l), e + 1).
Proof.
  intros Hd He. unfold shr_fexp. rewrite Hd, fexp_small by lia.
  replace (54 + e - 53 - e) with 1 by lia. reflexivity.
Qed.

Lemma round_exact (m : positive) (e : Z) :
  Z.pos (digits2_pos m) = 53 → -1074 <= e <= 971 →
  binary_round_aux prec emax false (Z.pos m) e loc_Exact = S754_finite false m e.
Proof.
  intros Hd He. unfold binary_round_aux.
  rewrite shr_fexp_keep by (simpl; lia). simpl.
  rewrite shr_fexp_keep by (simpl; lia). simpl.
  replace (e <=? emax - prec) with true; [reflexivity|].
  symmetry. apply Z.leb_le. unfold emax, prec. lia.
Qed.

Lemma Number_finite (v : Z) :
  0 < v < 2 ^ 53 →
  ∃ m e, Number v = S754_finite false m e ∧
         Z.pos (digits2_pos m) = 53 ∧ -52 <= e <= 0 ∧ Z.pos m = v * 2 ^ (- e).
Proof.
  intros [Hlo Hhi]. destruct v as [|p|p]; try lia.
  pose proof (digits2_pos_bounds p) as [Blo Bhi].
  assert (HD : 1 <= Z.pos (digits2_pos p) <= 53).
  { split; [lia|].
    destruct (Z.le_gt_cases (Z.pos (digits2_pos p)) 53) as [H|H]; [exact H|].
    assert (2 ^ 53 <= 2 ^ (Z.pos (digits2_pos p) - 1)) by (apply Z.pow_le_mono_r; lia). lia. }
  unfold Number, binary_normalize, binary_round.
  rewrite fexp_small by lia. unfold shl_align.
  destruct (Z.pos (digits2_pos p) + 0 - 53 - 0) as [|d|d] eqn:Hs; try lia.
  - exists p, 0. split; [apply round_exact; lia|]. split; [lia|]. split; [lia|]. simpl. lia.
  - exists (Pos.iter xO p d), (Z.pos (digits2_pos p) + 0 - 53).
    assert (Hv : Z.pos (Pos.iter xO p d) = Z.pos p * 2 ^ Z.pos d) by apply iter_xO_value.
    assert (Hdig : Z.pos (digits2_pos (Pos.iter xO p d)) = 53).
    { apply digits2_pos_unique. rewrite Hv.
      replace 53 with (Z.pos (digits2_pos p) + Z.pos d) at 2 by lia.
      replace (53 - 1) with (Z.pos (digits2_pos p) - 1 + Z.pos d) by lia.
      rewrite !Z.pow_add_r by lia.
      assert (0 < 2 ^ Z.pos d) by (apply Z.pow_pos_nonneg; lia). nia. }
    split; [apply round_exact; [exact Hdig|lia]|]. split; [exact Hdig|]. split; [lia|].
    rewrite Hv. f_equal. f_equal. lia.
Qed.

Lemma new_location_sem (d r : Z) :
  0 < d → 0 <= r < d → loc_sem (new_location d r) r d.
Proof.
  intros Hd Hr. unfold new_location.
  destruct (Z.even d) eqn:Hev.
  - unfold new_location_even. destruct (Z.eqb_spec r 0) as [->|Hne]; [reflexivity|].
    destruct (Z.compare_spec (2 * r) d); simpl; lia.
  - unfold new_location_odd. destruct (Z.eqb_spec r 0) as [->|Hne]; [reflexivity|].
    assert (Hodd : Z.odd d = true) by (rewrite <- Z.negb_even, Hev; reflexivity).
    apply Z.odd_spec in Hodd as [k Hk].
    destruct (Z.compare_spec (2 * r + 1) d); simpl; lia.
Qed.

Lemma Zdigits2_unique (q k : Z) :
  0 < q → 2 ^ (k - 1) <= q < 2 ^ k → Zdigits2 q = k.
Proof.
  intros Hq Hb. destruct q as [|p|p]; try lia. simpl. apply digits2_pos_unique. exact Hb.
Qed.

(** The last step of [binary_round_aux], on a rounded mantissa. *)
Lemma round_finish (mr e : Z) :
  2 ^ 52 <= mr <= 2 ^ 53 → -1074 <= e <= 970 →
  ∃ m k,
    (let '(mrs, e') := shr_fexp prec emax mr e loc_Exact in
     match shr_m mrs with
     | Z0 => S754_zero false
     | Zpos m => if e' <=? emax - prec then S754_finite false m e' else S754_infinity false
     | Zneg _ => S754_nan
     end) = S754_finite false m (e + k) ∧
    0 <= k <= 1 ∧ 2 ^ 52 <= Z.pos m < 2 ^ 53 ∧ Z.pos m * 2 ^ k = mr.
Proof.
  intros Hm He.
  destruct (Z.eq_dec mr (2 ^ 53)) as [->|Hne].
  - exists (2 ^ 52)%positive, 1.
    rewrite shr_fexp_halve by (try reflexivity; lia). simpl shr_m.
    replace (e + 1 <=? emax - prec) with true
      by (symmetry; apply Z.leb_le; unfold emax, prec; lia).
    split; [reflexivity|]. split; [lia|]. split; [simpl; lia|reflexivity].
  - destruct mr as [|p|p]; try lia. exists p, 0.
    rewrite shr_fexp_keep by (try (apply Zdigits2_unique; lia); lia). simpl shr_m.
    replace (e <=? emax - prec) with true
      by (symmetry; apply Z.leb_le; unfold emax, prec; lia).
    rewrite Z.add_0_r. split; [reflexivity|]. split; [lia|]. split; [lia|]. lia.
Qed.

(** The first step: the quotient, with the location of the remainder, is
    cut to 53 bits and rounded to nearest. *)
Lemma round_first (q e r d : Z) (l : location) :
  2 ^ 52 <= q < 2 ^ 54 → -1074 <= e →
  0 < d → 0 <= r < d → loc_sem l r d →
  ∃ mrs k,
    shr_fexp prec emax q e l = (mrs, e + k) ∧ 0 <= k <= 1 ∧
    2 ^ 52 <= round_nearest_even (shr_m mrs) (loc_of_shr_record mrs) <= 2 ^ 53 ∧
    Z.abs (round_nearest_even (shr_m mrs) (loc_of_shr_record mrs) * 2 ^ k * d - (q * d + r)) * 2
    <= 2 ^ k * d.
Proof.
  intros Hq He Hd Hr Hl.
  destruct (Z.lt_ge_cases q (2 ^ 53)) as [Hs|Hb].
  - exists (shr_record_of_loc q l), 0.
    rewrite shr_fexp_keep by (try (apply Zdigits2_unique; lia); lia).
    rewrite Z.add_0_r, Z.pow_0_r. split; [reflexivity|]. split; [lia|].
    destruct l as [|[]];
      cbn [loc_sem round_nearest_even shr_m loc_of_shr_record shr_record_of_loc] in Hl |- *;
      try (destruct (Z.even q)); lia.
  - exists (shr_1 (shr_record_of_loc q l)), 1.
    rewrite shr_fexp_halve by (try (apply Zdigits2_unique; lia); lia).
    rewrite Z.pow_1_r. split; [reflexivity|]. split; [lia|].
    destruct q as [|[p|p|]|]; try lia;
      destruct l as [|[]];
      cbn [loc_sem round_nearest_even shr_m loc_of_shr_record shr_record_of_loc shr_1 orb]
        in Hl |- *;
      try (destruct (Z.even (Z.pos p))); lia.
Qed.

Lemma binary_round_aux_quotient (q e r d : Z) (l : location) :
  2 ^ 52 <= q < 2 ^ 54 → -1074 <= e <= 900 →
  0 < d → 0 <= r < d → loc_sem l r d →
  ∃ m k,
    binary_round_aux prec emax false q e l = S754_finite false m (e + k) ∧
    0 <= k <= 2 ∧ 2 ^ 52 <= Z.pos m < 2 ^ 53 ∧
    Z.abs (Z.pos m * 2 ^ k * d - (q * d + r)) * 2 <= 2 ^ k * d.
Proof.
  intros Hq He Hd Hr Hl.
  destruct (round_first q e r d l Hq ltac:(lia) Hd Hr Hl) as (mrs & k1 & E1 & Hk1 & Hmr & Herr).
  destruct (round_finish (round_nearest_even (shr_m mrs) (loc_of_shr_record mrs)) (e + k1)
              Hmr ltac:(lia)) as (m & k2 & E2 & Hk2 & Hm & Hval).
  exists m, (k1 + k2). unfold binary_round_aux. rewrite E1.
  rewrite Z.add_assoc. split; [exact E2|]. split; [lia|]. split; [exact Hm|].
  rewrite <- Hval in Herr.
  replace (2 ^ (k1 + k2)) with (2 ^ k2 * 2 ^ k1) by (rewrite Z.pow_add_r by lia; lia).
  assert (Hp1 : 0 < 2 ^ k1) by (apply Z.pow_pos_nonneg; lia).
  assert (Hp2 : 0 < 2 ^ k2) by (apply Z.pow_pos_nonneg; lia).
  replace (Z.pos m * (2 ^ k2 * 2 ^ k1) * d) with (Z.pos m * 2 ^ k2 * 2 ^ k1 * d) by lia.
  assert (2 ^ k1 * d <= 2 ^ k2 * 2 ^ k1 * d) by nia.
  lia.
Qed.

Lemma js_div_finite (m1 m2 : positive) (e1 e2 : Z) :
  Z.pos (digits2_pos m1) = 53 → Z.pos (digits2_pos m2) = 53 →
  -52 <= e1 <= 0 → -52 <= e2 <= 0 →
  ∃ m k,
    js_div (S754_finite false m1 e1) (S754_finite false m2 e2)
    = S754_finite false m (e1 - e2 - 53 + k) ∧
    0 <= k <= 2 ∧ 2 ^ 52 <= Z.pos m < 2 ^ 53 ∧
    Z.abs (Z.pos m * 2 ^ k * Z.pos m2 - Z.pos m1 * 2 ^ 53) * 2 <= 2 ^ k * Z.pos m2.
Proof.
  intros D1 D2 He1 He2.
  pose proof (digits2_pos_bounds m1) as B1. rewrite D1 in B1.
  pose proof (digits2_pos_bounds m2) as B2. rewrite D2 in B2.
  unfold js_div, SFdiv, SFdiv_core_binary. cbn [Zdigits2 xorb]. rewrite D1, D2.
  rewrite fexp_small by lia.
  replace (Z.min (53 + e1 - (53 + e2) - 53) (e1 - e2)) with (e1 - e2 - 53) by lia.
  replace (e1 - e2 - (e1 - e2 - 53)) with 53 by lia.
  rewrite Z.shiftl_mul_pow2 by lia.
  pose proof (Z_div_mod (Z.pos m1 * 2 ^ 53) (Z.pos m2) ltac:(lia)) as Hdiv.
  destruct (Z.div_eucl (Z.pos m1 * 2 ^ 53) (Z.pos m2)) as [q r].
  destruct Hdiv as [Heq Hr].
  assert (Hq : 2 ^ 52 <= q < 2 ^ 54) by nia.
  destruct (binary_round_aux_quotient q (e1 - e2 - 53) r (Z.pos m2)
              (new_location (Z.pos m2) r) Hq ltac:(lia) ltac:(lia) Hr
              (new_location_sem (Z.pos m2) r ltac:(lia) Hr)) as (m & k & E & Hk & Hm & Herr).
  exists m, k. split; [exact E|]. split; [exact Hk|]. split; [exact Hm|].
  rewrite Heq. replace (Z.pos m2 * q + r) with (q * Z.pos m2 + r) by lia. exact Herr.
Qed.

(** The quotient of two integers below [2^53], on binary64: a 53-bit
    mantissa [m] and an exponent [-E] with [m * 2^-E] within half a unit in
    the last place of [v / d]. *)
Lemma js_div_Number (v d : Z) :
  0 < v < 2 ^ 53 → 4 <= d < 2 ^ 53 →
  ∃ m E,
    js_div (Number v) (Number d) = S754_finite false m (- E) ∧
    0 < E ∧ 2 ^ 52 <= Z.pos m < 2 ^ 53 ∧
    Z.abs (Z.pos m * d - v * 2 ^ E) * 2 <= d.
Proof.
  intros Hv Hd.
  destruct (Number_finite v Hv) as (m1 & e1 & -> & D1 & He1 & V1).
  destruct (Number_finite d ltac:(lia)) as (m2 & e2 & -> & D2 & He2 & V2).
  destruct (js_div_finite m1 m2 e1 e2 D1 D2 He1 He2) as (m & k & E & Hk & Hm & Herr).
  pose proof (digits2_pos_bounds m2) as B2. rewrite D2 in B2.
  assert (He2' : -50 <= e2).
  { destruct (Z.le_gt_cases (-50) e2) as [H|H]; [exact H|].
    assert (2 ^ 51 <= 2 ^ (- e2)) by (apply Z.pow_le_mono_r; lia). lia. }
  exists m, (53 + e2 - e1 - k).
  replace (- (53 + e2 - e1 - k)) with (e1 - e2 - 53 + k) by lia.
  split; [exact E|]. split; [lia|]. split; [exact Hm|].
  rewrite V1, V2 in Herr.
  set (a := - e2) in *. set (b := - e1) in *.
  replace (53 + e2 - e1 - k) with (53 + b - a - k) by lia.
  assert (Hpa : 0 < 2 ^ a) by (apply Z.pow_pos_nonneg; lia).
  assert (Hpk : 0 < 2 ^ k) by (apply Z.pow_pos_nonneg; lia).
  assert (Hsplit : 2 ^ b * 2 ^ 53 = 2 ^ (53 + b - a - k) * (2 ^ k * 2 ^ a)).
  { rewrite <- !Z.pow_add_r by lia. f_equal. lia. }
  replace (v * 2 ^ b * 2 ^ 53) with (v * 2 ^ (53 + b - a - k) * (2 ^ k * 2 ^ a)) in Herr
    by (rewrite <- (Z.mul_assoc v (2 ^ b) (2 ^ 53)), Hsplit; ring).
  replace (Z.pos m * 2 ^ k * (d * 2 ^ a)) with (Z.pos m * d * (2 ^ k * 2 ^ a)) in Herr by ring.
  replace (2 ^ k * (d * 2 ^ a)) with (d * (2 ^ k * 2 ^ a)) in Herr by ring.
  rewrite <- Z.mul_sub_distr_r in Herr.
  rewrite Z.abs_mul in Herr. rewrite (Z.abs_eq (2 ^ k * 2 ^ a)) in Herr by lia.
  assert (Hpos : 0 < 2 ^ k * 2 ^ a) by lia.
  apply (Z.mul_le_mono_pos_r _ _ (2 ^ k * 2 ^ a) Hpos). lia.
Qed.

Lemma tenths_nearest (v c : Z) (m : positive) (E : Z) :
  0 < E → 0 < c → 5 * (2 * c) < 2 ^ E →
  Z.abs (Z.pos m * (10 * (2 * c)) - v * 2 ^ E) * 2 <= 10 * (2 * c) →
  nearest_tenth v (10 * (2 * c)) (tenths m (- E)).
Proof.
  intros HE Hc HP Herr. unfold nearest_tenth, tenths.
  rewrite Z.max_r by lia. replace (Z.max (- - E) 0) with E by lia.
  rewrite Z.pow_0_r, Z.mul_1_r.
  set (P := 2 ^ E) in *. set (n := (20 * Z.pos m + P) / (2 * P)).
  assert (HPpos : 0 < P) by lia.
  pose proof (Z.mul_div_le (20 * Z.pos m + P) (2 * P) ltac:(lia)) as Hlo.
  pose proof (Z.mul_succ_div_gt (20 * Z.pos m + P) (2 * P) ltac:(lia)) as Hhi.
  fold n in Hlo, Hhi.
  set (A := Z.pos m * (10 * (2 * c)) - v * P) in *.
  set (B := 2 * P * n - 20 * Z.pos m).
  assert (HB : - P < B <= P) by (unfold B; lia).
  assert (Hid : 2 * P * (n * (2 * c) - v) = (2 * c) * B + 2 * A) by (unfold A, B; ring).
  set (X := n * (2 * c) - v) in *.
  assert (HcB : - (2 * c * P) <= 2 * c * B <= 2 * c * P) by nia.
  assert (HX : Z.abs (2 * P * X) <= 2 * c * P + 10 * (2 * c)) by lia.
  assert (HX2 : Z.abs X <= c).
  { destruct (Z.le_gt_cases (Z.abs X) c) as [H|H]; [exact H|exfalso].
    rewrite Z.abs_mul, (Z.abs_eq (2 * P)) in HX by lia.
    assert (2 * P * (c + 1) <= 2 * P * Z.abs X) by (apply Z.mul_le_mono_nonneg_l; lia).
    lia. }
  replace (10 * v - n * (10 * (2 * c))) with (- (10 * X)) by (unfold X; ring).
  rewrite Z.abs_opp, Z.abs_mul. simpl (Z.abs 10). lia.
Qed.

Lemma pow2_above (E k : Z) : 0 <= k → 2 ^ k < 2 ^ E → k < E.
Proof.
  intros Hk H. destruct (Z.lt_ge_cases k E) as [Hlt|Hge]; [exact Hlt|exfalso].
  destruct (Z.lt_ge_cases E 0) as [Hn|Hp].
  - rewrite (Z.pow_neg_r 2 E) in H by lia. assert (0 < 2 ^ k) by (apply Z.pow_pos_nonneg; lia). lia.
  - assert (2 ^ E <= 2 ^ k) by (apply Z.pow_le_mono_r; lia). lia.
Qed.



(** Where [v / 1000] is halfway between two tenths the binary64 quotient
    decides: 1.05 is stored above, 1.15 below the decimal value. *)
Example formatValue_halfway :
  formatValue 1050 = "x1.1K" ∧ formatValue 1150 = "x1.1K" ∧ formatValue 1250 = "x1.3K".
Proof. repeat split; vm_compute; reflexivity. Qed.

(** * Further properties of the code *)

(** ** The feed client over sequences of events *)

Lemma feed_handlers_app (evs1 evs2 : list FeedEvent) (s : State) :
  feed_handlers (evs1 ++ evs2) s = feed_handlers evs2 (feed_handlers evs1 s).
Proof. unfold feed_handlers. apply fold_left_app. Qed.

Lemma feed_handlers_cons (ev : FeedEvent) (evs : list FeedEvent) (s : State) :
  feed_handlers (ev :: evs) s = feed_handlers evs (feed_handler ev s).
Proof. reflexivity. Qed.

Lemma feed_handler_reconnects (ev : FeedEvent) (s : State) :
  (sockets (feed_handler ev s) + length (timeouts (feed_handler ev s))
   = sockets s + length (timeouts s) + (if is_close ev then 1 else 0))%nat ∧
  (Forall (fun t => t = (RECONNECT_DELAY, ConnectWebSocket)) (timeouts s) →
   Forall (fun t => t = (RECONNECT_DELAY, ConnectWebSocket)) (timeouts (feed_handler ev s))).
Proof.
  destruct ev as [|f| | |]; simpl.
  - split; [lia|auto].
  - destruct f as [|st [d|]]; simpl; try (split; [lia|auto]);
      destruct (negb _); split; simpl; auto; lia.
  - split; [lia|auto].
  - unfold on_close, setTimeout, clearInterval.
    destruct (keepAliveInterval s); simpl; rewrite length_app; simpl; (split; [lia|]);
      intros H; apply Forall_app; (split; [exact H|]); repeat constructor.
  - unfold on_timeout. destruct (timeouts s) as [|[delay []] rest] eqn:Ht; simpl.
    + rewrite Ht. split; [simpl; lia|auto].
    + split; [lia|]. intros H. inversion H; assumption.
Qed.

(** X1: every close event, and nothing else, schedules a reconnect, and a
    reconnect that is due opens exactly one socket: over any sequence of feed
    events, the sockets opened and the reconnects still pending grow by the
    number of close events, and every pending reconnect is due after the
    fixed 3000 ms. *)
Theorem reconnects_match_closes (evs : list FeedEvent) (s : State) :
  (sockets (feed_handlers evs s) + length (timeouts (feed_handlers evs s))
   = sockets s + length (timeouts s) + length (List.filter is_close evs))%nat ∧
  (Forall (fun t => t = (3000, ConnectWebSocket)) (timeouts s) →
   Forall (fun t => t = (3000, ConnectWebSocket)) (timeouts (feed_handlers evs s))).
Proof.
  revert s. induction evs as [|ev evs IH]; intros s.
  - simpl. split; [lia|auto].
  - rewrite feed_handlers_cons.
    destruct (IH (feed_handler ev s)) as [Hn Hf].
    destruct (feed_handler_reconnects ev s) as [Hn1 Hf1].
    split.
    + rewrite Hn. simpl List.filter. destruct (is_close ev); simpl length; lia.
    + intros H. apply Hf, Hf1, H.
Qed.

Lemma reconnects_match_closes_witness :
  let s := Ex.state [] (Some Ex.snapshot) in
  let evs := [EvOpen; EvError; EvClose; EvTimeout; EvOpen; EvClose] in
  sockets (feed_handlers evs s) = 2%nat ∧
  Forall (fun t => t = (3000, ConnectWebSocket)) (timeouts (feed_handlers evs s)).
Proof.
  intros s evs. split; [reflexivity|].
  apply (reconnects_match_closes evs s). constructor.
Defined.

Lemma feed_traffic_keeps_timers (ev : FeedEvent) (s : State) :
  is_traffic ev = true →
  intervals (feed_handler ev s) = intervals s ∧
  keepAliveInterval (feed_handler ev s) = keepAliveInterval s ∧
  handles (feed_handler ev s) = handles s.
Proof.
  destruct ev as [|f| | |]; try discriminate; intros _; simpl.
  - destruct f as [|st [d|]]; simpl; try (repeat split; fail);
      destruct (negb _); repeat split.
  - repeat split.
Qed.

Lemma feed_traffic_keeps_timers_all (evs : list FeedEvent) (s : State) :
  forallb is_traffic evs = true →
  intervals (feed_handlers evs s) = intervals s ∧
  keepAliveInterval (feed_handlers evs s) = keepAliveInterval s ∧
  handles (feed_handlers evs s) = handles s.
Proof.
  revert s. induction evs as [|ev evs IH]; intros s H; [repeat split|].
  simpl in H. apply andb_true_iff in H as [Hev Hevs].
  rewrite feed_handlers_cons.
  destruct (IH (feed_handler ev s) Hevs) as (-> & -> & ->).
  apply feed_traffic_keeps_timers. exact Hev.
Qed.

(** X2: the keep-alive timer does not outlive its connection.  When the
    handles of the live intervals are in use already, a connection that
    opens, receives any messages and errors, and closes leaves exactly the
    intervals that were live before it opened, with the snapshot
    unavailable. *)
Theorem keep_alive_ends_with_connection (evs : list FeedEvent) (s : State) :
  fresh_handles s →
  forallb is_traffic evs = true →
  let s' := feed_handlers (EvOpen :: evs ++ [EvClose]) s in
  intervals s' = intervals s ∧ fresh_handles s' ∧ stockData s' = None.
Proof.
  intros Hfresh Hevs s'. unfold s'.
  rewrite feed_handlers_cons, feed_handlers_app.
  destruct (feed_traffic_keeps_timers_all evs (on_open s) Hevs) as (Hi & Hk & Hh).
  change (feed_handler EvOpen s) with (on_open s).
  set (t := feed_handlers evs (on_open s)) in *.
  change (feed_handlers [EvClose] t) with (on_close t).
  simpl in Hi, Hk, Hh.
  assert (Hint : intervals (on_close t) = intervals s).
  { unfold on_close, setTimeout, clearInterval. rewrite Hk. simpl. rewrite Hi.
    apply set_eq. intros h. rewrite elem_of_difference, elem_of_union, !elem_of_singleton.
    split; [tauto|]. intros Hin. split; [right; exact Hin|].
    intros ->. specialize (Hfresh _ Hin). lia. }
  split; [exact Hint|]. split.
  - intros h Hin. rewrite Hint in Hin. specialize (Hfresh h Hin).
    unfold on_close, setTimeout, clearInterval. rewrite Hk. simpl. rewrite Hh. lia.
  - unfold on_close, setTimeout. reflexivity.
Qed.

Lemma keep_alive_ends_with_connection_witness :
  let s := Ex.state [] None in
  let evs := [EvMessage (Payload "success" (Some Ex.snapshot)); EvError] in
  intervals (feed_handlers (EvOpen :: evs ++ [EvClose]) s) = intervals s.
Proof.
  intros s evs.
  apply (keep_alive_ends_with_connection evs s).
  - intros h Hh. apply elem_of_empty in Hh. destruct Hh.
  - reflexivity.
Defined.

Lemma stockData_after_event (ev : FeedEvent) (s : State) :
  stockData (feed_handler ev s) = None ∨
  stockData (feed_handler ev s) = stockData s ∨
  ∃ d, ev = EvMessage (Payload "success" (Some d)) ∧ stockData (feed_handler ev s) = Some d.
Proof.
  destruct ev as [|f| | |]; simpl.
  - right. left. reflexivity.
  - destruct f as [|st [d|]]; simpl.
    + right. left. reflexivity.
    + destruct (String.eqb_spec st "success") as [->|Hne]; simpl.
      * right. right. exists d. split; reflexivity.
      * right. left. reflexivity.
    + right. left. destruct (negb _); reflexivity.
  - left. reflexivity.
  - left. reflexivity.
  - right. left. unfold on_timeout. destruct (timeouts s) as [|[delay []] rest]; reflexivity.
Qed.

(** X3: the snapshot store only ever holds what the feed delivered with
    status "success".  After any sequence of feed events the store is
    absent, or what it was before, or the data of a successful frame of the
    sequence.  The last event decides: after a close or an error the store
    is absent, after a successful frame it holds that frame's data, and a
    frame that does not parse, has no data or has another status leaves the
    store as it was. *)
Theorem store_holds_successful_payloads (evs : list FeedEvent) (s : State) :
  (stockData (feed_handlers evs s) = None ∨
   stockData (feed_handlers evs s) = stockData s ∨
   ∃ d, EvMessage (Payload "success" (Some d)) ∈ evs ∧
        stockData (feed_handlers evs s) = Some d) ∧
  stockData (feed_handlers (evs ++ [EvClose]) s) = None ∧
  stockData (feed_handlers (evs ++ [EvError]) s) = None ∧
  (∀ d, stockData (feed_handlers (evs ++ [EvMessage (Payload "success" (Some d))]) s)
        = Some d) ∧
  stockData (feed_handlers (evs ++ [EvMessage Garbage]) s) = stockData (feed_handlers evs s) ∧
  (∀ st, stockData (feed_handlers (evs ++ [EvMessage (Payload st None)]) s)
         = stockData (feed_handlers evs s)) ∧
  (∀ st d, st ≠ "success" →
           stockData (feed_handlers (evs ++ [EvMessage (Payload st d)]) s)
           = stockData (feed_handlers evs s)).
Proof.
  split.
  { revert s. induction evs as [|ev evs IH]; intros s.
    - right. left. reflexivity.
    - rewrite feed_handlers_cons.
      destruct (IH (feed_handler ev s)) as [H|[H|(d & Hd & H)]].
      + left. exact H.
      + rewrite H. destruct (stockData_after_event ev s) as [H'|[H'|(d & -> & H')]].
        * left. exact H'.
        * right. left. exact H'.
        * right. right. exists d. split; [apply list_elem_of_here|exact H'].
      + right. right. exists d. split; [apply list_elem_of_further; exact Hd|exact H]. }
  split; [rewrite feed_handlers_app; reflexivity|].
  split; [rewrite feed_handlers_app; reflexivity|].
  split; [intros d; rewrite feed_handlers_app; reflexivity|].
  split; [rewrite feed_handlers_app; reflexivity|]. split.
  - intros st. rewrite feed_handlers_app. simpl. destruct (negb _); reflexivity.
  - intros st d Hne. rewrite feed_handlers_app. simpl.
    destruct (String.eqb_spec st "success") as [->|_]; [contradiction|reflexivity].
Qed.

Lemma store_holds_successful_payloads_witness :
  let s := Ex.state [] (Some Ex.snapshot) in
  stockData (feed_handlers ([EvOpen] ++ [EvMessage (Payload "fail" (Some Ex.restock))]) s)
  = Some Ex.snapshot.
Proof.
  intros s.
  destruct (store_holds_successful_payloads [EvOpen] s) as (_ & _ & _ & _ & _ & _ & H).
  rewrite (H "fail" (Some Ex.restock)); [reflexivity|discriminate].
Defined.

(** ** What a pass over the categories reports *)

Section PassReport.
Context (env : Env).

Lemma forEach_check_inv_in (P : list string * gmap string Z → State → Prop) watch items :
  (∀ item acc s acc1 s1,
      item ∈ items → P acc s → check_item env watch item acc s = Ok acc1 s1 → P acc1 s1) →
  ∀ acc s acc' s', P acc s →
    forEach items (check_item env watch) acc s = Ok acc' s' → P acc' s'.
Proof.
  induction items as [|item items IH]; intros Hstep acc s acc' s' HP.
  - intros [= <- <-]. exact HP.
  - simpl. unfold bind.
    destruct (check_item env watch item acc s) as [acc1 s1|e s1] eqn:Heq; [|discriminate].
    apply IH.
    + intros it a t a1 t1 Hin. apply Hstep. apply list_elem_of_further. exact Hin.
    + eapply Hstep; [apply list_elem_of_here|exact HP|exact Heq].
Qed.

Lemma check_category_inv_in (P : list string * gmap string Z → State → Prop)
      watch category data acc s acc' s' :
  stockData s = Some data →
  (∀ item acc t acc1 t1,
      item ∈ category_items (category data) → P acc t →
      check_item env watch item acc t = Ok acc1 t1 → P acc1 t1) →
  P acc s →
  check_category env watch category acc s = Ok acc' s' →
  P acc' s'.
Proof.
  intros Hd Hstep HP. unfold check_category.
  destruct (0 <? length watch)%nat; [|intros [= <- <-]; exact HP].
  rewrite Hd. destruct (category data) as [|items|]; [|..|discriminate].
  - intros [= <- <-]. exact HP.
  - simpl in Hstep. apply (forEach_check_inv_in P watch items Hstep acc s acc' s' HP).
Qed.

Lemma check_category_keeps_stockData watch category acc s acc' s' :
  check_category env watch category acc s = Ok acc' s' → stockData s' = stockData s.
Proof.
  intros H. destruct (check_category_frame env watch category acc s) as (n & Hn & _).
  rewrite H in Hn. simpl in Hn. subst s'. reflexivity.
Qed.

(** An invariant of the checks of a user, knowing the category of each
    item checked. *)
Lemma check_user_inv_in (P : list string * gmap string Z → State → Prop)
      user data s acc' s' :
  stockData s = Some data →
  (∀ c item acc t acc1 t1,
      c ∈ categories user data → item ∈ c.2 → P acc t →
      check_item env c.1 item acc t = Ok acc1 t1 → P acc1 t1) →
  P ([], ledger_of user) s →
  check_user env user s = Ok acc' s' →
  P acc' s'.
Proof.
  intros Hd Hstep HP. unfold check_user, bind.
  destruct (check_category env (User.seeds user) _ _ s) as [a1 s1|] eqn:H1; [|discriminate].
  destruct (check_category env (User.gear user) _ _ s1) as [a2 s2|] eqn:H2; [|discriminate].
  destruct (check_category env (User.eggs user) _ _ s2) as [a3 s3|] eqn:H3; [|discriminate].
  intros H4.
  pose proof (check_category_keeps_stockData _ _ _ _ _ _ H1) as D1. rewrite Hd in D1.
  pose proof (check_category_keeps_stockData _ _ _ _ _ _ H2) as D2. rewrite D1 in D2.
  pose proof (check_category_keeps_stockData _ _ _ _ _ _ H3) as D3. rewrite D2 in D3.
  assert (C1 : (User.seeds user, category_items (Stock.seed data)) ∈ categories user data)
    by apply list_elem_of_here.
  assert (C2 : (User.gear user, category_items (Stock.gear data)) ∈ categories user data)
    by (do 1 apply list_elem_of_further; apply list_elem_of_here).
  assert (C3 : (User.eggs user, category_items (Stock.egg data)) ∈ categories user data)
    by (do 2 apply list_elem_of_further; apply list_elem_of_here).
  assert (C4 : (User.travelingmerchant user, category_items (Stock.travelingmerchant data))
               ∈ categories user data)
    by (do 3 apply list_elem_of_further; apply list_elem_of_here).
  eapply (check_category_inv_in P) in H1;
    [|exact Hd|intros it b t b1 t1 Hin; exact (Hstep _ it b t b1 t1 C1 Hin)|exact HP].
  eapply (check_category_inv_in P) in H2;
    [|exact D1|intros it b t b1 t1 Hin; exact (Hstep _ it b t b1 t1 C2 Hin)|exact H1].
  eapply (check_category_inv_in P) in H3;
    [|exact D2|intros it b t b1 t1 Hin; exact (Hstep _ it b t b1 t1 C3 Hin)|exact H2].
  eapply (check_category_inv_in P) in H4;
    [|exact D3|intros it b t b1 t1 Hin; exact (Hstep _ it b t b1 t1 C4 Hin)|exact H3].
  exact H4.
Qed.

(** The lines are those of watched items in stock, and only their names
    are written in the ledger. *)
Lemma check_user_sound user data s acc' s' :
  stockData s = Some data →
  check_user env user s = Ok acc' s' →
  ∃ hits, acc'.1 = line <$> hits ∧
          Forall (watched_in_stock user data) hits ∧
          ∀ n, n ∉ (Item.name <$> hits) → acc'.2 !! n = ledger_of user !! n.
Proof.
  intros Hd Hrun.
  apply (check_user_inv_in
           (fun acc _ => ∃ hits, acc.1 = line <$> hits ∧
                                 Forall (watched_in_stock user data) hits ∧
                                 ∀ n, n ∉ (Item.name <$> hits) →
                                      acc.2 !! n = ledger_of user !! n)
           user data s acc' s' Hd); [| |exact Hrun].
  - intros c item acc t acc1 t1 Hc Hin (hits & Hl & Hw & Hk). rewrite check_item_eq.
    destruct (bool_decide (Item.name item ∈ c.1) && (0 <? Item.quantity item)) eqn:Hcond;
      [|intros [= <- _]; exists hits; auto].
    destruct (DAY <? _); [|intros [= <- _]; exists hits; auto].
    destruct (map_key_ok (Item.name item)); [|discriminate].
    intros [= <- _]. apply andb_true_iff in Hcond as [Hn Hq].
    apply bool_decide_eq_true in Hn. apply Z.ltb_lt in Hq.
    exists (hits ++ [item])%list. simpl. split; [|split].
    + rewrite Hl, fmap_app. reflexivity.
    + apply Forall_app. split; [exact Hw|]. constructor; [|constructor].
      split; [exact Hq|]. exists c. auto.
    + intros n Hn'. rewrite fmap_app in Hn'. simpl in Hn'.
      rewrite elem_of_app, list_elem_of_singleton in Hn'.
      rewrite lookup_insert_ne by (intros Heq; apply Hn'; right; symmetry; exact Heq).
      apply Hk. intros Hin'. apply Hn'. left. exact Hin'.
  - exists []. split; [reflexivity|]. split; [constructor|]. intros n _. reflexivity.
Qed.
End PassReport.

(** X4: a pass reports only what the user asked for.  When the checks of a
    user return, every line buffered is the line of an item of the current
    snapshot with a positive quantity whose name is on the user's watchlist
    of the item's category, and the ledger differs from the stored one only
    at the names of those items. *)
Theorem alerts_are_watched_and_in_stock (env : Env) user data s lines ledger s' :
  stockData s = Some data →
  check_user env user s = Ok (lines, ledger) s' →
  ∃ hits, lines = line <$> hits ∧
          Forall (watched_in_stock user data) hits ∧
          ∀ n, n ∉ (Item.name <$> hits) → ledger !! n = ledger_of user !! n.
Proof.
  intros Hd Hrun. exact (check_user_sound env user data s (lines, ledger) s' Hd Hrun).
Qed.

Lemma alerts_are_watched_and_in_stock_witness :
  let s := Ex.state [Ex.bob] (Some Ex.snapshot) in
  ∃ hits, [line Ex.carrot; line Ex.wrench] = line <$> hits ∧
          Forall (watched_in_stock Ex.bob Ex.snapshot) hits ∧
          ∀ n, n ∉ (Item.name <$> hits) →
               ({[ "Carrot" := Ex.clock 1; "Wrench" := Ex.clock 3 ]} : gmap string Z) !! n
               = ledger_of Ex.bob !! n.
Proof.
  intros s.
  apply (alerts_are_watched_and_in_stock Ex.env Ex.bob Ex.snapshot s _ _ (set_ticks 4 s)).
  - reflexivity.
  - vm_compute. reflexivity.
Defined.

Section PassCooldown.
Context (env : Env).

(** A name whose stored entry is no older than 24 hours at every reading
    of the pass is skipped by every check. *)
Lemma check_user_skips_fresh user s acc' s' n T :
  ledger_of user !! n = Some T →
  (∀ k, (ticks s <= k < ticks s')%nat → Date_now env k <= T + DAY) →
  check_user env user s = Ok acc' s' →
  acc'.2 !! n = Some T ∧ ∃ hits, acc'.1 = line <$> hits ∧ n ∉ (Item.name <$> hits).
Proof.
  intros HT Hclock Hrun.
  pose (P := fun (acc : list string * gmap string Z) (t : State) =>
               (ticks t <= ticks s')%nat →
               (ticks s <= ticks t)%nat ∧ acc.2 !! n = Some T ∧
               ∃ hits, acc.1 = line <$> hits ∧ n ∉ (Item.name <$> hits)).
  assert (HP : P acc' s').
  { apply (check_user_inv env P user s acc' s'); [| |exact Hrun].
    - intros watch item acc t acc1 t1 Hacc. rewrite check_item_eq.
      destruct (_ && _).
      + destruct (DAY <? _) eqn:Ht.
        * destruct (map_key_ok (Item.name item)); [|discriminate].
          intros [= <- <-] Hle. simpl in Hle.
          destruct Hacc as (Hlo & Hn & hits & Hl & Hnot); [lia|].
          apply Z.ltb_lt in Ht.
          assert (Hne : Item.name item ≠ n).
          { intros Heq. rewrite Heq, Hn in Ht. simpl in Ht.
            specialize (Hclock (ticks t)). lia. }
          simpl. split; [lia|]. split; [rewrite lookup_insert_ne by exact Hne; exact Hn|].
          exists (hits ++ [item])%list. split; [rewrite Hl, fmap_app; reflexivity|].
          rewrite fmap_app. simpl. rewrite elem_of_app, list_elem_of_singleton.
          intros [Hin|Heq]; [exact (Hnot Hin)|exact (Hne (eq_sym Heq))].
        * intros [= <- <-] Hle. simpl in Hle.
          destruct Hacc as (Hlo & Hn & Hh); [lia|]. simpl. split; [lia|]. split; assumption.
      + intros [= <- <-] Hle. exact (Hacc Hle).
    - intros _. split; [lia|]. split; [exact HT|]. exists []. split; [reflexivity|].
      apply not_elem_of_nil. }
  destruct HP as (_ & Hn & Hh); [lia|]. split; assumption.
Qed.

Lemma check_item_keeps_entry watch item (acc : list string * gmap string Z) s acc1 s1 n :
  is_Some (acc.2 !! n) →
  check_item env watch item acc s = Ok acc1 s1 →
  is_Some (acc1.2 !! n).
Proof.
  intros Hn. rewrite check_item_eq.
  destruct (_ && _); [destruct (DAY <? _); [destruct (map_key_ok _); [|discriminate]|]|];
    intros [= <- _]; try exact Hn.
  simpl. destruct (decide (Item.name item = n)) as [->|Hne].
  - rewrite lookup_insert_eq. eauto.
  - rewrite lookup_insert_ne by exact Hne. exact Hn.
Qed.

Hypothesis clock_after_epoch : ∀ k, DAY < Date_now env k.

Lemma check_item_marks watch item (acc : list string * gmap string Z) s acc1 s1 :
  Item.name item ∈ watch → 0 < Item.quantity item →
  check_item env watch item acc s = Ok acc1 s1 →
  is_Some (acc1.2 !! Item.name item).
Proof.
  intros Hw Hq. rewrite check_item_eq.
  rewrite bool_decide_eq_true_2 by exact Hw.
  replace (0 <? Item.quantity item) with true by (symmetry; apply Z.ltb_lt; exact Hq).
  simpl. destruct (DAY <? _) eqn:Ht;
    [destruct (map_key_ok (Item.name item)); [|discriminate]|]; intros [= <- _]; simpl.
  - rewrite lookup_insert_eq. eauto.
  - destruct (acc.2 !! Item.name item) as [t|] eqn:Hl; [eauto|].
    simpl in Ht. apply Z.ltb_ge in Ht. specialize (clock_after_epoch (ticks s)). lia.
Qed.

Lemma forEach_marks watch items item acc s acc' s' :
  item ∈ items → Item.name item ∈ watch → 0 < Item.quantity item →
  forEach items (check_item env watch) acc s = Ok acc' s' →
  is_Some (acc'.2 !! Item.name item).
Proof.
  intros Hin Hw Hq. revert acc s.
  induction items as [|x items IH]; intros acc s; [apply elem_of_nil in Hin; destruct Hin|].
  simpl. unfold bind.
  destruct (check_item env watch x acc s) as [acc1 s1|e s1] eqn:Heq; [|discriminate].
  apply elem_of_cons in Hin as [->|Hin].
  - intros Hrest.
    pose proof (check_item_marks watch x acc s acc1 _ Hw Hq Heq) as Hm.
    apply (forEach_check_inv env (fun a _ => is_Some (a.2 !! Item.name x)) watch)
      with (items := items) (acc := acc1) (s := s1) (s' := s'); [|exact Hm|exact Hrest].
    intros it a t a1 t1 Ha. apply check_item_keeps_entry. exact Ha.
  - apply IH. exact Hin.
Qed.

Lemma check_category_marks watch category data item acc s acc' s' :
  stockData s = Some data →
  item ∈ category_items (category data) →
  Item.name item ∈ watch → 0 < Item.quantity item →
  check_category env watch category acc s = Ok acc' s' →
  is_Some (acc'.2 !! Item.name item).
Proof.
  intros Hd Hin Hw Hq. unfold check_category.
  assert (Hlen : (0 <? length watch)%nat = true).
  { apply Nat.ltb_lt. destruct watch; [apply elem_of_nil in Hw; destruct Hw|simpl; lia]. }
  rewrite Hlen, Hd.
  destruct (category data) as [|items|]; simpl in Hin;
    [apply elem_of_nil in Hin; destruct Hin| |discriminate].
  apply forEach_marks; assumption.
Qed.

Lemma check_category_keeps_entry watch category acc s acc' s' n :
  is_Some (acc.2 !! n) →
  check_category env watch category acc s = Ok acc' s' →
  is_Some (acc'.2 !! n).
Proof.
  intros Hn Hrun.
  apply (check_category_inv env (fun a _ => is_Some (a.2 !! n)) watch category acc s acc' s');
    [|exact Hn|exact Hrun].
  intros it a t a1 t1 Ha. apply check_item_keeps_entry. exact Ha.
Qed.

Lemma check_user_marks user data item s acc' s' :
  stockData s = Some data →
  watched_in_stock user data item →
  check_user env user s = Ok acc' s' →
  is_Some (acc'.2 !! Item.name item).
Proof.
  intros Hd (Hq & c & Hc & Hw & Hin). unfold check_user, bind.
  destruct (check_category env (User.seeds user) _ _ s) as [a1 s1|] eqn:H1; [|discriminate].
  destruct (check_category env (User.gear user) _ _ s1) as [a2 s2|] eqn:H2; [|discriminate].
  destruct (check_category env (User.eggs user) _ _ s2) as [a3 s3|] eqn:H3; [|discriminate].
  intros H4.
  pose proof (check_category_keeps_stockData _ _ _ _ _ _ _ H1) as D1. rewrite Hd in D1.
  pose proof (check_category_keeps_stockData _ _ _ _ _ _ _ H2) as D2. rewrite D1 in D2.
  pose proof (check_category_keeps_stockData _ _ _ _ _ _ _ H3) as D3. rewrite D2 in D3.
  unfold categories in Hc.
  apply elem_of_cons in Hc as [->|Hc]; [|apply elem_of_cons in Hc as [->|Hc];
    [|apply elem_of_cons in Hc as [->|Hc]; [|apply list_elem_of_singleton in Hc as ->]]];
    simpl in Hw, Hin.
  - eapply check_category_keeps_entry; [|exact H4].
    eapply check_category_keeps_entry; [|exact H3].
    eapply check_category_keeps_entry; [|exact H2].
    eapply check_category_marks; [exact Hd|exact Hin|exact Hw|exact Hq|exact H1].
  - eapply check_category_keeps_entry; [|exact H4].
    eapply check_category_keeps_entry; [|exact H3].
    eapply check_category_marks; [exact D1|exact Hin|exact Hw|exact Hq|exact H2].
  - eapply check_category_keeps_entry; [|exact H4].
    eapply check_category_marks; [exact D2|exact Hin|exact Hw|exact Hq|exact H3].
  - eapply check_category_marks; [exact D3|exact Hin|exact Hw|exact Hq|exact H4].
Qed.
End PassCooldown.

(** X5: the cooldown holds over a whole pass.  If the stored ledger of a
    user has an entry [T] for a name and every reading of the clock taken
    during the pass is at most 24 hours after [T], then no line of the pass
    is for an item of that name, in any category, and the entry is still
    [T] afterwards. *)
Theorem fresh_entry_is_not_renotified (env : Env) user s lines ledger s' n T :
  ledger_of user !! n = Some T →
  (∀ k, (ticks s <= k < ticks s')%nat → Date_now env k <= T + DAY) →
  check_user env user s = Ok (lines, ledger) s' →
  ledger !! n = Some T ∧ ∃ hits, lines = line <$> hits ∧ n ∉ (Item.name <$> hits).
Proof.
  intros HT Hclock Hrun.
  exact (check_user_skips_fresh env user s (lines, ledger) s' n T HT Hclock Hrun).
Qed.

Lemma fresh_entry_is_not_renotified_witness :
  let recent : User.t :=
    User.mk "1002" "Bob" ["Carrot"] ["Wrench"] [] [] (Some {[ "Carrot" := Ex.t0 - 1000 ]}) in
  let s := Ex.state [recent] (Some Ex.snapshot) in
  ({[ "Carrot" := Ex.t0 - 1000; "Wrench" := Ex.clock 2 ]} : gmap string Z) !! "Carrot"
  = Some (Ex.t0 - 1000) ∧
  ∃ hits, [line Ex.wrench] = line <$> hits ∧ "Carrot" ∉ (Item.name <$> hits).
Proof.
  intros recent s.
  apply (fresh_entry_is_not_renotified Ex.env recent s _ _ (set_ticks 3 s)).
  - reflexivity.
  - intros k Hk. simpl in Hk. unfold Ex.env, Ex.clock, DAY. simpl. lia.
  - vm_compute. reflexivity.
Defined.

(** X6: a pass misses nothing.  With a clock later than 24 hours after the
    epoch, when the checks of a user return, the name of every watched item
    of the snapshot that is in stock has an entry in the ledger; and if the
    stored ledger had no entry for it, a line for an item of that name was
    buffered. *)
Theorem watched_stock_is_reported (env : Env) user data item s lines ledger s' :
  (∀ k, DAY < Date_now env k) →
  stockData s = Some data →
  watched_in_stock user data item →
  check_user env user s = Ok (lines, ledger) s' →
  is_Some (ledger !! Item.name item) ∧
  (ledger_of user !! Item.name item = None →
   ∃ hits, lines = line <$> hits ∧ Item.name item ∈ (Item.name <$> hits)).
Proof.
  intros Hclock Hd Hw Hrun.
  pose proof (check_user_marks env Hclock user data item s (lines, ledger) s' Hd Hw Hrun) as Hm.
  split; [exact Hm|]. intros Hnone.
  destruct (check_user_sound env user data s (lines, ledger) s' Hd Hrun) as (hits & Hl & _ & Hk).
  exists hits. split; [exact Hl|].
  destruct (decide (Item.name item ∈ (Item.name <$> hits))) as [Hin|Hnot]; [exact Hin|].
  exfalso. simpl in Hk, Hm. rewrite (Hk _ Hnot), Hnone in Hm. destruct Hm as [x Hx]. discriminate Hx.
Qed.

Lemma watched_stock_is_reported_witness :
  let s := Ex.state [Ex.bob] (Some Ex.snapshot) in
  ∃ hits, [line Ex.carrot; line Ex.wrench] = line <$> hits ∧
          "Wrench" ∈ (Item.name <$> hits).
Proof.
  intros s.
  assert (Hc : ∀ k, DAY < Date_now Ex.env k).
  { intros k. unfold Ex.env, Ex.clock, Ex.t0, DAY. simpl. lia. }
  assert (Hw : watched_in_stock Ex.bob Ex.snapshot Ex.wrench).
  { split; [reflexivity|]. exists (User.gear Ex.bob, category_items (Stock.gear Ex.snapshot)).
    split; [apply list_elem_of_further, list_elem_of_here|].
    split; apply list_elem_of_here. }
  assert (Hrun : check_user Ex.env Ex.bob s
                 = Ok ([line Ex.carrot; line Ex.wrench],
                       {[ "Carrot" := Ex.clock 1; "Wrench" := Ex.clock 3 ]}) (set_ticks 4 s))
    by (vm_compute; reflexivity).
  destruct (watched_stock_is_reported Ex.env Ex.bob Ex.snapshot Ex.wrench s _ _ _
              Hc eq_refl Hw Hrun) as [_ H].
  apply H. reflexivity.
Defined.

(** ** What a matching run sends and writes *)

Section RunEffects.
Context (env : Env).

Lemma cache_resume s :
  unregisteredMessageCache (resume env s) = unregisteredMessageCache s.
Proof. apply resume_frame. Qed.

Lemma cache_posted uid msg s :
  unregisteredMessageCache (posted env uid msg s) = unregisteredMessageCache s.
Proof. apply posted_frame. Qed.

(** The loop body posts at most one text, to its user, and writes at most
    the ledger of that user. *)
Lemma process_user_effects user s :
  let s' := state_of (process_user env user s) in
  (outbox s' = outbox s ∨
   ∃ p, outbox s' = (outbox s ++ [p])%list ∧ recipient p = User.uid user ∧
        ∃ t, message p = Text t) ∧
  unregisteredMessageCache s' = unregisteredMessageCache s ∧
  (users s' = users s ∨ ∃ ledger, users s' = updateOne (User.uid user) ledger (users s)).
Proof.
  intros s'. unfold s'. rewrite process_user_eq.
  destruct (check_user_frame env user s) as (n & Hn & _).
  destruct (check_user env user s) as [acc s1|e s1]; simpl in Hn; subst s1;
    [|split; [left; reflexivity|split; [reflexivity|left; reflexivity]]].
  destruct (0 <? length acc.1)%nat;
    [|split; [left; reflexivity|split; [reflexivity|left; reflexivity]]].
  rewrite User_updateOne_eq, users_posted.
  destruct (store_ok env _); cbn [state_of].
  - split; [|split].
    + right. eexists. cbn [outbox set_users]. rewrite outbox_resume, outbox_posted.
      split; [reflexivity|]. split; [reflexivity|]. eexists. reflexivity.
    + cbn [unregisteredMessageCache set_users]. rewrite cache_resume, cache_posted. reflexivity.
    + right. eexists. reflexivity.
  - split; [|split].
    + right. eexists. rewrite outbox_resume, outbox_posted.
      split; [reflexivity|]. split; [reflexivity|]. eexists. reflexivity.
    + rewrite cache_resume, cache_posted. reflexivity.
    + left. rewrite users_resume, users_posted. reflexivity.
Qed.

Lemma same_prefs_refl (docs : list User.t) : Forall2 same_prefs docs docs.
Proof. induction docs; constructor; [repeat split|assumption]. Qed.

Lemma same_prefs_trans (d1 d2 d3 : list User.t) :
  Forall2 same_prefs d1 d2 → Forall2 same_prefs d2 d3 → Forall2 same_prefs d1 d3.
Proof.
  intros H12. revert d3. induction H12 as [|x y l1 l2 Hxy _ IH]; intros d3 H23.
  - inversion H23. constructor.
  - inversion H23 as [|y' z l2' l3 Hyz Hrest]; subst. constructor; [|apply IH; exact Hrest].
    destruct Hxy as (?&?&?&?&?&?), Hyz as (?&?&?&?&?&?). repeat split; congruence.
Qed.

Lemma same_prefs_updateOne uid ledger (docs : list User.t) :
  Forall2 same_prefs docs (updateOne uid ledger docs).
Proof.
  induction docs as [|d docs IH]; simpl; [constructor|].
  destruct (String.eqb (User.uid d) uid).
  - constructor; [repeat split|apply same_prefs_refl].
  - constructor; [repeat split|exact IH].
Qed.

Lemma for_of_effects us s :
  let s' := state_of (for_of us (process_user env) s) in
  (∃ new, outbox s' = (outbox s ++ new)%list ∧
          sublist (recipient <$> new) (User.uid <$> us) ∧
          Forall (fun p => ∃ t, message p = Text t) new) ∧
  unregisteredMessageCache s' = unregisteredMessageCache s ∧
  Forall2 same_prefs (users s) (users s').
Proof.
  revert s. induction us as [|u us IH]; intros s; simpl.
  - split; [|split; [reflexivity|apply same_prefs_refl]].
    exists []. rewrite app_nil_r. split; [reflexivity|]. split; constructor.
  - unfold bind.
    destruct (process_user_effects u s) as (Ho & Hc & Hu).
    assert (Hp : Forall2 same_prefs (users s) (users (state_of (process_user env u s)))).
    { destruct Hu as [->|(ledger & ->)]; [apply same_prefs_refl|apply same_prefs_updateOne]. }
    assert (Hnew : ∃ new1, outbox (state_of (process_user env u s)) = (outbox s ++ new1)%list ∧
                           sublist (recipient <$> new1) [User.uid u] ∧
                           Forall (fun p => ∃ t, message p = Text t) new1).
    { destruct Ho as [->|(p & -> & Hr & Ht)].
      - exists []. rewrite app_nil_r. split; [reflexivity|]. split; [apply sublist_nil_l|constructor].
      - exists [p]. split; [reflexivity|]. split; [simpl; rewrite Hr; reflexivity|].
        constructor; [exact Ht|constructor]. }
    destruct Hnew as (new1 & Ho1 & Hs1 & Ht1).
    destruct (process_user env u s) as [[] s1|e s1]; simpl in Ho1, Hc, Hp |- *.
    + destruct (IH s1) as ((new2 & Ho2 & Hs2 & Ht2) & Hc2 & Hp2).
      split; [|split].
      * exists (new1 ++ new2)%list. rewrite Ho2, Ho1, <- app_assoc. split; [reflexivity|].
        split; [|apply Forall_app; split; assumption].
        rewrite fmap_app.
        apply (sublist_app (recipient <$> new1) [User.uid u]
                           (recipient <$> new2) (User.uid <$> us)); assumption.
      * rewrite Hc2. exact Hc.
      * exact (same_prefs_trans _ _ _ Hp Hp2).
    + split; [|split; [exact Hc|exact Hp]].
      exists new1. split; [exact Ho1|]. split; [|exact Ht1].
      rewrite <- (app_nil_r (recipient <$> new1)).
      apply (sublist_app (recipient <$> new1) [User.uid u] [] (User.uid <$> us));
        [exact Hs1|apply sublist_nil_l].
Qed.

Lemma cron_job_effects s :
  let s' := state_of (cron_job env s) in
  (∃ new, outbox s' = (outbox s ++ new)%list ∧
          sublist (recipient <$> new) (User.uid <$> users s) ∧
          Forall (fun p => ∃ t, message p = Text t) new) ∧
  unregisteredMessageCache s' = unregisteredMessageCache s ∧
  Forall2 same_prefs (users s) (users s').
Proof.
  assert (Hnone : ∀ t, outbox t = outbox s → unregisteredMessageCache t = unregisteredMessageCache s →
                       users t = users s →
                       (∃ new, outbox t = (outbox s ++ new)%list ∧
                               sublist (recipient <$> new) (User.uid <$> users s) ∧
                               Forall (fun p => ∃ t, message p = Text t) new) ∧
                       unregisteredMessageCache t = unregisteredMessageCache s ∧
                       Forall2 same_prefs (users s) (users t)).
  { intros t Ho Hc Hu. split; [|split; [exact Hc|rewrite Hu; apply same_prefs_refl]].
    exists []. rewrite app_nil_r. split; [exact Ho|]. split; [apply sublist_nil_l|constructor]. }
  intros s'. unfold s', cron_job.
  destruct (stockData s); [|apply Hnone; reflexivity].
  unfold try_catch, bind. rewrite User_find_eq.
  destruct (store_ok env (awaits s)); cbn [state_of];
    [|apply Hnone; [apply outbox_resume|apply cache_resume|apply users_resume]].
  pose proof (for_of_effects (users s) (resume env s)) as H.
  rewrite outbox_resume, cache_resume, users_resume in H.
  destruct (for_of (users s) (process_user env) (resume env s)) as [[] s1|e s1]; exact H.
Qed.
End RunEffects.

(** X7: a matching run sends each user at most one message.  Whatever its
    outcome, the posts of a run are added after those made before; their
    recipients are [uid]s of the collection, in the order of the
    collection, each document at most once; every one is a text; and the
    run does not touch the cache of the registration prompts. *)
Theorem run_posts_once_per_user (env : Env) (s : State) :
  ∃ new, outbox (state_of (cron_job env s)) = (outbox s ++ new)%list ∧
         sublist (recipient <$> new) (User.uid <$> users s) ∧
         Forall (fun p => ∃ t, message p = Text t) new ∧
         unregisteredMessageCache (state_of (cron_job env s)) = unregisteredMessageCache s.
Proof.
  destruct (cron_job_effects env s) as ((new & Ho & Hs & Ht) & Hc & _).
  exists new. auto.
Qed.

(** X8: a matching run writes nothing but ledgers.  Whatever its outcome,
    the collection afterwards has the same documents in the same order,
    each with its [uid], name and four watchlists unchanged. *)
Theorem run_keeps_preferences (env : Env) (s : State) :
  Forall2 same_prefs (users s) (users (state_of (cron_job env s))).
Proof. apply (cron_job_effects env s). Qed.

Section NothingToReport.
Context (env : Env).

Lemma process_user_nothing user data s :
  stockData s = Some data →
  (∀ item, ¬ watched_in_stock user data item) →
  ∃ n, state_of (process_user env user s) = set_ticks n s.
Proof.
  intros Hd Hnone. rewrite process_user_eq.
  destruct (check_user_frame env user s) as (n & Hn & _).
  destruct (check_user env user s) as [acc s1|e s1] eqn:Hc; simpl in Hn; subst s1;
    [|exists n; reflexivity].
  destruct (check_user_sound env user data s acc _ Hd Hc) as (hits & Hl & Hw & _).
  destruct hits as [|it hits].
  - rewrite Hl. simpl. exists n. reflexivity.
  - inversion Hw as [|? ? Hit _]; subst. destruct (Hnone it Hit).
Qed.

Lemma for_of_nothing us data s :
  stockData s = Some data →
  (∀ u item, u ∈ us → ¬ watched_in_stock u data item) →
  ∃ n, state_of (for_of us (process_user env) s) = set_ticks n s.
Proof.
  revert s. induction us as [|u us IH]; intros s Hd Hnone.
  - exists (ticks s). simpl. rewrite set_ticks_id. reflexivity.
  - simpl. unfold bind.
    destruct (process_user_nothing u data s Hd) as (n & Hn).
    { intros item. apply Hnone. apply list_elem_of_here. }
    destruct (process_user env u s) as [[] s1|e s1]; simpl in Hn; subst s1;
      [|exists n; reflexivity].
    destruct (IH (set_ticks n s)) as (m & Hm).
    + exact Hd.
    + intros u' item Hin. apply Hnone. apply list_elem_of_further. exact Hin.
    + exists m. rewrite Hm. reflexivity.
Qed.
End NothingToReport.

(** X9: when nothing that anyone watches is in stock, a run is silent.  If
    no feed event arrives during the run and no document of the collection
    has a watched item with a positive quantity in the snapshot, the run
    sends nothing and leaves the collection and the snapshot as they were,
    also when a category of the snapshot is malformed. *)
Theorem run_without_matches_is_silent (env : Env) (s : State) (data : Stock.t) :
  (∀ k, feed_during env k = []) →
  stockData s = Some data →
  (∀ u item, u ∈ users s → ¬ watched_in_stock u data item) →
  outbox (state_of (cron_job env s)) = outbox s ∧
  users (state_of (cron_job env s)) = users s ∧
  stockData (state_of (cron_job env s)) = Some data.
Proof.
  intros Hq Hd Hnone. unfold cron_job. rewrite Hd.
  unfold try_catch, bind. rewrite User_find_eq, (resume_quiet env Hq).
  destruct (store_ok env (awaits s)); cbn [state_of]; [|repeat split; exact Hd].
  destruct (for_of_nothing env (users s) data (set_awaits (S (awaits s)) s) Hd Hnone)
    as (n & Hn).
  destruct (for_of (users s) (process_user env) (set_awaits (S (awaits s)) s)) as [[] s1|e s1];
    simpl in Hn; subst s1; repeat split; exact Hd.
Qed.

Lemma run_without_matches_is_silent_witness :
  let sold_out := Stock.mk (ItemsArray [Item.mk "Carrot" 0 None]) ItemsOther ItemsAbsent ItemsAbsent in
  let s := Ex.state [Ex.ann; Ex.dan] (Some sold_out) in
  outbox (state_of (cron_job Ex.env s)) = [] ∧
  users (state_of (cron_job Ex.env s)) = [Ex.ann; Ex.dan] ∧
  stockData (state_of (cron_job Ex.env s)) = Some sold_out.
Proof.
  intros sold_out s.
  apply (run_without_matches_is_silent Ex.env s sold_out).
  - intros k. reflexivity.
  - reflexivity.
  - intros u item Hu (Hq & c & Hc & Hw & Hin).
    unfold s, Ex.state in Hu. simpl in Hu.
    apply elem_of_cons in Hu as [->|Hu]; [|apply list_elem_of_singleton in Hu as ->];
      unfold categories in Hc; simpl in Hc;
      repeat (apply elem_of_cons in Hc as [->|Hc]); simpl in Hw, Hin;
      try (apply elem_of_nil in Hc; destruct Hc);
      try (apply elem_of_nil in Hin; destruct Hin);
      try (apply elem_of_nil in Hw; destruct Hw);
      apply list_elem_of_singleton in Hin; subst item; simpl in Hq; lia.
Defined.

(** ** The registration prompt, for any recipient id *)

Lemma sendRegistrationMessage_invalid (env : Env) (uid : string) (s : State) :
  valid_uid uid = false →
  sendRegistrationMessage env uid s =
  Ok tt match unregisteredMessageCache s !! uid with
        | Some t0 => if t0 =? 0 then s else set_ticks (S (ticks s)) s
        | None => s
        end.
Proof.
  intros Hv. unfold sendRegistrationMessage.
  destruct (unregisteredMessageCache s !! uid) as [t0|].
  - destruct (t0 =? 0).
    + unfold bind at 1. simpl. rewrite Hv. reflexivity.
    + unfold bind at 1 2. unfold now at 1. simpl.
      destruct (Date_now env (ticks s) - t0 <? MESSAGE_COOLDOWN); [reflexivity|].
      rewrite Hv. reflexivity.
  - unfold bind at 1. simpl. rewrite Hv. reflexivity.
Qed.

(** X10: a prompt attempt is confined to its recipient.  For any id and any
    state, it posts nothing or exactly the registration template addressed
    to that id, leaves the collection and the cache entries of all other ids
    alone; and for an id that is not all digits it posts nothing, awaits
    nothing and leaves the cache as it is. *)
Theorem prompt_is_confined (env : Env) (uid : string) (s : State) :
  let s' := state_of (sendRegistrationMessage env uid s) in
  users s' = users s ∧
  (∀ u, u ≠ uid → unregisteredMessageCache s' !! u = unregisteredMessageCache s !! u) ∧
  (outbox s' = outbox s ∨
   outbox s' = (outbox s ++ [mkPost uid (RegistrationTemplate uid) (post_ok env (awaits s))])%list) ∧
  (valid_uid uid = false →
   outbox s' = outbox s ∧
   unregisteredMessageCache s' = unregisteredMessageCache s ∧
   awaits s' = awaits s).
Proof.
  intros s'. unfold s'.
  assert (Hsent : ∀ t, users t = users s → unregisteredMessageCache t = unregisteredMessageCache s →
                       outbox t = outbox s → awaits t = awaits s →
                       users (prompted env uid t) = users s ∧
                       (∀ u, u ≠ uid → unregisteredMessageCache (prompted env uid t) !! u
                                       = unregisteredMessageCache s !! u) ∧
                       outbox (prompted env uid t)
                       = (outbox s ++ [mkPost uid (RegistrationTemplate uid)
                                              (post_ok env (awaits s))])%list).
  { intros t Hu Hc Ho Ha.
    destruct (prompted_frame env uid t) as (Ho' & Hc' & _).
    split; [|split].
    - unfold prompted. cbn [users set_cache set_ticks]. rewrite users_posted. exact Hu.
    - intros u Hne. rewrite Hc', lookup_insert_ne by congruence. rewrite Hc. reflexivity.
    - rewrite Ho', Ho, Ha. reflexivity. }
  destruct (valid_uid uid) eqn:Hv.
  - rewrite sendRegistrationMessage_eq by exact Hv.
    destruct (unregisteredMessageCache s !! uid) as [t0|].
    + destruct (t0 =? 0).
      * destruct (Hsent s) as (Hu & Hc & Ho); try reflexivity. cbn [state_of].
        split; [exact Hu|]. split; [exact Hc|]. split; [right; exact Ho|discriminate].
      * destruct (_ <? _); cbn [state_of].
        -- split; [reflexivity|]. split; [reflexivity|]. split; [left; reflexivity|discriminate].
        -- destruct (Hsent (set_ticks (S (ticks s)) s)) as (Hu & Hc & Ho); try reflexivity.
           split; [exact Hu|]. split; [exact Hc|]. split; [right; exact Ho|discriminate].
    + destruct (Hsent s) as (Hu & Hc & Ho); try reflexivity. cbn [state_of].
      split; [exact Hu|]. split; [exact Hc|]. split; [right; exact Ho|discriminate].
  - assert (Hstay : ∀ t, users t = users s →
                         unregisteredMessageCache t = unregisteredMessageCache s →
                         outbox t = outbox s → awaits t = awaits s →
                         users t = users s ∧
                         (∀ u, u ≠ uid → unregisteredMessageCache t !! u
                                         = unregisteredMessageCache s !! u) ∧
                         (outbox t = outbox s ∨
                          outbox t = (outbox s ++ [mkPost uid (RegistrationTemplate uid)
                                                          (post_ok env (awaits s))])%list) ∧
                         (false = false →
                          outbox t = outbox s ∧
                          unregisteredMessageCache t = unregisteredMessageCache s ∧
                          awaits t = awaits s)).
    { intros t Hu Hc Ho Ha. split; [exact Hu|]. split; [intros u _; rewrite Hc; reflexivity|].
      split; [left; exact Ho|]. intros _. auto. }
    rewrite sendRegistrationMessage_invalid by exact Hv. cbn [state_of].
    destruct (unregisteredMessageCache s !! uid) as [t0|]; [destruct (t0 =? 0)|];
      apply Hstay; reflexivity.
Qed.

Lemma prompt_is_confined_witness :
  let s := Ex.state [] None in
  outbox (state_of (sendRegistrationMessage Ex.env "12a4" s)) = [] ∧
  unregisteredMessageCache (state_of (sendRegistrationMessage Ex.env "12a4" s)) = ∅ ∧
  awaits (state_of (sendRegistrationMessage Ex.env "12a4" s)) = 0%nat.
Proof.
  intros s.
  destruct (prompt_is_confined Ex.env "12a4" s) as (_ & _ & _ & H).
  apply H. reflexivity.
Defined.

(** ** Quantities away from the halves *)

Lemma formatValue_thousands (v : Z) :
  1000 <= v < 1000000 →
  ∃ n, formatValue v = "x" +:+ show_tenths n +:+ "K" ∧ nearest_tenth v 1000 n.
Proof.
  intros Hk. unfold formatValue.
  replace (1000000 <=? v) with false by (symmetry; apply Z.leb_gt; lia).
  replace (1000 <=? v) with true by (symmetry; apply Z.leb_le; lia).
  destruct (js_div_Number v 1000 ltac:(lia) ltac:(lia)) as (m & E & -> & HE & Hm & Herr).
  exists (tenths m (- E)). split; [reflexivity|].
  assert (HP : 0 < 2 ^ E) by (apply Z.pow_pos_nonneg; lia).
  assert (v * 2 ^ E <= 999999 * 2 ^ E) by (apply Z.mul_le_mono_nonneg_r; lia).
  apply (tenths_nearest v 50 m E); [exact HE|lia|lia|exact Herr].
Qed.

Lemma formatValue_millions (v : Z) :
  1000000 <= v < 2 ^ 53 →
  ∃ n, formatValue v = "x" +:+ show_tenths n +:+ "M" ∧ nearest_tenth v 1000000 n.
Proof.
  intros Hb. unfold formatValue.
  replace (1000000 <=? v) with true by (symmetry; apply Z.leb_le; lia).
  destruct (js_div_Number v 1000000 ltac:(lia) ltac:(lia)) as (m & E & -> & HE & Hm & Herr).
  exists (tenths m (- E)). split; [reflexivity|].
  assert (HP : 0 < 2 ^ E) by (apply Z.pow_pos_nonneg; lia).
  assert (v * 2 ^ E <= (2 ^ 53 - 1) * 2 ^ E) by (apply Z.mul_le_mono_nonneg_r; lia).
  assert (H18 : 18 < E) by (apply pow2_above; lia).
  assert (2 ^ 19 <= 2 ^ E) by (apply Z.pow_le_mono_r; lia).
  apply (tenths_nearest v 50000 m E); [exact HE|lia|lia|exact Herr].
Qed.

(** X11: away from the exact halves, [formatValue] rounds as on paper.  For
    a quantity below [2^53] that is not halfway between two tenths of its
    unit, the tenths printed are [(v + 50) / 100] for thousands and
    [(v + 50000) / 100000] for millions, the binary64 division
    notwithstanding; so the quantities from 999,951 to 999,999 print as
    "x1000.0K", not as "x1.0M". *)
Theorem formatValue_off_halves (v : Z) :
  0 <= v < 2 ^ 53 →
  (1000 <= v < 1000000 → v mod 100 ≠ 50 →
   formatValue v = "x" +:+ show_tenths ((v + 50) / 100) +:+ "K") ∧
  (1000000 <= v → v mod 100000 ≠ 50000 →
   formatValue v = "x" +:+ show_tenths ((v + 50000) / 100000) +:+ "M") ∧
  (999950 < v < 1000000 → formatValue v = "x1000.0K").
Proof.
  intros Hv.
  assert (HK : 1000 <= v < 1000000 → v mod 100 ≠ 50 →
               formatValue v = "x" +:+ show_tenths ((v + 50) / 100) +:+ "K").
  { intros Hk Hne. destruct (formatValue_thousands v Hk) as (n & -> & Hn).
    unfold nearest_tenth in Hn. replace ((v + 50) / 100) with n; [reflexivity|].
    assert (Hm := Z.div_mod v 100 ltac:(lia)).
    assert (Hr := Z.mod_pos_bound v 100 ltac:(lia)).
    apply Z.div_unique with (r := v + 50 - 100 * n); [left|]; lia. }
  split; [exact HK|]. split.
  - intros Hb Hne. destruct (formatValue_millions v ltac:(lia)) as (n & -> & Hn).
    unfold nearest_tenth in Hn. replace ((v + 50000) / 100000) with n; [reflexivity|].
    assert (Hm := Z.div_mod v 100000 ltac:(lia)).
    assert (Hr := Z.mod_pos_bound v 100000 ltac:(lia)).
    apply Z.div_unique with (r := v + 50000 - 100000 * n); [left|]; lia.
  - intros Hr.
    assert (Hm := Z.div_mod v 100 ltac:(lia)).
    assert (Hb := Z.mod_pos_bound v 100 ltac:(lia)).
    rewrite HK by lia.
    replace ((v + 50) / 100) with 10000; [reflexivity|].
    apply Z.div_unique with (r := v + 50 - 100 * 10000); [left|]; lia.
Qed.

Lemma formatValue_off_halves_witness :
  formatValue 12345 = "x" +:+ show_tenths ((12345 + 50) / 100) +:+ "K".
Proof.
  destruct (formatValue_off_halves 12345) as (H & _ & _).
  - split; [discriminate|reflexivity].
  - apply H; [split; [discriminate|reflexivity]|discriminate].
Defined.

(** ** The store operations of the routes *)

Lemma findOne_None uid docs :
  findOne uid docs = None ↔ uid ∉ (User.uid <$> docs).
Proof.
  unfold findOne. induction docs as [|d docs IH]; simpl.
  - split; [intros _; apply not_elem_of_nil|reflexivity].
  - destruct (String.eqb (User.uid d) uid) eqn:He.
    + apply String.eqb_eq in He. split; [discriminate|].
      intros Hn. exfalso. apply Hn. rewrite He. apply list_elem_of_here.
    + apply String.eqb_neq in He. rewrite IH, not_elem_of_cons. split; [|intros [_ H]; exact H].
      intros H. split; [congruence|exact H].
Qed.

Lemma findOne_unique uid docs u :
  NoDup (User.uid <$> docs) → u ∈ docs → User.uid u = uid → findOne uid docs = Some u.
Proof.
  unfold findOne. induction docs as [|x docs IH]; intros Hnd Hin Hu.
  - apply elem_of_nil in Hin. destruct Hin.
  - rewrite fmap_cons in Hnd. apply NoDup_cons in Hnd as (Hx & Hnd).
    cbn [find]. apply elem_of_cons in Hin as [->|Hin].
    + rewrite Hu, String.eqb_refl. reflexivity.
    + destruct (String.eqb (User.uid x) uid) eqn:He; [|apply IH; assumption].
      apply String.eqb_eq in He. exfalso. apply Hx. rewrite He, <- Hu.
      apply list_elem_of_fmap_2. exact Hin.
Qed.

(** The document written by the upsert, and what it inherits. *)
Lemma findOneAndUpdate_found uid name a b c d docs :
  let r := findOneAndUpdate uid name a b c d docs in
  findOne uid r.1 = Some r.2 ∧
  User.uid r.2 = uid ∧ User.name r.2 = name ∧ User.seeds r.2 = a ∧ User.gear r.2 = b ∧
  User.eggs r.2 = c ∧ User.travelingmerchant r.2 = d ∧
  ledger_of r.2 = match findOne uid docs with Some u => ledger_of u | None => ∅ end.
Proof.
  unfold findOne. induction docs as [|x docs IH]; simpl.
  - rewrite String.eqb_refl. repeat split.
  - destruct (String.eqb (User.uid x) uid) eqn:He; simpl.
    + rewrite He. apply String.eqb_eq in He. repeat split; exact He.
    + rewrite He. exact IH.
Qed.

Lemma findOneAndUpdate_others uid name a b c d docs uid' :
  uid' ≠ uid →
  findOne uid' (findOneAndUpdate uid name a b c d docs).1 = findOne uid' docs.
Proof.
  intros Hne. unfold findOne. induction docs as [|x docs IH]; simpl.
  - replace (String.eqb uid uid') with false; [reflexivity|].
    symmetry. apply String.eqb_neq. congruence.
  - destruct (String.eqb (User.uid x) uid) eqn:He; simpl.
    + apply String.eqb_eq in He.
      replace (String.eqb (User.uid x) uid') with false; [reflexivity|].
      symmetry. apply String.eqb_neq. congruence.
    + rewrite IH. reflexivity.
Qed.

Lemma findOneAndUpdate_uids uid name a b c d docs :
  User.uid <$> (findOneAndUpdate uid name a b c d docs).1 =
  match findOne uid docs with
  | Some _ => User.uid <$> docs
  | None => (User.uid <$> docs) ++ [uid]
  end%list.
Proof.
  unfold findOne. induction docs as [|x docs IH]; [reflexivity|].
  cbn [findOneAndUpdate find].
  destruct (String.eqb (User.uid x) uid) eqn:He; [reflexivity|].
  cbn [fst]. rewrite fmap_cons, IH. destruct (find _ docs); reflexivity.
Qed.

Lemma findOneAndUpdate_ledgers uid name a b c d docs :
  Forall2 (λ u u', User.uid u = User.uid u' ∧ ledger_of u = ledger_of u')
          docs (take (length docs) (findOneAndUpdate uid name a b c d docs).1).
Proof.
  induction docs as [|x docs IH]; [constructor|].
  cbn [findOneAndUpdate]. destruct (String.eqb (User.uid x) uid); cbn [fst length take].
  - constructor; [split; reflexivity|]. rewrite firstn_all.
    apply Forall2_same_length_lookup_2; [reflexivity|].
    intros i u u' Hu Hu'. rewrite Hu in Hu'. injection Hu' as <-. split; reflexivity.
  - constructor; [split; reflexivity|exact IH].
Qed.

Lemma User_findOne_eq (env : Env) uid s :
  User_findOne env uid s =
  if store_ok env (awaits s) then Ok (findOne uid (users s)) (resume env s)
  else Exn StoreError (resume env s).
Proof.
  unfold User_findOne, bind, suspend. rewrite users_resume. reflexivity.
Qed.

Lemma User_findOneAndUpdate_eq (env : Env) uid name a b c d s :
  User_findOneAndUpdate env uid name a b c d s =
  if store_ok env (awaits s) then
    Ok (findOneAndUpdate uid name a b c d (users s)).2
       (set_users (findOneAndUpdate uid name a b c d (users s)).1 (resume env s))
  else Exn StoreError (resume env s).
Proof.
  unfold User_findOneAndUpdate, bind, suspend. rewrite users_resume. reflexivity.
Qed.

(** ** The route [/save-preferences] *)

(** Input that fails none of the three checks. *)
Lemma save_input_fine (trim : string → string) uid name (a b c d : list string) :
  ¬ (valid_uid (trim uid) = false ∨ trim name = "" ∨ (a = [] ∧ b = [] ∧ c = [] ∧ d = [])) →
  valid_uid (trim uid) = true ∧ trim name ≠ "" ∧ ¬ (a = [] ∧ b = [] ∧ c = [] ∧ d = []).
Proof.
  intros Hgood. split; [|split].
  - destruct (valid_uid (trim uid)); [reflexivity|]. exfalso. apply Hgood. left. reflexivity.
  - intros E. apply Hgood. right. left. exact E.
  - intros E. apply Hgood. right. right. exact E.
Qed.

Lemma save_preferences_rejected (env : Env) (trim : string → string) uid name a b c d s :
  valid_uid (trim uid) = false ∨ trim name = "" ∨ (a = [] ∧ b = [] ∧ c = [] ∧ d = []) →
  ∃ t, save_preferences env trim uid name a b c d s = Ok (mkReply 400 false t) s.
Proof.
  intros H. unfold save_preferences, try_catch.
  destruct (valid_uid (trim uid)) eqn:Hv; simpl; [|eexists; reflexivity].
  destruct (String.eqb (trim name) "") eqn:Hn; [eexists; reflexivity|].
  destruct H as [H|[H|(-> & -> & -> & ->)]]; [discriminate| |eexists; reflexivity].
  apply String.eqb_neq in Hn. contradiction.
Qed.

Lemma save_preferences_accepted (env : Env) (trim : string → string) uid name a b c d s :
  valid_uid (trim uid) = true → trim name ≠ "" → ¬ (a = [] ∧ b = [] ∧ c = [] ∧ d = []) →
  save_preferences env trim uid name a b c d s =
  if store_ok env (awaits s) then
    if store_ok env (S (awaits s)) then
      let r := findOneAndUpdate (trim uid) (trim name) a b c d (users s) in
      let mode := match findOne (trim uid) (users s) with
                  | Some _ => "Edit Mode" | None => "New" end in
      Ok (mkReply 200 true "Preferences saved and confirmation sent on Messenger.")
         (posted env (trim uid) (Text (registeredMsg r.2 mode))
            (set_cache (delete (trim uid) (unregisteredMessageCache s))
               (set_users r.1 (resume env (resume env s)))))
    else Ok (mkReply 500 false "Failed to save preferences. Please try again.")
            (resume env (resume env s))
  else Ok (mkReply 500 false "Failed to save preferences. Please try again.")
          (resume env s).
Proof.
  intros Hv Hn Hl. unfold save_preferences, try_catch. cbv zeta. rewrite Hv.
  cbn [negb].
  apply String.eqb_neq in Hn. rewrite Hn.
  replace ((length a =? 0)%nat && (length b =? 0)%nat && (length c =? 0)%nat
           && (length d =? 0)%nat) with false.
  2:{ destruct a; [|reflexivity]. destruct b; [|reflexivity]. destruct c; [|reflexivity].
      destruct d; [|reflexivity]. exfalso. apply Hl. repeat split. }
  unfold bind at 1. cbv beta. rewrite User_findOne_eq.
  destruct (store_ok env (awaits s)) eqn:H1; [|reflexivity].
  unfold bind at 1. cbv beta. rewrite User_findOneAndUpdate_eq.
  destruct (resume_frame env s) as (_ & Ha & Hu & Hc & _).
  rewrite Ha, Hu.
  destruct (store_ok env (S (awaits s))) eqn:H2; [|reflexivity].
  unfold bind at 1. unfold bind at 1. cbv beta. rewrite sendMessengerMessage_eq.
  cbn [unregisteredMessageCache set_users]. rewrite cache_resume, Hc. reflexivity.
Qed.

Lemma save_preferences_users (env : Env) (trim : string → string) uid name a b c d s :
  users (state_of (save_preferences env trim uid name a b c d s)) = users s ∨
  users (state_of (save_preferences env trim uid name a b c d s))
  = (findOneAndUpdate (trim uid) (trim name) a b c d (users s)).1.
Proof.
  destruct (decide (valid_uid (trim uid) = false ∨ trim name = ""
                    ∨ (a = [] ∧ b = [] ∧ c = [] ∧ d = []))) as [Hbad|Hgood].
  - destruct (save_preferences_rejected env trim uid name a b c d s Hbad) as (t & ->).
    left. reflexivity.
  - destruct (save_input_fine trim uid name a b c d Hgood) as (Hv & Hn & Hl).
    rewrite (save_preferences_accepted env trim uid name a b c d s Hv Hn Hl).
    destruct (store_ok env (awaits s)); [destruct (store_ok env (S (awaits s)))|];
      cbn [state_of].
    + right. rewrite users_posted. reflexivity.
    + left. rewrite !users_resume. reflexivity.
    + left. rewrite !users_resume. reflexivity.
Qed.

(** X12: the replies of [/save-preferences].  The handler always answers:
    with status 400 exactly when the trimmed uid is not numeric, the trimmed
    name is empty or all four lists are empty, and then before the store is
    touched, the state being as it was; with status 500 exactly when the
    input is fine and one of the two store calls fails; [success] is true
    exactly with status 200. *)
Theorem save_replies (env : Env) (trim : string → string)
        (uid name : string) (a b c d : list string) (s : State) :
  ∃ r s',
    save_preferences env trim uid name a b c d s = Ok r s' ∧
    (status r = 400 ↔
     valid_uid (trim uid) = false ∨ trim name = "" ∨ (a = [] ∧ b = [] ∧ c = [] ∧ d = [])) ∧
    (status r = 400 → s' = s) ∧
    (status r = 500 ↔
     ¬ (valid_uid (trim uid) = false ∨ trim name = "" ∨ (a = [] ∧ b = [] ∧ c = [] ∧ d = [])) ∧
     (store_ok env (awaits s) = false ∨ store_ok env (S (awaits s)) = false)) ∧
    (success r = true ↔ status r = 200).
Proof.
  destruct (decide (valid_uid (trim uid) = false ∨ trim name = ""
                    ∨ (a = [] ∧ b = [] ∧ c = [] ∧ d = []))) as [Hbad|Hgood].
  - destruct (save_preferences_rejected env trim uid name a b c d s Hbad) as (t & ->).
    eexists _, _. split; [reflexivity|]. cbn [status success].
    split; [split; [intros _; exact Hbad|reflexivity]|].
    split; [reflexivity|].
    split; [split; [discriminate|intros [Hn _]; contradiction]|].
    split; discriminate.
  - destruct (save_input_fine trim uid name a b c d Hgood) as (Hv & Hn & Hl).
    rewrite (save_preferences_accepted env trim uid name a b c d s Hv Hn Hl).
    destruct (store_ok env (awaits s)) eqn:H1; [destruct (store_ok env (S (awaits s))) eqn:H2|];
      eexists _, _; (split; [reflexivity|]); cbn [status success].
    + split; [split; [discriminate|intros E; contradiction]|].
      split; [discriminate|].
      split; [split; [discriminate|intros [_ [E|E]]; discriminate]|].
      split; reflexivity.
    + split; [split; [discriminate|intros E; contradiction]|].
      split; [discriminate|].
      split; [split; [intros _; split; [exact Hgood|right; reflexivity]|reflexivity]|].
      split; discriminate.
    + split; [split; [discriminate|intros E; contradiction]|].
      split; [discriminate|].
      split; [split; [intros _; split; [exact Hgood|left; reflexivity]|reflexivity]|].
      split; discriminate.
Qed.

Lemma save_replies_witness :
  let s := Ex.state [Ex.ann] None in
  ∃ r, save_preferences Ex.env ExRoutes.trim " 12a4 " "Ann" ["Carrot"] [] [] [] s = Ok r s
       ∧ status r = 400.
Proof.
  intros s.
  destruct (save_replies Ex.env ExRoutes.trim " 12a4 " "Ann" ["Carrot"] [] [] [] s)
    as (r & s' & Hrun & H400 & Hs & _).
  assert (E : status r = 400) by (apply H400; left; reflexivity).
  exists r. rewrite <- (Hs E) at 2. split; [exact Hrun|exact E].
Defined.

(** X13: what a successful save stores.  With fine input and a store that
    answers, the document of the trimmed uid carries the trimmed name and
    the four lists as given and the ledger that the uid had before (an
    empty one for a new uid); the documents found under other uids are the
    same; the prompt cache forgets the uid; one confirmation is posted to
    the uid, and the reply is the 200 one whether that post is delivered or
    not. *)
Theorem save_stores_preferences (env : Env) (trim : string → string)
        (uid name : string) (a b c d : list string) (s : State) :
  valid_uid (trim uid) = true → trim name ≠ "" → ¬ (a = [] ∧ b = [] ∧ c = [] ∧ d = []) →
  store_ok env (awaits s) = true → store_ok env (S (awaits s)) = true →
  ∃ u s',
    save_preferences env trim uid name a b c d s
    = Ok (mkReply 200 true "Preferences saved and confirmation sent on Messenger.") s' ∧
    findOne (trim uid) (users s') = Some u ∧
    User.uid u = trim uid ∧ User.name u = trim name ∧
    User.seeds u = a ∧ User.gear u = b ∧ User.eggs u = c ∧ User.travelingmerchant u = d ∧
    ledger_of u = match findOne (trim uid) (users s) with
                  | Some u0 => ledger_of u0 | None => ∅ end ∧
    (∀ uid', uid' ≠ trim uid → findOne uid' (users s') = findOne uid' (users s)) ∧
    unregisteredMessageCache s' = delete (trim uid) (unregisteredMessageCache s) ∧
    outbox s'
    = (outbox s ++
       [mkPost (trim uid)
               (Text (registeredMsg u match findOne (trim uid) (users s) with
                                      | Some _ => "Edit Mode" | None => "New" end))
               (post_ok env (S (S (awaits s))))])%list.
Proof.
  intros Hv Hn Hl H1 H2.
  rewrite (save_preferences_accepted env trim uid name a b c d s Hv Hn Hl), H1, H2. cbv zeta.
  destruct (findOneAndUpdate_found (trim uid) (trim name) a b c d (users s))
    as (Hf & Hu & Hna & Ha & Hb & Hc & Hd & Hled).
  exists (findOneAndUpdate (trim uid) (trim name) a b c d (users s)).2.
  eexists. split; [reflexivity|].
  rewrite users_posted, cache_posted, outbox_posted.
  cbn [users unregisteredMessageCache outbox awaits set_cache set_users].
  rewrite !outbox_resume.
  destruct (resume_frame env (resume env s)) as (_ & -> & _).
  destruct (resume_frame env s) as (_ & -> & _).
  repeat (split; [assumption|]).
  split; [intros uid' Hne; apply findOneAndUpdate_others; exact Hne|].
  split; reflexivity.
Qed.

Lemma save_stores_preferences_witness :
  let s := Ex.state [Ex.ann] None in
  ∃ u s',
    save_preferences Ex.env ExRoutes.trim " 1002 " "Bob " ["Carrot"] ["Wrench"] [] [] s
    = Ok (mkReply 200 true "Preferences saved and confirmation sent on Messenger.") s' ∧
    findOne "1002" (users s') = Some u ∧ User.name u = "Bob" ∧
    findOne "1001" (users s') = Some Ex.ann.
Proof.
  intros s.
  destruct (save_stores_preferences Ex.env ExRoutes.trim " 1002 " "Bob "
              ["Carrot"] ["Wrench"] [] [] s)
    as (u & s' & Hrun & Hf & _ & Hn & _ & _ & _ & _ & _ & Ho & _).
  - reflexivity.
  - intros E. vm_compute in E. discriminate E.
  - intros (E & _). discriminate E.
  - reflexivity.
  - reflexivity.
  - exists u, s'. split; [exact Hrun|]. split; [exact Hf|]. split; [exact Hn|].
    apply (Ho "1001"). intros E. vm_compute in E. discriminate E.
Defined.

(** X14: a save that does not answer 200 changes nothing: the collection,
    the prompt cache and the outbox are as before, also when the first store
    call went through and the second one failed. *)
Theorem failed_save_changes_nothing (env : Env) (trim : string → string)
        (uid name : string) (a b c d : list string) (s s' : State) (r : Reply) :
  save_preferences env trim uid name a b c d s = Ok r s' →
  status r ≠ 200 →
  users s' = users s ∧
  unregisteredMessageCache s' = unregisteredMessageCache s ∧
  outbox s' = outbox s.
Proof.
  intros Hrun Hst.
  destruct (decide (valid_uid (trim uid) = false ∨ trim name = ""
                    ∨ (a = [] ∧ b = [] ∧ c = [] ∧ d = []))) as [Hbad|Hgood].
  - destruct (save_preferences_rejected env trim uid name a b c d s Hbad) as (t & E).
    rewrite E in Hrun. injection Hrun as <- <-. repeat split.
  - destruct (save_input_fine trim uid name a b c d Hgood) as (Hv & Hn & Hl).
    rewrite (save_preferences_accepted env trim uid name a b c d s Hv Hn Hl) in Hrun.
    destruct (store_ok env (awaits s)); [destruct (store_ok env (S (awaits s)))|];
      injection Hrun as <- <-.
    + exfalso. apply Hst. reflexivity.
    + rewrite !users_resume, !cache_resume, !outbox_resume. repeat split.
    + rewrite !users_resume, !cache_resume, !outbox_resume. repeat split.
Qed.

Lemma failed_save_changes_nothing_witness :
  let s := Ex.state [Ex.ann] None in
  let run := save_preferences ExRoutes.env_store_down ExRoutes.trim
               "1001" "Ann" [] ["Wrench"] [] [] s in
  run = Ok (mkReply 500 false "Failed to save preferences. Please try again.") (state_of run) ∧
  users (state_of run) = [Ex.ann] ∧
  unregisteredMessageCache (state_of run) = ∅ ∧
  outbox (state_of run) = [].
Proof.
  intros s run.
  assert (Hrun : run = Ok (mkReply 500 false "Failed to save preferences. Please try again.")
                          (state_of run)) by reflexivity.
  split; [exact Hrun|].
  apply (failed_save_changes_nothing ExRoutes.env_store_down ExRoutes.trim
           "1001" "Ann" [] ["Wrench"] [] [] s (state_of run) _ Hrun).
  discriminate.
Defined.

(** X15: a save keeps one document per uid.  Whatever the input and the
    outcome, the uids of the collection afterwards are those before, in the
    same order, followed by the trimmed uid if the save inserted it, which
    it only does for a uid that no document had; so distinct uids stay
    distinct.  The documents that were there keep their ledgers, the one
    saved included. *)
Theorem save_keeps_one_document_per_uid (env : Env) (trim : string → string)
        (uid name : string) (a b c d : list string) (s : State) :
  NoDup (User.uid <$> users s) →
  let docs' := users (state_of (save_preferences env trim uid name a b c d s)) in
  NoDup (User.uid <$> docs') ∧
  (User.uid <$> docs' = User.uid <$> users s ∨
   ((trim uid ∉ (User.uid <$> users s)) ∧
    User.uid <$> docs' = ((User.uid <$> users s) ++ [trim uid])%list)) ∧
  Forall2 (λ u u', User.uid u = User.uid u' ∧ ledger_of u = ledger_of u')
          (users s) (take (length (users s)) docs').
Proof.
  intros Hnd docs'. unfold docs'.
  destruct (save_preferences_users env trim uid name a b c d s) as [->| ->].
  - split; [exact Hnd|]. split; [left; reflexivity|].
    rewrite firstn_all. apply Forall2_same_length_lookup_2; [reflexivity|].
    intros i u u' Hu Hu'. rewrite Hu in Hu'. injection Hu' as <-. split; reflexivity.
  - rewrite findOneAndUpdate_uids.
    split; [|split; [|apply findOneAndUpdate_ledgers]].
    + destruct (findOne (trim uid) (users s)) eqn:Hf; [exact Hnd|].
      apply findOne_None in Hf. apply NoDup_app. split; [exact Hnd|].
      split; [|apply NoDup_singleton].
      intros x Hx Hx'. apply list_elem_of_singleton in Hx'. subst x. contradiction.
    + destruct (findOne (trim uid) (users s)) eqn:Hf; [left; reflexivity|].
      right. split; [apply findOne_None; exact Hf|reflexivity].
Qed.

Lemma save_keeps_one_document_per_uid_witness :
  let s := Ex.state [Ex.ann; Ex.bob] None in
  NoDup (User.uid <$> users (state_of (save_preferences Ex.env ExRoutes.trim
                                         "1002 " "Bobby" ["Tulip"] [] [] [] s))).
Proof.
  intros s.
  apply (save_keeps_one_document_per_uid Ex.env ExRoutes.trim
           "1002 " "Bobby" ["Tulip"] [] [] [] s).
  apply (bool_decide_unpack _). vm_compute. reflexivity.
Defined.

(** ** The route [/check-uid] *)

Lemma check_uid_eq (env : Env) (trim : string → string) uid s :
  check_uid env trim uid s =
  if valid_uid (trim uid) then
    if store_ok env (awaits s) then
      Ok match findOne (trim uid) (users s) with
         | Some u => CheckEdit (User.name u) (User.seeds u) (User.gear u) (User.eggs u)
                               (User.travelingmerchant u)
         | None => CheckNew
         end (resume env s)
    else Exn StoreError (resume env s)
  else Ok (CheckInvalid "Invalid UID format. Please enter a numeric UID.") s.
Proof.
  unfold check_uid. cbv zeta. destruct (valid_uid (trim uid)); [|reflexivity].
  cbn [negb]. unfold bind. rewrite User_findOne_eq.
  destruct (store_ok env (awaits s)); [|reflexivity].
  destruct (findOne (trim uid) (users s)); reflexivity.
Qed.

(** X16: a check after a save shows what was saved.  When
    [/save-preferences] has answered 200, [/check-uid] with the same uid, on
    the state the save left and with a store that answers, reports edit
    mode with the trimmed name and the four lists of the save. *)
Theorem check_uid_after_save (env : Env) (trim : string → string)
        (uid name : string) (a b c d : list string) (s s' : State) (r : Reply) :
  save_preferences env trim uid name a b c d s = Ok r s' →
  status r = 200 →
  store_ok env (awaits s') = true →
  ∃ s'', check_uid env trim uid s' = Ok (CheckEdit (trim name) a b c d) s''.
Proof.
  intros Hrun Hst Hok.
  destruct (decide (valid_uid (trim uid) = false ∨ trim name = ""
                    ∨ (a = [] ∧ b = [] ∧ c = [] ∧ d = []))) as [Hbad|Hgood].
  { destruct (save_preferences_rejected env trim uid name a b c d s Hbad) as (t & E).
    rewrite E in Hrun. injection Hrun as <- <-. discriminate. }
  destruct (save_input_fine trim uid name a b c d Hgood) as (Hv & Hn & Hl).
  rewrite (save_preferences_accepted env trim uid name a b c d s Hv Hn Hl) in Hrun.
  destruct (store_ok env (awaits s)); [destruct (store_ok env (S (awaits s)))|];
    injection Hrun as <- <-; try discriminate.
  rewrite check_uid_eq, Hv, Hok, users_posted. cbn [users set_cache set_users].
  destruct (findOneAndUpdate_found (trim uid) (trim name) a b c d (users s))
    as (-> & _ & -> & -> & -> & -> & -> & _).
  eexists. reflexivity.
Qed.

Lemma check_uid_after_save_witness :
  let s := Ex.state [Ex.ann] None in
  let s' := state_of (save_preferences Ex.env ExRoutes.trim
                        " 1001" "Ann B." ["Carrot"; "Tulip"] [] [] [] s) in
  ∃ s'', check_uid Ex.env ExRoutes.trim " 1001" s'
         = Ok (CheckEdit "Ann B." ["Carrot"; "Tulip"] [] [] []) s''.
Proof.
  intros s s'.
  apply (check_uid_after_save Ex.env ExRoutes.trim " 1001" "Ann B."
           ["Carrot"; "Tulip"] [] [] [] s s'
           (mkReply 200 true "Preferences saved and confirmation sent on Messenger.")).
  - reflexivity.
  - reflexivity.
  - reflexivity.
Defined.

(** X17: [/check-uid] only reads.  It leaves the collection, the prompt
    cache, the outbox and the clock alone; a uid that is not numeric after
    trimming is turned down before the store is asked; for a numeric one
    and a store that answers the reply is "new" exactly when no document has
    the trimmed uid, and with distinct uids "edit" carries the fields of the
    document that has it; a store that fails raises out of the handler,
    which has no [catch]. *)
Theorem check_uid_reads_only (env : Env) (trim : string → string)
        (uid : string) (s : State) :
  let r := check_uid env trim uid s in
  (users (state_of r) = users s ∧
   unregisteredMessageCache (state_of r) = unregisteredMessageCache s ∧
   outbox (state_of r) = outbox s ∧ ticks (state_of r) = ticks s) ∧
  (valid_uid (trim uid) = false → ∃ t, r = Ok (CheckInvalid t) s) ∧
  (valid_uid (trim uid) = true → store_ok env (awaits s) = false →
   r = Exn StoreError (state_of r)) ∧
  (valid_uid (trim uid) = true → store_ok env (awaits s) = true →
   (r = Ok CheckNew (state_of r) ↔ trim uid ∉ (User.uid <$> users s)) ∧
   (∀ u, NoDup (User.uid <$> users s) → u ∈ users s → User.uid u = trim uid →
         r = Ok (CheckEdit (User.name u) (User.seeds u) (User.gear u) (User.eggs u)
                           (User.travelingmerchant u)) (state_of r))).
Proof.
  intros r. unfold r. rewrite check_uid_eq.
  destruct (resume_frame env s) as (Ht & _ & Hu & Hc & Ho).
  split; [|split; [|split]].
  - destruct (valid_uid (trim uid)); [destruct (store_ok env (awaits s))|]; cbn [state_of];
      rewrite ?Ht, ?Hu, ?Hc, ?Ho; repeat split.
  - intros ->. eexists. reflexivity.
  - intros -> ->. reflexivity.
  - intros -> ->. cbn [state_of]. split.
    + rewrite <- findOne_None. destruct (findOne (trim uid) (users s)); split;
        first [discriminate | reflexivity | intros E; injection E; discriminate].
    + intros u Hnd Hin Hid. rewrite (findOne_unique _ _ u Hnd Hin Hid). reflexivity.
Qed.

Lemma check_uid_reads_only_witness :
  let s := Ex.state [Ex.ann] None in
  check_uid ExRoutes.env_store_down ExRoutes.trim "1001" (resume Ex.env s)
  = Exn StoreError (state_of (check_uid ExRoutes.env_store_down ExRoutes.trim "1001"
                                        (resume Ex.env s))).
Proof.
  intros s.
  destruct (check_uid_reads_only ExRoutes.env_store_down ExRoutes.trim "1001"
              (resume Ex.env s)) as (_ & _ & H & _).
  apply H; reflexivity.
Defined.

(** ** The stock check *)

Lemma in_stock_nil (l : list Item.t) :
  in_stock l = [] ↔ ∀ i, i ∈ l → Item.quantity i <= 0.
Proof.
  unfold in_stock. induction l as [|x l IH]; cbn [List.filter].
  - split; [intros _ i Hi; apply elem_of_nil in Hi; destruct Hi|reflexivity].
  - destruct (0 <? Item.quantity x) eqn:Hq.
    + apply Z.ltb_lt in Hq. split; [discriminate|].
      intros H. specialize (H x (list_elem_of_here _ _)). lia.
    + apply Z.ltb_ge in Hq. rewrite IH. split.
      * intros H i Hi. apply elem_of_cons in Hi as [->|Hi]; [exact Hq|apply H; exact Hi].
      * intros H i Hi. apply H. apply list_elem_of_further. exact Hi.
Qed.

Lemma stock_section_eq title render c acc :
  stock_section title render c acc =
  match c with
  | ItemsOther => None
  | _ => Some (acc ++ match in_stock (category_items c) with
                      | [] => []
                      | items => [title +:+ nl +:+ String.concat nl (map render items)]
                      end)%list
  end.
Proof.
  destruct c as [|l|]; cbn [stock_section category_items in_stock filter];
    [rewrite app_nil_r; reflexivity| |reflexivity].
  change (List.filter (λ i, 0 <? Item.quantity i) l) with (in_stock l).
  destruct (in_stock l); cbn [length Nat.ltb Nat.leb]; [rewrite app_nil_r|]; reflexivity.
Qed.

(** A run of blocks of the stock check fails exactly at a category that is
    no array, and otherwise yields no section exactly when no category has
    an item of positive quantity. *)
Lemma stock_blocks (l : list (string * (Item.t → string) * Items)) (acc : list string) :
  (foldr (λ '(title, render, c) k acc,
            match stock_section title render c acc with
            | Some acc' => k acc'
            | None => None
            end) Some l acc = None ↔ ItemsOther ∈ l.*2) ∧
  (∀ sections,
     foldr (λ '(title, render, c) k acc,
              match stock_section title render c acc with
              | Some acc' => k acc'
              | None => None
              end) Some l acc = Some sections →
     (length acc ≤ length sections ∧ length sections ≤ length acc + length l)%nat ∧
     (sections = [] ↔
      acc = [] ∧ ∀ c i, c ∈ l.*2 → i ∈ category_items c → Item.quantity i <= 0)).
Proof.
  revert acc. induction l as [|[[title render] c] l IH]; intros acc; cbn [foldr fmap list_fmap snd].
  - split; [split; [discriminate|intros H; apply elem_of_nil in H; destruct H]|].
    intros sections [= <-]. split; [cbn [length]; lia|].
    split; [intros ->; split; [reflexivity|]|intros [-> _]; reflexivity].
    intros c i Hc. apply elem_of_nil in Hc. destruct Hc.
  - rewrite stock_section_eq.
    destruct c as [|items|].
    + destruct (IH (acc ++ [])%list) as (IHn & IHs). cbn [category_items in_stock List.filter].
      split.
      * rewrite IHn, elem_of_cons. split; [intros H; right; exact H|].
        intros [H|H]; [discriminate|exact H].
      * intros sections Hs. destruct (IHs sections Hs) as (Hlen & Hnil).
        rewrite app_nil_r in Hlen, Hnil. split; [cbn [length]; lia|].
        rewrite Hnil. split; intros [Ha H]; (split; [exact Ha|]); intros c i Hc Hi.
        -- apply elem_of_cons in Hc as [->|Hc]; [apply elem_of_nil in Hi; destruct Hi|].
           apply (H c i Hc Hi).
        -- apply (H c i); [apply list_elem_of_further; exact Hc|exact Hi].
    + cbn [category_items].
      match goal with |- context [foldr _ Some l ?a] =>
        destruct (IH a) as (IHn & IHs) end.
      split.
      * rewrite IHn, elem_of_cons. split; [intros H; right; exact H|].
        intros [H|H]; [discriminate|exact H].
      * intros sections Hs. destruct (IHs sections Hs) as (Hlen & Hnil).
        rewrite length_app in Hlen.
        split; [destruct (in_stock items); cbn [length] in *; lia|].
        rewrite Hnil. split.
        -- intros [Ha H]. apply app_eq_nil in Ha as (-> & Ha). split; [reflexivity|].
           intros c i Hc Hi. apply elem_of_cons in Hc as [->|Hc]; [|apply (H c i Hc Hi)].
           cbn [category_items] in Hi. revert i Hi. apply in_stock_nil.
           destruct (in_stock items); [reflexivity|discriminate].
        -- intros [-> H]. split.
           ++ assert (E : in_stock items = []).
              { apply in_stock_nil. intros i Hi.
                apply (H (ItemsArray items) i); [apply list_elem_of_here|exact Hi]. }
              rewrite E. reflexivity.
           ++ intros c i Hc Hi. apply (H c i); [apply list_elem_of_further; exact Hc|exact Hi].
    + split; [split; [intros _; apply list_elem_of_here|reflexivity]|discriminate].
Qed.

(** The six blocks of the stock check as one run. *)
Lemma stock_sections_eq (cosmetics honey : Stock.t → Items) data :
  stock_sections cosmetics honey data =
  foldr (λ '(title, render, c) k acc,
           match stock_section title render c acc with Some acc' => k acc' | None => None end)
        Some
        [("🌱 Seeds:", line, Stock.seed data); ("🛠️ Gear:", line, Stock.gear data);
         ("🥚 Eggs:", line, Stock.egg data);
         ("🚚 Traveling Merchant:", line, Stock.travelingmerchant data);
         ("🎨 Cosmetics:", bare_line, cosmetics data);
         ("🎉 Event (Honey):", bare_line, honey data)] [].
Proof.
  unfold stock_sections. cbn [foldr].
  repeat (match goal with |- context [stock_section ?t ?r ?c ?a] =>
            destruct (stock_section t r c a); [|reflexivity] end).
  reflexivity.
Qed.

(** The prompt stays with its recipient, whatever the id. *)
Lemma sendRegistrationMessage_confined (env : Env) uid s :
  let s' := state_of (sendRegistrationMessage env uid s) in
  users s' = users s ∧
  (∀ u, u ≠ uid → unregisteredMessageCache s' !! u = unregisteredMessageCache s !! u) ∧
  (outbox s' = outbox s ∨ ∃ p, outbox s' = (outbox s ++ [p])%list ∧ recipient p = uid).
Proof.
  intros s'. unfold s'.
  assert (Hsent : ∀ t, users t = users s →
                       unregisteredMessageCache t = unregisteredMessageCache s →
                       outbox t = outbox s →
                       users (prompted env uid t) = users s ∧
                       (∀ u, u ≠ uid → unregisteredMessageCache (prompted env uid t) !! u
                                       = unregisteredMessageCache s !! u) ∧
                       (outbox (prompted env uid t) = outbox s ∨
                        ∃ p, outbox (prompted env uid t) = (outbox s ++ [p])%list
                             ∧ recipient p = uid)).
  { intros t Hu Hc Ho.
    destruct (prompted_frame env uid t) as (Ho' & Hc' & _).
    split; [|split].
    - unfold prompted. cbn [users set_cache set_ticks]. rewrite users_posted. exact Hu.
    - intros u Hne. rewrite Hc', lookup_insert_ne by congruence. rewrite Hc. reflexivity.
    - right. eexists. rewrite Ho', Ho. split; reflexivity. }
  assert (Hstay : ∀ t, users t = users s →
                       unregisteredMessageCache t = unregisteredMessageCache s →
                       outbox t = outbox s →
                       users t = users s ∧
                       (∀ u, u ≠ uid → unregisteredMessageCache t !! u
                                       = unregisteredMessageCache s !! u) ∧
                       (outbox t = outbox s ∨
                        ∃ p, outbox t = (outbox s ++ [p])%list ∧ recipient p = uid)).
  { intros t Hu Hc Ho. split; [exact Hu|]. split; [intros u _; rewrite Hc; reflexivity|].
    left. exact Ho. }
  destruct (valid_uid uid) eqn:Hv.
  - rewrite sendRegistrationMessage_eq by exact Hv.
    destruct (unregisteredMessageCache s !! uid) as [t0|];
      [destruct (t0 =? 0); [|destruct (_ <? _)]|]; cbn [state_of];
      first [apply Hsent; reflexivity | apply Hstay; reflexivity].
  - rewrite sendRegistrationMessage_invalid by exact Hv. cbn [state_of].
    destruct (unregisteredMessageCache s !! uid) as [t0|]; [destruct (t0 =? 0)|];
      apply Hstay; reflexivity.
Qed.

Lemma handleStockCheck_eq (env : Env) (cosmetics honey : Stock.t → Items) uid s :
  handleStockCheck env cosmetics honey uid s =
  if store_ok env (awaits s) then
    match findOne uid (users s) with
    | None => sendRegistrationMessage env uid (resume env s)
    | Some u =>
        match stockData (resume env s) with
        | None =>
            Ok tt (posted env uid (Text "Stock data unavailable. Please try again later.")
                          (resume env s))
        | Some data =>
            match stock_sections cosmetics honey data with
            | None =>
                Ok tt (posted env uid (Text "Failed to check stock. Please try again later.")
                              (resume env s))
            | Some sections =>
                Ok tt (posted env uid
                         (Text (stockMsg u (toLocaleString env (Date_now env (ticks s)))
                                         sections))
                         (set_ticks (S (ticks s)) (resume env s)))
            end
        end
    end
  else Exn StoreError (resume env s).
Proof.
  unfold handleStockCheck, bind. rewrite User_findOne_eq.
  destruct (store_ok env (awaits s)); [|reflexivity].
  destruct (findOne uid (users s)) as [u|]; [|reflexivity].
  destruct (stockData (resume env s)) as [data|]; [|apply sendMessengerMessage_eq].
  unfold try_catch. destruct (stock_sections cosmetics honey data) as [sections|].
  - unfold getManilaTime, bind, now, ret. rewrite sendMessengerMessage_eq.
    destruct (resume_frame env s) as (-> & _). reflexivity.
  - unfold throw. apply sendMessengerMessage_eq.
Qed.

(** X18: the stock check only reads the collection and writes to one
    recipient.  Whatever the state, the store and the feed do, the
    collection afterwards is the one before, at most one message is posted
    and it goes to the uid that asked, and the prompt-cache entries of all
    other uids are as before. *)
Theorem stock_check_is_confined (env : Env) (cosmetics honey : Stock.t → Items)
        (uid : string) (s : State) :
  let s' := state_of (handleStockCheck env cosmetics honey uid s) in
  users s' = users s ∧
  (∀ u, u ≠ uid → unregisteredMessageCache s' !! u = unregisteredMessageCache s !! u) ∧
  (outbox s' = outbox s ∨ ∃ p, outbox s' = (outbox s ++ [p])%list ∧ recipient p = uid).
Proof.
  intros s'. unfold s'. rewrite handleStockCheck_eq.
  destruct (resume_frame env s) as (Ht & Ha & Hu & Hc & Ho).
  assert (Hpost : ∀ msg t, users t = users s →
                           unregisteredMessageCache t = unregisteredMessageCache s →
                           outbox t = outbox s →
                           let s' := posted env uid msg t in
                           users s' = users s ∧
                           (∀ u, u ≠ uid → unregisteredMessageCache s' !! u
                                           = unregisteredMessageCache s !! u) ∧
                           (outbox s' = outbox s ∨
                            ∃ p, outbox s' = (outbox s ++ [p])%list ∧ recipient p = uid)).
  { intros msg t Hu' Hc' Ho'. cbv zeta.
    rewrite users_posted, cache_posted, outbox_posted, Hu', Hc', Ho'.
    split; [reflexivity|]. split; [reflexivity|]. right. eexists. split; reflexivity. }
  destruct (store_ok env (awaits s)).
  - destruct (findOne uid (users s)) as [u|].
    + destruct (stockData (resume env s)) as [data|];
        [destruct (stock_sections cosmetics honey data)|]; cbn [state_of];
        apply Hpost; assumption.
    + destruct (sendRegistrationMessage_confined env uid (resume env s)) as (Hu' & Hc' & Ho').
      rewrite Hu', Hu. split; [reflexivity|].
      split; [intros v Hv; rewrite Hc' by exact Hv; rewrite Hc; reflexivity|].
      rewrite Ho in Ho'. exact Ho'.
  - cbn [state_of]. rewrite Hu, Hc, Ho. split; [reflexivity|]. split; [reflexivity|].
    left. reflexivity.
Qed.

Lemma stock_check_is_confined_witness :
  let s := set_cache {[ "1001" := Ex.t0 ]} (Ex.state [Ex.ann] (Some Ex.snapshot)) in
  unregisteredMessageCache
    (state_of (handleStockCheck Ex.env ExRoutes.cosmetics ExRoutes.honey "1009" s)) !! "1001"
  = Some Ex.t0.
Proof.
  intros s.
  destruct (stock_check_is_confined Ex.env ExRoutes.cosmetics ExRoutes.honey "1009" s)
    as (_ & H & _).
  rewrite H; [reflexivity|]. intros E. discriminate E.
Defined.

(** X19: a registered user always gets an answer.  If the store answers and
    has a document for the uid, the stock check returns normally and posts
    exactly one text to the uid, whether the snapshot is missing, malformed,
    empty or full, and whether or not the post is delivered; the prompt
    cache is left alone.  The text is the apology for a missing snapshot,
    the one for a failed check when a category is no array, and the report
    with the name of the user otherwise. *)
Theorem stock_check_always_answers (env : Env) (cosmetics honey : Stock.t → Items)
        (uid : string) (u : User.t) (s : State) :
  store_ok env (awaits s) = true →
  findOne uid (users s) = Some u →
  ∃ t s',
    handleStockCheck env cosmetics honey uid s = Ok tt s' ∧
    outbox s' = (outbox s ++ [mkPost uid (Text t) (post_ok env (S (awaits s)))])%list ∧
    unregisteredMessageCache s' = unregisteredMessageCache s ∧
    t = match stockData (resume env s) with
        | None => "Stock data unavailable. Please try again later."
        | Some data =>
            match stock_sections cosmetics honey data with
            | None => "Failed to check stock. Please try again later."
            | Some sections =>
                stockMsg u (toLocaleString env (Date_now env (ticks s))) sections
            end
        end.
Proof.
  intros Hok Hf. rewrite handleStockCheck_eq, Hok, Hf.
  destruct (resume_frame env s) as (Ht & Ha & Hu & Hc & Ho).
  destruct (stockData (resume env s)) as [data|];
    [destruct (stock_sections cosmetics honey data) as [sections|]|];
    eexists _, _; (split; [reflexivity|]);
    rewrite outbox_posted, cache_posted;
    cbn [outbox unregisteredMessageCache awaits set_ticks]; rewrite Ho, Hc, Ha;
    repeat split.
Qed.

Lemma stock_check_always_answers_witness :
  let s := Ex.state [Ex.ann] (Some Ex.broken) in
  ∃ s', handleStockCheck Ex.env ExRoutes.cosmetics ExRoutes.honey "1001" s = Ok tt s' ∧
        outbox s' = [mkPost "1001" (Text "Failed to check stock. Please try again later.") true].
Proof.
  intros s.
  destruct (stock_check_always_answers Ex.env ExRoutes.cosmetics ExRoutes.honey
              "1001" Ex.ann s) as (t & s' & Hrun & Ho & _ & Ht).
  - reflexivity.
  - reflexivity.
  - exists s'. split; [exact Hrun|]. rewrite Ho, Ht. reflexivity.
Defined.

(** X20: what the report of the stock check contains.  Over the six
    categories that the check reads, building the report fails exactly when
    one of them carries items that are no array; otherwise there are at most
    six sections, and there is none (so that the text says that no items are
    in stock) exactly when no item of any category has a positive
    quantity. *)
Theorem stock_report_sections (cosmetics honey : Stock.t → Items) (data : Stock.t) :
  let cats := [Stock.seed data; Stock.gear data; Stock.egg data;
               Stock.travelingmerchant data; cosmetics data; honey data] in
  (stock_sections cosmetics honey data = None ↔ ItemsOther ∈ cats) ∧
  (∀ sections, stock_sections cosmetics honey data = Some sections →
     (length sections ≤ 6)%nat ∧
     (sections = [] ↔ ∀ c i, c ∈ cats → i ∈ category_items c → Item.quantity i <= 0)).
Proof.
  intros cats. rewrite stock_sections_eq.
  match goal with |- context [foldr _ Some ?l []] =>
    destruct (stock_blocks l []) as (Hn & Hs) end.
  split; [exact Hn|].
  intros sections Hsec. destruct (Hs sections Hsec) as (Hlen & Hnil).
  split; [cbn [length] in Hlen; lia|].
  rewrite Hnil. split; [intros [_ H]; exact H|intros H; split; [reflexivity|exact H]].
Qed.

Lemma stock_report_sections_witness :
  stock_sections ExRoutes.cosmetics ExRoutes.honey Ex.broken = None.
Proof.
  destruct (stock_report_sections ExRoutes.cosmetics ExRoutes.honey Ex.broken) as (H & _).
  apply H. apply list_elem_of_further. apply list_elem_of_here.
Defined.

(** ** The admin commands *)

Lemma findOneAndDelete_result uid docs :
  (findOneAndDelete uid docs).2 = findOne uid docs.
Proof.
  unfold findOne. induction docs as [|x docs IH]; [reflexivity|].
  cbn [findOneAndDelete find]. destruct (String.eqb (User.uid x) uid); [reflexivity|exact IH].
Qed.

Lemma findOneAndDelete_sublist uid docs :
  sublist (findOneAndDelete uid docs).1 docs ∧
  (length docs ≤ S (length (findOneAndDelete uid docs).1))%nat.
Proof.
  induction docs as [|x docs (IH1 & IH2)]; [split; [constructor|cbn; lia]|].
  cbn [findOneAndDelete]. destruct (String.eqb (User.uid x) uid); cbn [fst length].
  - split; [apply sublist_cons; reflexivity|lia].
  - split; [apply sublist_skip; exact IH1|lia].
Qed.

Lemma findOneAndDelete_others uid docs uid' :
  uid' ≠ uid → findOne uid' (findOneAndDelete uid docs).1 = findOne uid' docs.
Proof.
  intros Hne. unfold findOne. induction docs as [|x docs IH]; [reflexivity|].
  cbn [findOneAndDelete find]. destruct (String.eqb (User.uid x) uid) eqn:He; cbn [fst find].
  - apply String.eqb_eq in He.
    replace (String.eqb (User.uid x) uid') with false; [reflexivity|].
    symmetry. apply String.eqb_neq. congruence.
  - rewrite IH. reflexivity.
Qed.

Lemma findOneAndDelete_gone uid docs :
  NoDup (User.uid <$> docs) → findOne uid (findOneAndDelete uid docs).1 = None.
Proof.
  intros Hnd. induction docs as [|x docs IH]; [reflexivity|].
  rewrite fmap_cons in Hnd. apply NoDup_cons in Hnd as (Hx & Hnd).
  cbn [findOneAndDelete]. destruct (String.eqb (User.uid x) uid) eqn:He; cbn [fst].
  - apply String.eqb_eq in He. apply findOne_None. rewrite <- He. exact Hx.
  - unfold findOne. cbn [find]. rewrite He. apply IH. exact Hnd.
Qed.

Lemma findOneAndDelete_absent uid docs :
  findOne uid docs = None → (findOneAndDelete uid docs).1 = docs.
Proof.
  unfold findOne. induction docs as [|x docs IH]; [reflexivity|].
  cbn [find findOneAndDelete]. destruct (String.eqb (User.uid x) uid); [discriminate|].
  intros Hf. cbn [fst]. f_equal. apply IH. exact Hf.
Qed.

Lemma User_find_sorted_eq (env : Env) (sort_by_name : list User.t → list User.t) s :
  User_find_sorted env sort_by_name s =
  if store_ok env (awaits s) then Ok (sort_by_name (users s)) (resume env s)
  else Exn StoreError (resume env s).
Proof.
  unfold User_find_sorted, bind, suspend. rewrite users_resume. reflexivity.
Qed.

Lemma User_findOneAndDelete_eq (env : Env) uid s :
  User_findOneAndDelete env uid s =
  if store_ok env (awaits s) then
    Ok (findOne uid (users s))
       (set_users (findOneAndDelete uid (users s)).1 (resume env s))
  else Exn StoreError (resume env s).
Proof.
  unfold User_findOneAndDelete, bind, suspend.
  rewrite users_resume, findOneAndDelete_result. reflexivity.
Qed.

(** The loop of the broadcast: one post per document, in the order of the
    collection, whatever becomes of each. *)
Lemma broadcast_loop (env : Env) (msg : Message) (us : list User.t) (s : State) :
  ∃ s', for_of us (λ user, sendMessengerMessage env (User.uid user) msg) s = Ok tt s' ∧
        users s' = users s ∧
        unregisteredMessageCache s' = unregisteredMessageCache s ∧
        awaits s' = (awaits s + length us)%nat ∧
        outbox s' = (outbox s ++
                     imap (λ i u, mkPost (User.uid u) msg (post_ok env (awaits s + i))) us)%list.
Proof.
  revert s. induction us as [|u us IH]; intros s.
  - exists s. cbn [for_of length imap]. rewrite app_nil_r, Nat.add_0_r. repeat split.
  - cbn [for_of]. unfold bind at 1. rewrite sendMessengerMessage_eq.
    destruct (IH (posted env (User.uid u) msg s)) as (s' & -> & Hu & Hc & Ha & Ho).
    destruct (posted_frame env (User.uid u) msg s) as (_ & Ha1 & Hu1 & Hc1 & Ho1 & _).
    exists s'. split; [reflexivity|].
    rewrite Hu, Hu1, Hc, Hc1, Ha, Ha1, Ho, Ho1, Ha1. cbn [length imap].
    rewrite Nat.add_0_r, <- app_assoc. cbn [app].
    repeat split; [lia|]. do 2 f_equal. apply imap_ext. intros i x _. cbn.
    do 2 f_equal. lia.
Qed.

Lemma replied_posted (env : Env) uid t s s1 pre :
  outbox s1 = (outbox s ++ pre)%list →
  replied uid s (posted env uid (Text t) s1).
Proof.
  intros Ho. exists pre, (mkPost uid (Text t) (post_ok env (awaits s1))), t.
  rewrite outbox_posted, Ho, <- app_assoc. repeat split.
Qed.

Lemma replied_resumed (env : Env) uid t s :
  replied uid s (posted env uid (Text t) (resume env s)).
Proof.
  apply (replied_posted env uid t s (resume env s) []).
  rewrite outbox_resume, app_nil_r. reflexivity.
Qed.

Lemma database_show_outcome (env : Env) (sort_by_name : list User.t → list User.t) uid s :
  ∃ s', database_show env sort_by_name uid s = Ok true s' ∧
        users s' = users s ∧ replied uid s s'.
Proof.
  unfold database_show, try_catch, bind at 1. rewrite User_find_sorted_eq.
  destruct (store_ok env (awaits s)).
  - destruct (length (sort_by_name (users s)) =? 0)%nat;
      unfold bind, ret; rewrite sendMessengerMessage_eq;
      (eexists; split; [reflexivity|]); rewrite users_posted, users_resume;
      (split; [reflexivity|apply replied_resumed]).
  - unfold bind, ret. rewrite sendMessengerMessage_eq.
    eexists. split; [reflexivity|]. rewrite users_posted, users_resume.
    split; [reflexivity|apply replied_resumed].
Qed.

Lemma database_delete_outcome (env : Env) uid target s :
  ∃ s' t, database_delete env uid target s = Ok true s' ∧
          users s' = (if store_ok env (awaits s)
                      then (findOneAndDelete target (users s)).1 else users s) ∧
          outbox s' = (outbox s ++ [mkPost uid (Text t) (post_ok env (S (awaits s)))])%list.
Proof.
  unfold database_delete, try_catch, bind at 1. unfold bind at 1.
  rewrite User_findOneAndDelete_eq.
  destruct (resume_frame env s) as (_ & Ha & _ & _ & Ho).
  destruct (store_ok env (awaits s)).
  - destruct (findOne target (users s)) as [u|];
      rewrite sendMessengerMessage_eq; unfold ret;
      (eexists _, _; split; [reflexivity|]); rewrite users_posted, outbox_posted;
      cbn [outbox awaits set_users]; rewrite Ho, Ha; split; reflexivity.
  - unfold bind, ret. rewrite sendMessengerMessage_eq.
    eexists _, _. split; [reflexivity|]. rewrite users_posted, users_resume, outbox_posted.
    rewrite Ho, Ha. split; reflexivity.
Qed.

Lemma message_global_outcome (env : Env) uid message s :
  ∃ s', message_global env uid message s = Ok true s' ∧
        users s' = users s ∧
        unregisteredMessageCache s' = unregisteredMessageCache s ∧
        outbox s' =
        (if store_ok env (awaits s) then
           outbox s ++
           imap (λ i u, mkPost (User.uid u) (Text ("📢 Admin Broadcast: " +:+ message))
                               (post_ok env (S (awaits s) + i))) (users s) ++
           [mkPost uid (Text ("✅ Broadcast sent to " +:+ pretty (length (users s))
                              +:+ " users."))
                   (post_ok env (S (awaits s) + length (users s)))]
         else outbox s ++ [mkPost uid (Text "Failed to send broadcast.")
                                  (post_ok env (S (awaits s)))])%list.
Proof.
  unfold message_global, try_catch, bind at 1. rewrite User_find_eq.
  destruct (resume_frame env s) as (_ & Ha & Hu & Hc & Ho).
  destruct (store_ok env (awaits s)).
  - unfold bind at 1.
    destruct (broadcast_loop env (Text ("📢 Admin Broadcast: " +:+ message)) (users s)
                (resume env s)) as (s1 & -> & Hu1 & Hc1 & Ha1 & Ho1).
    unfold bind, ret. rewrite sendMessengerMessage_eq.
    eexists. split; [reflexivity|].
    rewrite users_posted, cache_posted, outbox_posted, Hu1, Hc1, Ho1, Ha1, Hu, Hc, Ho, Ha.
    rewrite <- app_assoc. repeat split.
  - unfold bind, ret. rewrite sendMessengerMessage_eq.
    eexists. split; [reflexivity|].
    rewrite users_posted, cache_posted, outbox_posted, Hu, Hc, Ho, Ha. repeat split.
Qed.

Lemma message_one_outcome (env : Env) uid target message s :
  ∃ s', message_one env uid target message s = Ok true s' ∧
        users s' = users s ∧ replied uid s s'.
Proof.
  unfold message_one, try_catch, bind at 1. unfold bind at 1. rewrite User_findOne_eq.
  destruct (store_ok env (awaits s)).
  - destruct (findOne target (users s)) as [u|].
    + unfold bind, ret. rewrite !sendMessengerMessage_eq.
      eexists. split; [reflexivity|]. rewrite !users_posted, users_resume.
      split; [reflexivity|].
      eapply replied_posted. rewrite outbox_posted, outbox_resume. reflexivity.
    + rewrite sendMessengerMessage_eq. unfold ret.
      eexists. split; [reflexivity|]. rewrite users_posted, users_resume.
      split; [reflexivity|apply replied_resumed].
  - unfold bind, ret. rewrite sendMessengerMessage_eq.
    eexists. split; [reflexivity|]. rewrite users_posted, users_resume.
    split; [reflexivity|apply replied_resumed].
Qed.

(** X21: admin commands are refused to everyone else.  For a sender whose
    uid is not the configured admin uid, [handleAdminCommands] reads neither
    the command nor the store: it posts the refusal to the sender, reports
    the command as not handled, and leaves the collection and the prompt
    cache as they were, whatever the text says. *)
Theorem admin_commands_refuse_others (env : Env) (ADMIN_UID : string)
        (toLowerCase : string → string) (words : string → list string)
        (sort_by_name : list User.t → list User.t) (uid messageText : string) (s : State) :
  uid ≠ ADMIN_UID →
  ∃ s',
    handleAdminCommands env ADMIN_UID toLowerCase words sort_by_name uid messageText s
    = Ok false s' ∧
    users s' = users s ∧
    unregisteredMessageCache s' = unregisteredMessageCache s ∧
    outbox s' = (outbox s ++
                 [mkPost uid (Text "You are not authorized to use admin commands.")
                         (post_ok env (awaits s))])%list.
Proof.
  intros Hne. unfold handleAdminCommands.
  apply String.eqb_neq in Hne. rewrite Hne. cbn [negb].
  unfold bind, ret. rewrite sendMessengerMessage_eq.
  eexists. split; [reflexivity|].
  rewrite users_posted, cache_posted, outbox_posted. repeat split.
Qed.

Lemma admin_commands_refuse_others_witness :
  let s := Ex.state [Ex.ann; Ex.bob] None in
  ∃ s', handleAdminCommands Ex.env "1000" ExRoutes.toLowerCase ExRoutes.words
          ExRoutes.sort_by_name "1001" "Database -delete 1002" s = Ok false s' ∧
        users s' = [Ex.ann; Ex.bob].
Proof.
  intros s.
  destruct (admin_commands_refuse_others Ex.env "1000" ExRoutes.toLowerCase ExRoutes.words
              ExRoutes.sort_by_name "1001" "Database -delete 1002" s)
    as (s' & Hrun & Hu & _).
  - discriminate.
  - exists s'. split; [exact Hrun|exact Hu].
Defined.

(** X22: the broadcast of the admin.  For [Message -global] followed by at
    least one word, in any letter case of the first two words, and a store
    that answers, the outbox grows by one broadcast per document of the
    collection, in its order and with the words after the second joined by
    single spaces, and then by the confirmation to the admin with the number
    of documents; the confirmation is sent and the command handled whatever
    became of the single posts.  The collection is not changed. *)
Theorem broadcast_reaches_every_user (env : Env) (ADMIN_UID : string)
        (toLowerCase : string → string) (words : string → list string)
        (sort_by_name : list User.t → list User.t) (messageText : string)
        (first second : string) (rest : list string) (s : State) :
  words messageText = first :: second :: rest → rest ≠ [] →
  toLowerCase first = "message" → toLowerCase second = "-global" →
  store_ok env (awaits s) = true →
  ∃ s',
    handleAdminCommands env ADMIN_UID toLowerCase words sort_by_name ADMIN_UID messageText s
    = Ok true s' ∧
    users s' = users s ∧
    outbox s' =
    (outbox s ++
     imap (λ i u, mkPost (User.uid u)
                         (Text ("📢 Admin Broadcast: " +:+ String.concat " " rest))
                         (post_ok env (S (awaits s) + i))) (users s) ++
     [mkPost ADMIN_UID
             (Text ("✅ Broadcast sent to " +:+ pretty (length (users s)) +:+ " users."))
             (post_ok env (S (awaits s) + length (users s)))])%list.
Proof.
  intros Hw Hrest Hc Hsub Hok. unfold handleAdminCommands.
  rewrite String.eqb_refl, Hw. cbn [negb lookup list_lookup fmap option_fmap option_map].
  cbv zeta. rewrite Hc, Hsub. cbn [String.eqb Ascii.eqb Bool.eqb].
  rewrite bool_decide_eq_true_2 by reflexivity.
  destruct rest as [|third rest]; [contradiction|]. cbn [length Nat.ltb Nat.leb andb].
  destruct (message_global_outcome env ADMIN_UID
              (words_from_third (first :: second :: third :: rest)) s)
    as (s' & Hrun & Hu & _ & Ho).
  rewrite Hok in Ho. exists s'. split; [exact Hrun|]. split; [exact Hu|exact Ho].
Qed.

Lemma broadcast_reaches_every_user_witness :
  let s := Ex.state [Ex.ann; Ex.bob] None in
  ∃ s', handleAdminCommands Ex.env "1000" ExRoutes.toLowerCase ExRoutes.words
          ExRoutes.sort_by_name "1000" " Message -GLOBAL  back at  noon " s = Ok true s' ∧
        outbox s' = [mkPost "1001" (Text "📢 Admin Broadcast: back at noon") true;
                     mkPost "1002" (Text "📢 Admin Broadcast: back at noon") true;
                     mkPost "1000" (Text "✅ Broadcast sent to 2 users.") true].
Proof.
  intros s.
  destruct (broadcast_reaches_every_user Ex.env "1000" ExRoutes.toLowerCase ExRoutes.words
              ExRoutes.sort_by_name " Message -GLOBAL  back at  noon "
              "Message" "-GLOBAL" ["back"; "at"; "noon"] s)
    as (s' & Hrun & _ & Ho).
  - reflexivity.
  - discriminate.
  - reflexivity.
  - reflexivity.
  - reflexivity.
  - exists s'. split; [exact Hrun|]. rewrite Ho. reflexivity.
Defined.

(** X23: what [Database -delete] removes.  With a non-empty third word as
    target and a store that answers, the command is handled and the admin
    gets exactly one post; the collection afterwards is the one before
    without at most one document, the other uids find the same documents as
    before, with distinct uids the target finds none any more, and a target
    that no document has leaves the collection as it was. *)
Theorem delete_removes_one_document (env : Env) (ADMIN_UID : string)
        (toLowerCase : string → string) (words : string → list string)
        (sort_by_name : list User.t → list User.t) (messageText : string)
        (first second target : string) (rest : list string) (s : State) :
  words messageText = first :: second :: target :: rest → target ≠ "" →
  toLowerCase first = "database" → toLowerCase second = "-delete" →
  store_ok env (awaits s) = true →
  ∃ s',
    handleAdminCommands env ADMIN_UID toLowerCase words sort_by_name ADMIN_UID messageText s
    = Ok true s' ∧
    sublist (users s') (users s) ∧
    (length (users s) ≤ S (length (users s')))%nat ∧
    (∀ uid', uid' ≠ target → findOne uid' (users s') = findOne uid' (users s)) ∧
    (NoDup (User.uid <$> users s) → findOne target (users s') = None) ∧
    (findOne target (users s) = None → users s' = users s) ∧
    ∃ t, outbox s' = (outbox s ++ [mkPost ADMIN_UID (Text t) (post_ok env (S (awaits s)))])%list.
Proof.
  intros Hw Htarget Hc Hsub Hok. unfold handleAdminCommands.
  rewrite String.eqb_refl, Hw. cbn [negb lookup list_lookup fmap option_fmap option_map].
  cbv zeta. rewrite Hc, Hsub. cbn [String.eqb Ascii.eqb Bool.eqb].
  rewrite (bool_decide_eq_false_2 (Some "-delete" = Some "-show")) by discriminate.
  rewrite bool_decide_eq_true_2 by reflexivity.
  cbn [truthy default andb]. apply String.eqb_neq in Htarget. rewrite Htarget. cbn [negb].
  destruct (database_delete_outcome env ADMIN_UID target s) as (s' & t & Hrun & Hu & Ho).
  rewrite Hok in Hu.
  destruct (findOneAndDelete_sublist target (users s)) as (Hsub1 & Hlen).
  exists s'. split; [exact Hrun|]. rewrite Hu.
  split; [exact Hsub1|]. split; [exact Hlen|].
  split; [intros uid' Hne; apply findOneAndDelete_others; exact Hne|].
  split; [apply findOneAndDelete_gone|].
  split; [apply findOneAndDelete_absent|].
  exists t. exact Ho.
Qed.

Lemma delete_removes_one_document_witness :
  let s := Ex.state [Ex.ann; Ex.bob] None in
  ∃ s', handleAdminCommands Ex.env "1000" ExRoutes.toLowerCase ExRoutes.words
          ExRoutes.sort_by_name "1000" "database -Delete 1001" s = Ok true s' ∧
        findOne "1001" (users s') = None ∧ findOne "1002" (users s') = Some Ex.bob.
Proof.
  intros s.
  destruct (delete_removes_one_document Ex.env "1000" ExRoutes.toLowerCase ExRoutes.words
              ExRoutes.sort_by_name "database -Delete 1001"
              "database" "-Delete" "1001" [] s)
    as (s' & Hrun & _ & _ & Hothers & Hgone & _).
  - reflexivity.
  - discriminate.
  - reflexivity.
  - reflexivity.
  - reflexivity.
  - exists s'. split; [exact Hrun|]. split.
    + apply Hgone. apply (bool_decide_unpack _). vm_compute. reflexivity.
    + rewrite Hothers; [reflexivity|discriminate].
Defined.

(** X24: the outcomes of an admin command.  For the admin and a text with
    at least one word the handler never throws.  A command that is not
    handled has done nothing at all: the state is the one before.  A
    handled one has posted a text to the admin last, also when the store
    failed, has removed at most one document and added or changed none, and
    has left the collection alone unless the first word is "database". *)
Theorem admin_command_outcomes (env : Env) (ADMIN_UID : string)
        (toLowerCase : string → string) (words : string → list string)
        (sort_by_name : list User.t → list User.t) (messageText : string) (s : State) :
  words messageText ≠ [] →
  ∃ handled s',
    handleAdminCommands env ADMIN_UID toLowerCase words sort_by_name ADMIN_UID messageText s
    = Ok handled s' ∧
    (handled = false → s' = s) ∧
    (handled = true →
     (∃ pre p t, outbox s' = (outbox s ++ pre ++ [p])%list ∧
                 recipient p = ADMIN_UID ∧ message p = Text t) ∧
     sublist (users s') (users s) ∧
     (length (users s) ≤ S (length (users s')))%nat ∧
     (toLowerCase (default "" (head (words messageText))) ≠ "database" →
      users s' = users s)).
Proof.
  intros Hw. unfold handleAdminCommands. rewrite String.eqb_refl. cbn [negb]. cbv zeta.
  destruct (words messageText) as [|first args] eqn:Hargs; [contradiction|].
  cbn [head default].
  assert (Hunhandled : ∃ handled s', ret false s = Ok handled s' ∧
            (handled = false → s' = s) ∧
            (handled = true →
             (∃ pre p t, outbox s' = (outbox s ++ pre ++ [p])%list ∧
                         recipient p = ADMIN_UID ∧ message p = Text t) ∧
             sublist (users s') (users s) ∧
             (length (users s) ≤ S (length (users s')))%nat ∧
             (toLowerCase first ≠ "database" → users s' = users s))).
  { exists false, s. split; [reflexivity|]. split; [reflexivity|discriminate]. }
  assert (Hkeep : ∀ r : Res bool,
            (∃ s', r = Ok true s' ∧ users s' = users s ∧ replied ADMIN_UID s s') →
            ∃ handled s', r = Ok handled s' ∧
            (handled = false → s' = s) ∧
            (handled = true →
             (∃ pre p t, outbox s' = (outbox s ++ pre ++ [p])%list ∧
                         recipient p = ADMIN_UID ∧ message p = Text t) ∧
             sublist (users s') (users s) ∧
             (length (users s) ≤ S (length (users s')))%nat ∧
             (toLowerCase first ≠ "database" → users s' = users s))).
  { intros r (s' & -> & Hu & Hr). exists true, s'. split; [reflexivity|].
    split; [discriminate|]. intros _. split; [exact Hr|]. rewrite Hu.
    split; [reflexivity|]. split; [lia|]. reflexivity. }
  destruct (String.eqb (toLowerCase first) "database") eqn:Hdb.
  - destruct (bool_decide _); [apply Hkeep, database_show_outcome|].
    destruct (_ && _); [|exact Hunhandled].
    match goal with |- context [database_delete env ?u ?t s] =>
      destruct (database_delete_outcome env u t s) as (s' & t' & -> & Hu & Ho) end.
    exists true, s'. split; [reflexivity|]. split; [discriminate|]. intros _.
    split; [eexists [], _, t'; rewrite Ho; repeat split|]. apply String.eqb_eq in Hdb.
    destruct (findOneAndDelete_sublist
                (default "" ((first :: args) !! 2%nat)) (users s)) as (Hs1 & Hs2).
    destruct (store_ok env (awaits s)); rewrite Hu.
    + split; [exact Hs1|]. split; [exact Hs2|]. intros Hn. contradiction.
    + split; [reflexivity|]. split; [lia|]. reflexivity.
  - destruct (String.eqb (toLowerCase first) "message").
    + destruct (_ && _).
      * apply Hkeep.
        match goal with |- context [message_global env ?u ?m s] =>
          destruct (message_global_outcome env u m s) as (s' & -> & Hu & _ & Ho) end.
        exists s'. split; [reflexivity|]. split; [exact Hu|].
        unfold replied. destruct (store_ok env (awaits s)); rewrite Ho.
        -- eexists _, _, _. split; [reflexivity|]. split; reflexivity.
        -- exists [], (mkPost ADMIN_UID (Text "Failed to send broadcast.")
                              (post_ok env (S (awaits s)))), "Failed to send broadcast.".
           repeat split.
      * destruct (_ && _); [apply Hkeep, message_one_outcome|exact Hunhandled].
    + destruct (String.eqb (toLowerCase first) "adminhelp"); [|exact Hunhandled].
      apply Hkeep. unfold bind, ret. rewrite sendMessengerMessage_eq.
      eexists. split; [reflexivity|]. rewrite users_posted.
      split; [reflexivity|]. apply (replied_posted env ADMIN_UID _ s s []).
      rewrite app_nil_r. reflexivity.
Qed.

Lemma admin_command_outcomes_witness :
  let s := Ex.state [Ex.ann] None in
  ∃ s', handleAdminCommands Ex.env "1000" ExRoutes.toLowerCase ExRoutes.words
          ExRoutes.sort_by_name "1000" "database -drop" s = Ok false s' ∧ s' = s.
Proof.
  intros s.
  destruct (admin_command_outcomes Ex.env "1000" ExRoutes.toLowerCase ExRoutes.words
              ExRoutes.sort_by_name "database -drop" s)
    as (handled & s' & Hrun & Hno & _).
  - discriminate.
  - assert (E : handled = false).
    { assert (Hc : handleAdminCommands Ex.env "1000" ExRoutes.toLowerCase ExRoutes.words
                     ExRoutes.sort_by_name "1000" "database -drop" s = Ok false s)
        by reflexivity.
      rewrite Hc in Hrun. injection Hrun as <- _. reflexivity. }
    exists s'. rewrite (Hno E). subst handled. rewrite (Hno eq_refl) in Hrun.
    split; [exact Hrun|reflexivity].
Defined.
